(** * Pixel Soup: the client side of the state-synchronisation transport

    A shallow embedding of

    - [src/Pixel Soup/src/frontend/test/test2.py]: class [Pipe]
      ([connect], [login], [await_response], [transport]);
    - [src/Pixel Soup/src/frontend/views/gameview.py]: the bridge loop
      [networking] and the queue part of [GameView.stream].

    Python values are modelled by the inductive [pyval], [bytes] objects by
    [list byte], [str] objects by lists of code points.  A method of [Pipe]
    is a function from the session state (the object's fields and the state
    of the two sockets) to an outcome and a new state; an exception leaves
    the mutations made before it in place, as in Python. *)

From Stdlib Require Import ZArith List Lia Bool Ascii String.
From Stdlib Require Import Strings.Byte.
From stdpp Require Import base option list gmap.

Import ListNotations.
Local Open Scope Z_scope.

(** ** Bytes and text *)

Abbreviation bytes := (list byte).

(** A [str] is the sequence of its code points. *)
Abbreviation str := (list Z).

(** The bytes literal [b"..."]. *)
Definition b (s : string) : bytes := list_byte_of_string s.
Arguments b s%_string.

(** The str literal ["..."] (ASCII text). *)
Definition u (s : string) : str :=
  map (fun c => Z.of_N (Byte.to_N c)) (list_byte_of_string s).
Arguments u s%_string.

Definition Z_of_byte (x : byte) : Z := Z.of_N (Byte.to_N x).

Definition byte_of_Z (z : Z) : byte :=
  match Byte.of_N (Z.to_N (z mod 256)) with
  | Some x => x
  | None => x00
  end.

#[global] Instance byte_eq_dec : EqDecision byte.
Proof.
  intros x y. destruct (Byte.eqb x y) eqn:E.
  - left. apply Byte.byte_dec_bl, E.
  - right. intros H. apply Byte.byte_dec_lb in H. congruence.
Defined.

Definition bytes_eqb (x y : bytes) : bool := bool_decide (x = y).
Definition str_eqb (x y : str) : bool := bool_decide (x = y).

(** *** [split] and [join]

    [bytes.split(sep)] and [str.split(sep)] with a non-empty separator and no
    [maxsplit]: the occurrences of [sep] are searched from the left and do
    not overlap; the result always has at least one element. *)

Section Split.
Context {A : Type} `{EqDecision A}.

Fixpoint starts_with (sep s : list A) : bool :=
  match sep, s with
  | [], _ => true
  | x :: sep', y :: s' => bool_decide (x = y) && starts_with sep' s'
  | _ :: _, [] => false
  end.

(** [find_sep sep s]: the text before the leftmost occurrence of [sep] in
    [s] and the text after it. *)
Fixpoint find_sep (sep s : list A) : option (list A * list A) :=
  if starts_with sep s then Some ([], drop (length sep) s)
  else match s with
       | [] => None
       | c :: s' =>
           match find_sep sep s' with
           | Some (before, after) => Some (c :: before, after)
           | None => None
           end
       end.

Fixpoint split_fuel (fuel : nat) (sep s : list A) : list (list A) :=
  match fuel with
  | O => [s]
  | S fuel' =>
      match find_sep sep s with
      | None => [s]
      | Some (before, after) => before :: split_fuel fuel' sep after
      end
  end.

(** Every cut removes the (non-empty) separator, so [length s] cuts are
    never all used. *)
Definition split (sep s : list A) : list (list A) :=
  split_fuel (length s) sep s.

(** [sep.join(parts)]. *)
Fixpoint join (sep : list A) (parts : list (list A)) : list A :=
  match parts with
  | [] => []
  | [p] => p
  | p :: rest => p ++ sep ++ join sep rest
  end.
End Split.

(** [sep in s] *)
Definition occurs {A : Type} (sep s : list A) : Prop :=
  exists before after, s = before ++ sep ++ after.

(** *** UTF-8

    [str.encode()] and [bytes.decode()] use UTF-8 with the [strict] error
    handler; [pickle] encodes and decodes text with [surrogatepass], which
    also lets the code points U+D800..U+DFFF through. *)

Definition is_surrogate (c : Z) : bool := (0xD800 <=? c) && (c <=? 0xDFFF).

Definition is_cont (x : Z) : bool := (0x80 <=? x) && (x <? 0xC0).

Definition utf8_encode_char (surrogatepass : bool) (c : Z) : option bytes :=
  if c <? 0 then None
  else if c <? 0x80 then Some [byte_of_Z c]
  else if c <? 0x800 then
    Some [byte_of_Z (0xC0 + c / 64); byte_of_Z (0x80 + c mod 64)]
  else if c <? 0x10000 then
    if is_surrogate c && negb surrogatepass then None
    else Some [byte_of_Z (0xE0 + c / 4096);
               byte_of_Z (0x80 + (c / 64) mod 64);
               byte_of_Z (0x80 + c mod 64)]
  else if c <? 0x110000 then
    Some [byte_of_Z (0xF0 + c / 262144);
          byte_of_Z (0x80 + (c / 4096) mod 64);
          byte_of_Z (0x80 + (c / 64) mod 64);
          byte_of_Z (0x80 + c mod 64)]
  else None.

Fixpoint utf8_encode (surrogatepass : bool) (s : str) : option bytes :=
  match s with
  | [] => Some []
  | c :: s' =>
      match utf8_encode_char surrogatepass c, utf8_encode surrogatepass s' with
      | Some x, Some y => Some (x ++ y)
      | _, _ => None
      end
  end.

(** Overlong forms, code points past U+10FFFF and (unless [surrogatepass])
    surrogates are rejected, as are stray and missing continuation bytes. *)
Fixpoint utf8_decode (surrogatepass : bool) (s : bytes) : option str :=
  match s with
  | [] => Some []
  | b0 :: r0 =>
      let x0 := Z_of_byte b0 in
      if x0 <? 0x80 then cons x0 <$> utf8_decode surrogatepass r0
      else if x0 <? 0xC0 then None
      else if x0 <? 0xE0 then
        match r0 with
        | b1 :: r1 =>
            let x1 := Z_of_byte b1 in
            let c := (x0 - 0xC0) * 64 + (x1 - 0x80) in
            if is_cont x1 && (0x80 <=? c)
            then cons c <$> utf8_decode surrogatepass r1
            else None
        | _ => None
        end
      else if x0 <? 0xF0 then
        match r0 with
        | b1 :: b2 :: r2 =>
            let x1 := Z_of_byte b1 in
            let x2 := Z_of_byte b2 in
            let c := (x0 - 0xE0) * 4096 + (x1 - 0x80) * 64 + (x2 - 0x80) in
            if is_cont x1 && is_cont x2 && (0x800 <=? c)
               && (surrogatepass || negb (is_surrogate c))
            then cons c <$> utf8_decode surrogatepass r2
            else None
        | _ => None
        end
      else if x0 <? 0xF8 then
        match r0 with
        | b1 :: b2 :: b3 :: r3 =>
            let x1 := Z_of_byte b1 in
            let x2 := Z_of_byte b2 in
            let x3 := Z_of_byte b3 in
            let c := (x0 - 0xF0) * 262144 + (x1 - 0x80) * 4096
                     + (x2 - 0x80) * 64 + (x3 - 0x80) in
            if is_cont x1 && is_cont x2 && is_cont x3
               && (0x10000 <=? c) && (c <? 0x110000)
            then cons c <$> utf8_decode surrogatepass r3
            else None
        | _ => None
        end
      else None
  end.

(** *** Fixed-width and variable-width integers ([struct.pack], [int.to_bytes]) *)

(** [n] bytes of [z], least significant first, in two's complement. *)
Fixpoint pack_le (n : nat) (z : Z) : bytes :=
  match n with
  | O => []
  | S n' => byte_of_Z z :: pack_le n' (z / 256)
  end.

Definition pack_be (n : nat) (z : Z) : bytes := rev (pack_le n z).

Fixpoint unpack_le (s : bytes) : Z :=
  match s with
  | [] => 0
  | x :: s' => Z_of_byte x + 256 * unpack_le s'
  end.

Definition unpack_be (s : bytes) : Z := unpack_le (rev s).

(** [int.from_bytes(s, 'little', signed=True)]. *)
Definition unpack_le_signed (s : bytes) : Z :=
  let v := unpack_le s in
  let w := 8 * Z.of_nat (length s) in
  if (0 <? w) && (2 ^ (w - 1) <=? v) then v - 2 ^ w else v.

(** ** Python values, exceptions, outcomes *)

(** The values that travel through the transport: [None], [bool], [int],
    [float] (as its IEEE 754 binary64 bit pattern), [str] and (nested)
    [list]. *)
#[warnings="-register-all"]
Inductive pyval : Type :=
  | PNone
  | PBool (x : bool)
  | PInt (z : Z)
  | PFloat (bits : Z)
  | PStr (s : str)
  | PList (l : list pyval).

Inductive os_errno : Type := EISCONN | ENOTCONN | EOTHER.

(** The exception classes that can surface in the modelled code.  The four
    first are the subclasses of [ConnectionError]; [OSError _] stands for an
    [OSError] that is not a [ConnectionError].  [Unmodelled] marks an input
    on which the Python library leaves the fragment modelled here. *)
Inductive exn : Type :=
  | ConnectionRefusedError
  | ConnectionResetError
  | ConnectionAbortedError
  | BrokenPipeError
  | OSError (e : os_errno)
  | TypeError
  | ValueError
  | IndexError
  | KeyError
  | AttributeError
  | EOFError
  | UnpicklingError
  | OverflowError
  | UnicodeDecodeError
  | UnicodeEncodeError
  | Unmodelled.

(** [except ConnectionError] *)
Definition is_ConnectionError (e : exn) : bool :=
  match e with
  | ConnectionRefusedError | ConnectionResetError
  | ConnectionAbortedError | BrokenPipeError => true
  | _ => false
  end.

(** [except ConnectionAbortedError] *)
Definition is_ConnectionAbortedError (e : exn) : bool :=
  match e with
  | ConnectionAbortedError => true
  | _ => false
  end.

(** What a call does: it returns, it raises, or it never comes back (a
    blocking [recv] or [Queue.get] that nothing ever answers). *)
Inductive outcome (A : Type) : Type :=
  | Return (a : A)
  | Raise (e : exn)
  | Blocks.
Arguments Return {A} a.
Arguments Raise {A} e.
Arguments Blocks {A}.

(** ** [pickle]: [dumps] at protocol 3 and [loads]

    [from pickle import loads, dumps] is the Python standard library and
    binds the functions of its C implementation ([_pickle]); the model
    follows CPython 3.7 ([DEFAULT_PROTOCOL = 3], [HIGHEST_PROTOCOL = 4]) on
    the values of [pyval].  It does not follow the library in what depends
    on the interpreter's state: an object met twice (written once and then
    referred to), and the [RecursionError] of a value nested deeper than the
    interpreter's stack allows. *)
Module Pickle.

Definition PROTO : byte := x80.
Definition STOP : byte := x2e.            (* b'.' *)
Definition NONE : byte := x4e.            (* b'N' *)
Definition NEWTRUE : byte := x88.
Definition NEWFALSE : byte := x89.
Definition BININT : byte := x4a.          (* b'J' *)
Definition BININT1 : byte := x4b.         (* b'K' *)
Definition BININT2 : byte := x4d.         (* b'M' *)
Definition LONG1 : byte := x8a.
Definition LONG4 : byte := x8b.
Definition BINFLOAT : byte := x47.        (* b'G' *)
Definition BINUNICODE : byte := x58.      (* b'X' *)
Definition EMPTY_LIST : byte := x5d.      (* b']' *)
Definition APPEND : byte := x61.          (* b'a' *)
Definition APPENDS : byte := x65.         (* b'e' *)
Definition MARK : byte := x28.            (* b'(' *)
Definition BINPUT : byte := x71.          (* b'q' *)
Definition LONG_BINPUT : byte := x72.     (* b'r' *)

Definition HIGHEST_PROTOCOL : Z := 4.
Definition BATCHSIZE : nat := 1000.

(** *** The pickler *)

(** The bytes set aside for an [int] that does not fit in 32 bits:
    [(nbits >> 3) + 1]. *)
Definition long_nbytes (x : Z) : Z := (Z.log2 (Z.abs x) + 1) / 8 + 1.

(** The two's-complement little-endian form of [x] on [long_nbytes x]
    bytes, cut back by one byte when the last byte of a negative number is
    all sign bits ([encode_long] in [pickle.py]). *)
Definition encode_long (x : Z) : bytes :=
  if x =? 0 then []
  else
    let nbytes := Z.to_nat (long_nbytes x) in
    let result := pack_le nbytes x in
    if (x <? 0) && (1 <? nbytes)%nat
       && bool_decide (last result = Some xff)
       && (0x80 <=? Z_of_byte (nth (nbytes - 2) result x00))
    then removelast result
    else result.

(** [save_long]; [None] ("int too large to pickle") when the number needs
    2**31 bytes or more. *)
Definition save_long (x : Z) : option bytes :=
  if (0 <=? x) && (x <=? 0xff) then Some [BININT1; byte_of_Z x]
  else if (0 <=? x) && (x <=? 0xffff) then Some (BININT2 :: pack_le 2 x)
  else if (-0x80000000 <=? x) && (x <=? 0x7fffffff)
  then Some (BININT :: pack_le 4 x)
  else if long_nbytes x <=? 0x7fffffff then
    let encoded := encode_long x in
    let n := Z.of_nat (length encoded) in
    if n <? 256 then Some (LONG1 :: byte_of_Z n :: encoded)
    else Some (LONG4 :: pack_le 4 n ++ encoded)
  else None.

(** [save_float]: [BINFLOAT + pack('>d', obj)]. *)
Definition save_float (bits : Z) : bytes := BINFLOAT :: pack_be 8 bits.

(** [put(idx)], written by [memoize]; [None] past the 4-byte index. *)
Definition put (idx : Z) : option bytes :=
  if idx <? 256 then Some [BINPUT; byte_of_Z idx]
  else if idx <=? 0xffffffff then Some (LONG_BINPUT :: pack_le 4 idx)
  else None.

(** [save_str]; [None] for text of 4 GiB or more. *)
Definition save_str (s : str) (idx : Z) : option (bytes * Z) :=
  encoded ← utf8_encode true s;
  let n := Z.of_nat (length encoded) in
  if n <=? 0xffffffff
  then p ← put idx; Some (BINUNICODE :: pack_le 4 n ++ encoded ++ p, idx + 1)
  else None.

(** The batches of [batch_list_exact], on the already pickled items: each
    batch is [MARK], at most [BATCHSIZE] items, [APPENDS]; the loop goes on
    while items are left. *)
Fixpoint batches (fuel : nat) (items : list bytes) : bytes :=
  match fuel with
  | O => []
  | S fuel' =>
      MARK :: concat (take BATCHSIZE items) ++ [APPENDS]
      ++ (if (BATCHSIZE <? length items)%nat
          then batches fuel' (drop BATCHSIZE items)
          else [])
  end.

(** What [save_list] writes after [EMPTY_LIST] and the memo entry: nothing
    for the empty list, the item and [APPEND] for a list of one, the batches
    otherwise. *)
Definition batch_list_exact (items : list bytes) : bytes :=
  match items with
  | [] => []
  | [item] => item ++ [APPEND]
  | _ => batches (length items) items
  end.

(** [save(obj)] with the memo that [dump] starts empty: [idx] is the
    number of objects memoized so far.  Every [str] and [list] inside the
    value is taken to be an object of its own (an object met twice would be
    written as a [BINGET] the second time). *)
Fixpoint save (v : pyval) (idx : Z) : option (bytes * Z) :=
  match v with
  | PNone => Some ([NONE], idx)
  | PBool x => Some ([if x then NEWTRUE else NEWFALSE], idx)
  | PInt z => w ← save_long z; Some (w, idx)
  | PFloat bits => Some (save_float bits, idx)
  | PStr s => save_str s idx
  | PList l =>
      p ← put idx;
      '(items, idx') ←
        (fix save_items (l : list pyval) (i : Z) : option (list bytes * Z) :=
           match l with
           | [] => Some ([], i)
           | x :: l' =>
               '(w, i1) ← save x i;
               '(ws, i2) ← save_items l' i1;
               Some (w :: ws, i2)
           end) l (idx + 1);
      Some (EMPTY_LIST :: p ++ batch_list_exact items, idx')
  end.

(** [dumps(obj)]: [PROTO 3], the object, [STOP].  The sizes that protocol 3
    cannot write make CPython raise ([OverflowError], [PicklingError]); the
    model reports them all as [OverflowError]. *)
Definition dumps (v : pyval) : outcome bytes :=
  match save v 0 with
  | Some (w, _) => Return (PROTO :: x03 :: w ++ [STOP])
  | None => Raise OverflowError
  end.

(** The loop of [save] over the items of a list, on its own. *)
Fixpoint save_items (l : list pyval) (i : Z) : option (list bytes * Z) :=
  match l with
  | [] => Some ([], i)
  | x :: l' =>
      '(w, i1) ← save x i;
      '(ws, i2) ← save_items l' i1;
      Some (w :: ws, i2)
  end.

(** The number of objects that [save] memoizes: the [str] and the [list]
    objects. *)
Fixpoint memo_count (v : pyval) : Z :=
  match v with
  | PStr _ => 1
  | PList l => 1 + fold_right (fun x n => memo_count x + n) 0 l
  | _ => 0
  end.

(** What protocol 3 can write: a [float] is 64 bits, a [str] is made of code
    points and its UTF-8 form is shorter than 4 GiB, an [int] takes less
    than 2**31 bytes. *)
Fixpoint sizes_ok (v : pyval) : bool :=
  match v with
  | PNone | PBool _ => true
  | PInt z => long_nbytes z <=? 0x7fffffff
  | PFloat bits => (0 <=? bits) && (bits <? 2 ^ 64)
  | PStr s =>
      match utf8_encode true s with
      | Some encoded => Z.of_nat (length encoded) <=? 0xffffffff
      | None => false
      end
  | PList l => forallb sizes_ok l
  end.

(** ... and the memo index fits in 4 bytes. *)
Definition picklable (v : pyval) : bool :=
  sizes_ok v && (memo_count v <=? 2 ^ 32).

End Pickle.

(** *** The unpickler

    The machine of [loads]: the stack of the current mark, the stacks put
    aside by [MARK], and the memo.  The opcodes are those of the pickler
    above with their reading counterparts ([BINGET], [LONG_BINGET]) and the
    protocol-4 forms of the same values ([SHORT_BINUNICODE], [MEMOIZE],
    [FRAME]).  Any other opcode, and a [BINGET] of a list (which would alias
    a mutable object), is reported as [Unmodelled]. *)
Module Unpickler.

Record vm : Type := VM {
  stack : list pyval;                (* top first *)
  metastack : list (list pyval);
  memo : gmap Z pyval
}.

Inductive step_result : Type :=
  | Next (m : vm) (rest : bytes)
  | Stop (v : pyval)
  | Fail (e : exn).

(** [read(n)]: the next [n] bytes, or nothing when the data is shorter
    ("pickle data was truncated"). *)
Definition read (n : Z) (data : bytes) : option (bytes * bytes) :=
  if (0 <=? n) && (n <=? Z.of_nat (length data))
  then Some (take (Z.to_nat n) data, drop (Z.to_nat n) data)
  else None.

Definition push (v : pyval) (m : vm) : vm :=
  VM (v :: stack m) (metastack m) (memo m).

Definition is_list (v : pyval) : bool :=
  match v with
  | PList _ => true
  | _ => false
  end.

(** An operand of [n] bytes decoded by [f] and pushed. *)
Definition load_fixed (n : Z) (f : bytes -> pyval) (m : vm) (data : bytes)
  : step_result :=
  match read n data with
  | Some (arg, rest) => Next (push (f arg) m) rest
  | None => Fail UnpicklingError
  end.

(** A text operand whose length is written on [n] bytes. *)
Definition load_unicode (n : Z) (m : vm) (data : bytes) : step_result :=
  match read n data with
  | Some (len, rest) =>
      match read (unpack_le len) rest with
      | Some (arg, rest') =>
          match utf8_decode true arg with
          | Some s => Next (push (PStr s) m) rest'
          | None => Fail UnicodeDecodeError
          end
      | None => Fail UnpicklingError
      end
  | None => Fail UnpicklingError
  end.

(** A number operand whose length [size_of len] is written on [n] bytes:
    one unsigned byte for [LONG1], a signed 4-byte count for [LONG4]. *)
Definition load_long (n : Z) (size_of : bytes -> Z) (m : vm) (data : bytes)
  : step_result :=
  match read n data with
  | Some (len, rest) =>
      if size_of len <? 0 then Fail UnpicklingError
      else match read (size_of len) rest with
           | Some (arg, rest') => Next (push (PInt (unpack_le_signed arg)) m) rest'
           | None => Fail UnpicklingError
           end
  | None => Fail UnpicklingError
  end.

(** [memo[idx] = stack[-1]], the index written on [n] bytes. *)
Definition load_put (n : Z) (m : vm) (data : bytes) : step_result :=
  match read n data with
  | Some (arg, rest) =>
      match stack m with
      | top :: _ =>
          Next (VM (stack m) (metastack m) (<[unpack_le arg := top]> (memo m))) rest
      | [] => Fail UnpicklingError
      end
  | None => Fail UnpicklingError
  end.

Definition load_get (n : Z) (m : vm) (data : bytes) : step_result :=
  match read n data with
  | Some (arg, rest) =>
      match memo m !! unpack_le arg with
      | Some v => if is_list v then Fail Unmodelled else Next (push v m) rest
      | None => Fail KeyError
      end
  | None => Fail UnpicklingError
  end.

(** One opcode. *)
Definition step (m : vm) (data : bytes) : step_result :=
  match data with
  | [] => Fail EOFError                     (* "Ran out of input" *)
  | op :: rest =>
      match op with
      | x80 (* PROTO *) =>
          match read 1 rest with
          | Some (arg, rest') =>
              if unpack_le arg <=? Pickle.HIGHEST_PROTOCOL
              then Next m rest' else Fail ValueError
          | None => Fail UnpicklingError
          end
      | x95 (* FRAME *) =>
          match read 8 rest with
          | Some (arg, rest') =>
              if unpack_le arg <=? Z.of_nat (length rest')
              then Next m rest' else Fail UnpicklingError
          | None => Fail UnpicklingError
          end
      | x2e (* STOP *) =>
          match stack m with
          | v :: _ => Stop v
          | [] => Fail UnpicklingError
          end
      | x4e (* NONE *) => Next (push PNone m) rest
      | x88 (* NEWTRUE *) => Next (push (PBool true) m) rest
      | x89 (* NEWFALSE *) => Next (push (PBool false) m) rest
      | x4b (* BININT1 *) => load_fixed 1 (fun a => PInt (unpack_le a)) m rest
      | x4d (* BININT2 *) => load_fixed 2 (fun a => PInt (unpack_le a)) m rest
      | x4a (* BININT *) => load_fixed 4 (fun a => PInt (unpack_le_signed a)) m rest
      | x8a (* LONG1 *) => load_long 1 unpack_le m rest
      | x8b (* LONG4 *) => load_long 4 unpack_le_signed m rest
      | x47 (* BINFLOAT *) => load_fixed 8 (fun a => PFloat (unpack_be a)) m rest
      | x58 (* BINUNICODE *) => load_unicode 4 m rest
      | x8c (* SHORT_BINUNICODE *) => load_unicode 1 m rest
      | x5d (* EMPTY_LIST *) => Next (push (PList []) m) rest
      | x28 (* MARK *) => Next (VM [] (stack m :: metastack m) (memo m)) rest
      | x61 (* APPEND *) =>
          match stack m with
          | value :: PList l :: below =>
              Next (VM (PList (l ++ [value]) :: below) (metastack m) (memo m)) rest
          | _ :: _ :: _ => Fail AttributeError
          | _ => Fail UnpicklingError
          end
      | x65 (* APPENDS *) =>
          match metastack m with
          | [] => Fail UnpicklingError       (* "could not find MARK" *)
          | [] :: _ => Fail UnpicklingError
          | (top :: below) :: marks =>
              match stack m, top with
              | [], _ => Next (VM (top :: below) marks (memo m)) rest
              | items, PList l =>
                  Next (VM (PList (l ++ rev items) :: below) marks (memo m)) rest
              | _, _ => Fail AttributeError
              end
          end
      | x71 (* BINPUT *) => load_put 1 m rest
      | x72 (* LONG_BINPUT *) => load_put 4 m rest
      | x94 (* MEMOIZE *) =>
          match stack m with
          | top :: _ =>
              Next (VM (stack m) (metastack m)
                       (<[Z.of_nat (size (memo m)) := top]> (memo m))) rest
          | [] => Fail UnpicklingError
          end
      | x68 (* BINGET *) => load_get 1 m rest
      | x6a (* LONG_BINGET *) => load_get 4 m rest
      | _ => Fail Unmodelled
      end
  end.

(** The loop of [load]: opcodes are run until [STOP]; what follows [STOP]
    in the data is not looked at. *)
Fixpoint run (fuel : nat) (m : vm) (data : bytes) : outcome pyval :=
  match fuel with
  | O => Raise EOFError
  | S fuel' =>
      match step m data with
      | Next m' rest => run fuel' m' rest
      | Stop v => Return v
      | Fail e => Raise e
      end
  end.

(** [loads(data)].  Every opcode takes at least one byte, so the fuel is
    never used up before the data. *)
Definition loads (data : bytes) : outcome pyval :=
  run (S (length data)) (VM [] [] ∅) data.

End Unpickler.

Import Pickle Unpickler.

(** ** Built-ins used by [Pipe] *)

(** [l[i]] *)
Definition index {A : Type} (l : list A) (i : nat) : outcome A :=
  match l !! i with
  | Some x => Return x
  | None => Raise IndexError
  end.

Definition is_space (c : Z) : bool :=
  (c =? 0x20) || ((0x09 <=? c) && (c <=? 0x0D)).

Definition is_digit (c : Z) : bool := (0x30 <=? c) && (c <=? 0x39).

Definition is_ascii (s : str) : bool :=
  forallb (fun c => (0 <=? c) && (c <? 0x80)) s.

Fixpoint lstrip (s : str) : str :=
  match s with
  | c :: s' => if is_space c then lstrip s' else s
  | [] => []
  end.

Definition strip (s : str) : str := rev (lstrip (rev (lstrip s))).

(** The digits of a base-10 literal; a single underscore may stand between
    two digits. *)
Fixpoint digits_value (acc : Z) (after_digit : bool) (s : str) : option Z :=
  match s with
  | [] => if after_digit then Some acc else None
  | c :: s' =>
      if is_digit c then digits_value (10 * acc + (c - 0x30)) true s'
      else if (c =? 0x5F) && after_digit then
        match s' with
        | d :: _ => if is_digit d then digits_value acc false s' else None
        | [] => None
        end
      else None
  end.

(** What [int] takes from the interpreter it runs on: the Unicode database
    (which code points from 127 on are white space, which are decimal digits
    and of what value) and the longest number of digits that it converts
    ([sys.get_int_max_str_digits()]; 0 when there is no limit, as in the
    interpreters that have none). *)
Class Interpreter : Type := {
  unicode_space : Z -> bool;              (* [Py_UNICODE_ISSPACE] *)
  unicode_decimal : Z -> option Z;        (* [Py_UNICODE_TODECIMAL] *)
  int_max_str_digits : Z
}.

(** The text that [int] parses: ASCII text as it is; in other text a code
    point from 127 on is replaced by a space when it is white space, by the
    ASCII digit of its value when it is a decimal digit, and by a question
    mark otherwise. *)
Definition to_ascii_digits `{Interpreter} (s : str) : str :=
  if is_ascii s then s
  else (fun c => if c <? 127 then c
                 else if unicode_space c then 0x20
                 else match unicode_decimal c with
                      | Some d => 0x30 + d
                      | None => 0x3F
                      end) <$> s.

(** [int(s)] for a [str]: surrounding white space, an optional sign, decimal
    digits; [ValueError] for any other text and for a number of more digits
    than the interpreter converts. *)
Definition py_int `{Interpreter} (s : str) : outcome Z :=
  let t := strip (to_ascii_digits s) in
  let parsed :=
    match t with
    | 0x2B :: t' => digits_value 0 false t'
    | 0x2D :: t' => Z.opp <$> digits_value 0 false t'
    | _ => digits_value 0 false t
    end in
  match parsed with
  | Some z =>
      if (0 <? int_max_str_digits)
         && (int_max_str_digits <? Z.of_nat (length (filter (fun c => is_digit c = true) t)))
      then Raise ValueError
      else Return z
  | None => Raise ValueError
  end.

(** ** Sockets

    The network is the environment.  What the peer and the operating system
    answer to each socket call is read from a script, one entry per call;
    what the program sends is logged.  A [connect] or a [recv] with no
    scripted answer left never returns; a send with no scripted fault left
    succeeds. *)

Record Net : Type := mkNet {
  tcp_connected : bool;                      (* [self.tcp] has an open connection *)
  connect_script : list (option exn);        (* answers to [tcp.connect] *)
  tcp_send_script : list (option exn);       (* faults of [tcp.send] *)
  tcp_inbox : list (exn + bytes);            (* what [tcp.recv] finds *)
  udp_send_script : list (option exn);       (* faults of [udp.sendto] *)
  udp_inbox : list (exn + bytes);            (* what [udp.recvfrom] finds *)
  tcp_sent : list bytes;
  udp_sent : list (bytes * (str * Z))
}.

(** The fields of a [Pipe] object. *)
Record Pipe : Type := mkPipe {
  server : str;
  port : Z;
  connected : bool;
  username : option str;
  udp_password : option Z;
  game_port : option Z
}.

Record Session : Type := mkSession {
  self : Pipe;
  net : Net
}.

(** [Pipe.__init__] *)
Definition Pipe_init (server : str) (port : Z) : Pipe :=
  mkPipe server port false None None None.

(** A stateful call: from the state before it to its outcome and the state
    after it. *)
Definition ST (S A : Type) : Type := S -> outcome A * S.

#[global] Instance ST_ret {S : Type} : MRet (ST S) := fun A a s => (Return a, s).

#[global] Instance ST_bind {S : Type} : MBind (ST S) := fun A B f m s =>
  match m s with
  | (Return a, s') => f a s'
  | (Raise e, s') => (Raise e, s')
  | (Blocks, s') => (Blocks, s')
  end.

(** A pure call that may raise. *)
Definition lift {S A : Type} (o : outcome A) : ST S A := fun s => (o, s).

(** [try: body  except <class>: handler] *)
Definition try_except {S A : Type} (body : ST S A) (class : exn -> bool)
    (handler : ST S A) : ST S A := fun s =>
  match body s with
  | (Raise e, s') => if class e then handler s' else (Raise e, s')
  | r => r
  end.

(** The methods of [Pipe] run on a [Session]. *)
Abbreviation M := (ST Session).

Definition get_self : M Pipe := fun s => (Return (self s), s).

Definition set_self (f : Pipe -> Pipe) : M unit := fun s =>
  (Return tt, mkSession (f (self s)) (net s)).

Definition set_connected (x : bool) (p : Pipe) : Pipe :=
  mkPipe (server p) (port p) x (username p) (udp_password p) (game_port p).

Definition set_username (x : option str) (p : Pipe) : Pipe :=
  mkPipe (server p) (port p) (connected p) x (udp_password p) (game_port p).

Definition set_udp_password (x : option Z) (p : Pipe) : Pipe :=
  mkPipe (server p) (port p) (connected p) (username p) x (game_port p).

Definition set_game_port (x : option Z) (p : Pipe) : Pipe :=
  mkPipe (server p) (port p) (connected p) (username p) (udp_password p) x.

(** An address [(host, port)] is refused before any traffic when the port
    is not in 0..65535. *)
Definition valid_port (p : Z) : bool := (0 <=? p) && (p <=? 65535).

(** [self.tcp.connect(addr)].  A socket that is already connected answers
    [EISCONN], an [OSError] that is not a [ConnectionError]. *)
Definition tcp_connect (addr : str * Z) : M unit := fun s =>
  let n := net s in
  if negb (valid_port addr.2) then (Raise OverflowError, s)
  else if tcp_connected n then (Raise (OSError EISCONN), s)
  else match connect_script n with
       | [] => (Blocks, s)
       | answer :: script =>
           let n' ok := mkNet ok script (tcp_send_script n) (tcp_inbox n)
                          (udp_send_script n) (udp_inbox n) (tcp_sent n) (udp_sent n) in
           match answer with
           | None => (Return tt, mkSession (self s) (n' true))
           | Some e => (Raise e, mkSession (self s) (n' false))
           end
       end.

(** [self.tcp.send(data)] *)
Definition tcp_send (data : bytes) : M unit := fun s =>
  let n := net s in
  let n' sent := mkNet (tcp_connected n) (connect_script n) (tail (tcp_send_script n))
                   (tcp_inbox n) (udp_send_script n) (udp_inbox n) sent (udp_sent n) in
  match tcp_send_script n with
  | Some e :: _ => (Raise e, mkSession (self s) (n' (tcp_sent n)))
  | _ => (Return tt, mkSession (self s) (n' (tcp_sent n ++ [data])))
  end.

(** [self.tcp.recv(bufsize)]: at most [bufsize] bytes of what has arrived;
    the rest stays in the stream. *)
Definition tcp_recv (bufsize : nat) : M bytes := fun s =>
  let n := net s in
  let n' inbox := mkNet (tcp_connected n) (connect_script n) (tcp_send_script n)
                    inbox (udp_send_script n) (udp_inbox n) (tcp_sent n) (udp_sent n) in
  match tcp_inbox n with
  | [] => (Blocks, s)
  | inl e :: inbox => (Raise e, mkSession (self s) (n' inbox))
  | inr chunk :: inbox =>
      (Return (take bufsize chunk),
       mkSession (self s)
         (n' (match drop bufsize chunk with
              | [] => inbox
              | later => inr later :: inbox
              end)))
  end.

(** [self.udp.sendto(data, (host, port))]; [port] is [self.game_port], which
    is [None] until the handshake has stored it. *)
Definition udp_sendto (data : bytes) (host : str) (port : option Z) : M unit := fun s =>
  let n := net s in
  let n' sent := mkNet (tcp_connected n) (connect_script n) (tcp_send_script n)
                   (tcp_inbox n) (tail (udp_send_script n)) (udp_inbox n)
                   (tcp_sent n) sent in
  match port with
  | None => (Raise TypeError, s)
  | Some p =>
      if negb (valid_port p) then (Raise OverflowError, s)
      else match udp_send_script n with
           | Some e :: _ => (Raise e, mkSession (self s) (n' (udp_sent n)))
           | _ => (Return tt, mkSession (self s) (n' (udp_sent n ++ [(data, (host, p))])))
           end
  end.

(** [data, _ = self.udp.recvfrom(bufsize)]: one datagram, cut to [bufsize]
    bytes. *)
Definition udp_recvfrom (bufsize : nat) : M bytes := fun s =>
  let n := net s in
  let n' inbox := mkNet (tcp_connected n) (connect_script n) (tcp_send_script n)
                    (tcp_inbox n) (udp_send_script n) inbox (tcp_sent n) (udp_sent n) in
  match udp_inbox n with
  | [] => (Blocks, s)
  | inl e :: inbox => (Raise e, mkSession (self s) (n' inbox))
  | inr datagram :: inbox =>
      (Return (take bufsize datagram), mkSession (self s) (n' inbox))
  end.

(** [s.encode()] and [data.decode()] *)
Definition encode (s : str) : outcome bytes :=
  match utf8_encode false s with
  | Some x => Return x
  | None => Raise UnicodeEncodeError
  end.

Definition decode (data : bytes) : outcome str :=
  match utf8_decode false data with
  | Some s => Return s
  | None => Raise UnicodeDecodeError
  end.

(** ** class [Pipe] (test2.py) *)

Definition OUTER_DELIM : bytes := b "||||".
Definition INNER_DELIM : bytes := b "||".

(** [Pipe.connect] *)
Definition connect : M bool :=
  try_except
    (p ← get_self;
     tcp_connect (server p, port p);;
     set_self (set_connected true);;
     mret true)
    is_ConnectionError
    (mret false).

(** [Pipe.login] *)
Definition login (entry room_name username : str) : M (bool * str) :=
  set_self (set_username (Some username));;
  p ← get_self;
  success ← (if negb (connected p) then connect else mret true);
  if negb success then mret (false, u "error in connection")
  else
    message ← lift (encode (entry ++ u ",," ++ room_name ++ u ",," ++ username));
    tcp_send message;;
    response ← tcp_recv 100;
    if str_eqb entry (u "create") then
      if bytes_eqb response (b "Rename") then mret (false, u "rename")
      else if bytes_eqb response (b "Done") then mret (true, u "created")
      else mret (false, u "invalid")
    else
      if bytes_eqb response (b "Missing") then mret (false, u "missing")
      else if bytes_eqb response (b "Full") then mret (false, u "full")
      else mret (true, u "joined").

(** [Pipe.await_response]; the result is the list of fields, or [[False]]. *)
Definition await_response `{Interpreter} : M pyval :=
  try_except
    (data ← tcp_recv 1000;
     text ← lift (decode data);
     let data := split (u ",,") text in
     first ← lift (index data 0);
     (if str_eqb first (u "Start") then
        field1 ← lift (index data 1);
        port ← lift (py_int field1);
        set_self (set_game_port (Some port));;
        field2 ← lift (index data 2);
        password ← lift (py_int field2);
        set_self (set_udp_password (Some password))
      else mret tt);;
     mret (PList (PStr <$> data)))
    is_ConnectionAbortedError
    (mret (PList [PBool false])).

Definition of_option {A : Type} (f : A -> pyval) (x : option A) : pyval :=
  match x with
  | Some a => f a
  | None => PNone
  end.

(** The outgoing envelope, [[self.udp_password, self.username] + game_data]:
    the secret and the user name before the update. *)
Definition envelope (p : Pipe) (game_data : list pyval) : pyval :=
  PList ([of_option PInt (udp_password p); of_option PStr (username p)] ++ game_data).

(** [[loads(game) for game in data]] *)
Fixpoint loads_all (data : list bytes) : outcome (list pyval) :=
  match data with
  | [] => Return []
  | game :: data' =>
      match loads game with
      | Return v =>
          match loads_all data' with
          | Return vs => Return (v :: vs)
          | Raise e => Raise e
          | Blocks => Blocks
          end
      | Raise e => Raise e
      | Blocks => Blocks
      end
  end.

(** [Pipe.transport] *)
Definition transport (game_data : list pyval) : M (bool * option (list pyval)) :=
  p ← get_self;
  let game_data := envelope p game_data in
  pickled ← lift (dumps game_data);
  let game_data := pickled ++ b "||||" in
  udp_sendto game_data (server p) (game_port p);;
  data ← udp_recvfrom 2000;
  let data := split (b "||||") data in
  if (1 <? length data)%nat then
    data0 ← lift (index data 0);
    let data := split (b "||") data0 in
    data ← lift (loads_all data);
    mret (true, Some data)
  else mret (false, None).

(** ** The bridge (gameview.py)

    [forward] and [feedback] are [multiprocessing.Queue()] objects: unbounded
    first-in first-out queues; [put] appends, [get] removes the oldest entry
    and waits while there is none.  Each queue operation is taken as one
    atomic step; the render loop is not scheduled inside a bridge cycle. *)

(** What [transport] returns and [feedback] carries. *)
Abbreviation result := (bool * option (list pyval))%type.

Record Bridge : Type := mkBridge {
  forward : list (list pyval);     (* oldest first; an entry is a position tuple *)
  feedback : list result;          (* oldest first *)
  session : Session                (* [udp], the [Pipe] *)
}.

Abbreviation B := (ST Bridge).

(** [forward.qsize()] *)
Definition forward_qsize : B Z := fun st =>
  (Return (Z.of_nat (length (forward st))), st).

(** [forward.get()] *)
Definition forward_get : B (list pyval) := fun st =>
  match forward st with
  | [] => (Blocks, st)
  | x :: q => (Return x, mkBridge q (feedback st) (session st))
  end.

(** [forward.put(x)] *)
Definition forward_put (x : list pyval) : B unit := fun st =>
  (Return tt, mkBridge (forward st ++ [x]) (feedback st) (session st)).

(** [feedback.put(x)] *)
Definition feedback_put (x : result) : B unit := fun st =>
  (Return tt, mkBridge (forward st) (feedback st ++ [x]) (session st)).

(** [feedback.empty()] *)
Definition feedback_empty : B bool := fun st =>
  (Return (bool_decide (feedback st = [])), st).

(** [feedback.get()] *)
Definition feedback_get : B result := fun st =>
  match feedback st with
  | [] => (Blocks, st)
  | x :: q => (Return x, mkBridge (forward st) q (session st))
  end.

(** A call of a method of [udp]. *)
Definition on_udp {A : Type} (m : M A) : B A := fun st =>
  let '(r, s') := m (session st) in
  (r, mkBridge (forward st) (feedback st) s').

(** [for _ in range(n): body] *)
Fixpoint for_range_nat {S : Type} (n : nat) (body : ST S unit) : ST S unit :=
  match n with
  | O => mret tt
  | S n' => body;; for_range_nat n' body
  end.

Definition for_range {S : Type} (n : Z) (body : ST S unit) : ST S unit :=
  for_range_nat (Z.to_nat n) body.

(** The body of the [while True] loop of [networking]. *)
Definition networking_cycle : B unit :=
  items_no ← forward_qsize;
  for_range (items_no - 2) (forward_get;; mret tt);;
  data ← forward_get;                       (* [list(forward.get())] *)
  answer ← on_udp (transport data);
  feedback_put answer.

(** [networking(forward, feedback, udp)], watched for [cycles] turns of the
    loop: [Return tt] says that the loop is still running after them. *)
Fixpoint networking (cycles : nat) : B unit :=
  match cycles with
  | O => mret tt
  | S cycles' => networking_cycle;; networking cycles'
  end.

(** [GameView.stream], lines 255-258: the position is enqueued and, when
    [feedback] is not empty, its oldest entry is taken out and printed; that
    entry is what [stream] then moves the sprites with (lines 259-268, which
    touch neither queue and are not modelled).  The result is the entry
    read, if any. *)
Definition stream (position : list pyval) : B (option result) :=
  forward_put position;;
  empty ← feedback_empty;
  if negb empty then
    data ← feedback_get;
    mret (Some data)
  else mret None.

(** ** The framing as the specification names it

    [unpack] is what [transport] does to a received datagram. *)

(** [None] when the datagram holds no [OUTER_DELIM] (the [else] branch of
    [transport]). *)
Definition unpack (datagram : bytes) : option (list bytes) :=
  let data := split OUTER_DELIM datagram in
  if (1 <? length data)%nat
  then Some (split INNER_DELIM (default [] (data !! 0%nat)))
  else None.

(** Modelled from the spec: [pack], which only the peer runs on more than
    one payload; the spec's words are "joins payloads with a reserved
    INNER_DELIM distinct from OUTER_DELIM, then appends OUTER_DELIM once at
    the end".  [transport] itself packs its single payload this way. *)
Definition pack (payloads : list bytes) : bytes :=
  join INNER_DELIM payloads ++ OUTER_DELIM.

(** ** The handshake's reply grammar in the words of the specification

    "for create, "Rename" -> rename/false, "Done" -> created/true, anything
    else -> invalid/false; for join, "Missing" -> missing/false, "Full" ->
    full/false, anything else -> joined/true". *)

Inductive mode : Type := Create | Join.

Inductive reason : Type := Created | Joined | Rename | Missing | Full | Invalid.

Definition mode_str (m : mode) : str :=
  match m with
  | Create => u "create"
  | Join => u "join"
  end.

Definition reason_str (r : reason) : str :=
  match r with
  | Created => u "created"
  | Joined => u "joined"
  | Rename => u "rename"
  | Missing => u "missing"
  | Full => u "full"
  | Invalid => u "invalid"
  end.

Definition reply_grammar (m : mode) (reply : bytes) : bool * reason :=
  match m with
  | Create =>
      if bool_decide (reply = b "Rename") then (false, Rename)
      else if bool_decide (reply = b "Done") then (true, Created)
      else (false, Invalid)
  | Join =>
      if bool_decide (reply = b "Missing") then (false, Missing)
      else if bool_decide (reply = b "Full") then (false, Full)
      else (true, Joined)
  end.

(** ** Sessions and bridges used as concrete inputs *)

(** A fresh [Pipe] whose peer accepts the connection and then sends
    [replies] on the stream. *)
Definition fresh_session (replies : list bytes) : Session :=
  mkSession (Pipe_init (u "localhost") 9000)
            (mkNet false [None] [] (inr <$> replies) [] [] [] []).

(** A session after the handshake: connected, named, with the datagram port
    and the secret stored; [datagrams] is what [recvfrom] will find. *)
Definition active_session (datagrams : list (exn + bytes)) : Session :=
  mkSession (mkPipe (u "localhost") 9000 true (Some (u "Pancho")) (Some 42) (Some 5005))
            (mkNet true [] [] [] [] datagrams [] []).

(** The bytes of a value that [dumps] accepts. *)
Definition pickled (v : pyval) : bytes :=
  match dumps v with
  | Return w => w
  | _ => []
  end.

(** The datagram that a peer builds from a single update. *)
Definition datagram_of (fields : list pyval) : bytes :=
  pickled (PList fields) ++ OUTER_DELIM.

Definition position (x y : Z) : list pyval := [PInt x; PInt y].

(** A bridge with four positions waiting and two answers on their way. *)
Definition busy_bridge : Bridge :=
  mkBridge [position 1 1; position 2 2; position 3 3; position 4 4] []
    (active_session [inr (datagram_of [PInt 0; PInt 10; PInt 20; PInt 7]);
                     inr (datagram_of [PInt 1; PInt 30; PInt 40; PInt 8])]).

(** A bridge whose first receive fails at the socket; the second answer is
    already on its way. *)
Definition failing_bridge : Bridge :=
  mkBridge [position 1 1; position 2 2] []
    (active_session [inl ConnectionResetError;
                     inr (datagram_of [PInt 1; PInt 30; PInt 40; PInt 8])]).

(** A send or a receive of the datagram socket fails with [e]. *)
Definition socket_failure (s : Session) (e : exn) : Prop :=
  head (udp_send_script (net s)) = Some (Some e)
  \/ ((forall e', head (udp_send_script (net s)) <> Some (Some e'))
      /\ head (udp_inbox (net s)) = Some (inl e)).

(** ** Built-ins used by [GameView], [Build] and the script of test2.py *)

(** The truth value of an object ([if x], [not x]). *)
Definition truthy (x : pyval) : bool :=
  match x with
  | PNone => false
  | PBool t => t
  | PInt z => negb (z =? 0)
  | PFloat bits => negb (bits mod 2 ^ 63 =? 0)      (* neither 0.0 nor -0.0 *)
  | PStr s => match s with [] => false | _ => true end
  | PList l => match l with [] => false | _ => true end
  end.

(** [x == s] for a [str] [s]; an object of another type is not equal to a
    [str]. *)
Definition eq_str (x : pyval) (s : str) : bool :=
  match x with
  | PStr t => str_eqb t s
  | _ => false
  end.

(** [int(x)] for a [float]: the value cut towards zero; infinities and NaNs
    are refused. *)
Definition int_of_float (bits : Z) : outcome Z :=
  let negative := 2 ^ 63 <=? bits in
  let exponent := (bits / 2 ^ 52) mod 2 ^ 11 in
  let fraction := bits mod 2 ^ 52 in
  if exponent =? 2047 then
    if fraction =? 0 then Raise OverflowError else Raise ValueError
  else
    let magnitude :=
      if exponent =? 0 then 0
      else if 1075 <=? exponent then (2 ^ 52 + fraction) * 2 ^ (exponent - 1075)
      else (2 ^ 52 + fraction) / 2 ^ (1075 - exponent) in
    Return (if negative then - magnitude else magnitude).

(** [int(x)] *)
Definition int_of `{Interpreter} (x : pyval) : outcome Z :=
  match x with
  | PInt z => Return z
  | PBool t => Return (if t then 1 else 0)
  | PFloat bits => int_of_float bits
  | PStr s => py_int s
  | PNone | PList _ => Raise TypeError
  end.

(** [-x] *)
Definition neg (x : pyval) : outcome pyval :=
  match x with
  | PInt z => Return (PInt (- z))
  | PBool t => Return (PInt (if t then -1 else 0))
  | PFloat bits => Return (PFloat (Z.lxor bits (2 ^ 63)))
  | PNone | PStr _ | PList _ => Raise TypeError
  end.

(** [len(range(start, stop, step))] for a step that is not 0. *)
Definition range_length (start stop step : Z) : Z :=
  if 0 <? step then
    if start <? stop then (stop - start - 1) / step + 1 else 0
  else
    if stop <? start then (start - stop - 1) / (- step) + 1 else 0.

(** [range(start, stop, step)], as the list of its elements. *)
Definition py_range (start stop step : Z) : outcome (list Z) :=
  if step =? 0 then Raise ValueError
  else Return ((fun i : nat => start + Z.of_nat i * step)
                 <$> seq 0 (Z.to_nat (range_length start stop step))).

(** [for x in l: body] *)
Fixpoint for_each {S A : Type} (l : list A) (body : A -> ST S unit) : ST S unit :=
  match l with
  | [] => mret tt
  | x :: l' => body x;; for_each l' body
  end.

Definition get_state {S : Type} : ST S S := fun s => (Return s, s).

Definition put_state {S : Type} (s : S) : ST S unit := fun _ => (Return tt, s).

(** [random.randint(a, b)]: some integer of [a..b], here the residue of the
    generator's next number [raw]. *)
Definition randint_of (raw a b : Z) : Z := a + raw mod (b - a + 1).

(** ** Sprites (gameview.py)

    [arcade.Sprite] is the framework's class.  Of a sprite the model keeps
    what gameview.py gives it and reads from it: the image file, the scale,
    the centre and the speed.  A new sprite is at the origin, at rest; the
    image file is taken to exist.  The framework computes with the scale and
    the coordinates: what it does with a file name that is not a [str], or
    with a scale or a coordinate that is neither an [int] nor a [float], is
    left out ([Unmodelled]). *)

Definition is_number (x : pyval) : bool :=
  match x with
  | PInt _ | PFloat _ => true
  | _ => false
  end.

Module Sprite.

Record t : Type := mk {
  filename : str;
  scale : pyval;
  center_x : pyval;
  center_y : pyval;
  change_x : pyval;
  change_y : pyval
}.

(** [arcade.Sprite(filename, scale)] *)
Definition new (file : pyval) (scaling : pyval) : outcome t :=
  match file with
  | PStr name =>
      if is_number scaling
      then Return (mk name scaling (PInt 0) (PInt 0) (PFloat 0) (PFloat 0))
      else Raise Unmodelled
  | _ => Raise Unmodelled
  end.

(** [sprite.position] *)
Definition position (s : t) : list pyval := [center_x s; center_y s].

(** [sprite.center_x = x] and [sprite.center_y = y], for [int] arguments *)
Definition set_center (x y : Z) (s : t) : t :=
  mk (filename s) (scale s) (PInt x) (PInt y) (change_x s) (change_y s).

(** [sprite.position = (x, y)] *)
Definition set_position (x y : pyval) (s : t) : outcome t :=
  if is_number x && is_number y
  then Return (mk (filename s) (scale s) x y (change_x s) (change_y s))
  else Raise Unmodelled.

(** [sprite.change_x = value] *)
Definition set_change_x (value : pyval) (s : t) : t :=
  mk (filename s) (scale s) (center_x s) (center_y s) value (change_y s).

(** [sprite.change_y = value] *)
Definition set_change_y (value : pyval) (s : t) : t :=
  mk (filename s) (scale s) (center_x s) (center_y s) (change_x s) value.

End Sprite.

(** ** class [Build] (gameview.py) *)

Module Build.

Record t : Type := mk {
  blocks : list Sprite.t;
  image : pyval;
  scale : pyval;
  image_y : pyval;
  image_x : pyval
}.

(** [Build.__init__] *)
Definition init (image scale image_y image_x : pyval) : t :=
  mk [] image scale
     (if truthy image_y then image_y else image)
     (if truthy image_x then image_x else image).

(** Lines 63-66: [if image: ...] *)
Definition override_image (image : pyval) (bld : t) : t :=
  if truthy image then mk (blocks bld) image (scale bld) image image else bld.

(** Lines 68-69: [if scale: ...] *)
Definition override_scale (scale : pyval) (bld : t) : t :=
  if truthy scale
  then mk (blocks bld) (image bld) scale (image_y bld) (image_x bld)
  else bld.

(** Lines 72-80: the body of the loop, for one [counter]. *)
Definition add_block (entry : str) (default counter : Z) : ST t unit := fun bld =>
  let along_x := str_eqb entry (u "x") in
  match Sprite.new (if along_x then image_x bld else image_y bld) (scale bld) with
  | Return block =>
      let block := if along_x then Sprite.set_center counter default block
                   else Sprite.set_center default counter block in
      (Return tt,
       mk (blocks bld ++ [block]) (image bld) (scale bld) (image_y bld) (image_x bld))
  | Raise e => (Raise e, bld)
  | Blocks => (Blocks, bld)
  end.

(** [Build.lay]; [iteration] is a tuple of integers. *)
Definition lay (iteration : list Z) (entry : str) (default : Z) (image scale : pyval)
    : ST t unit :=
  bld ← get_state;
  put_state (override_scale scale (override_image image bld));;
  start ← lift (index iteration 0);
  stop ← lift (index iteration 1);
  step ← lift (index iteration 2);
  counters ← lift (py_range start stop step);
  for_each counters (add_block entry default).

End Build.

(** ** class [GameView] (gameview.py)

    What the environment supplies: the constants of gameconstants.py, which
    is not among the sources, the variable [SERVER] of the process
    environment and the host name. *)

Record Env : Type := mkEnv {
  GAME_PATH : str;
  SPRITE_SCALING_PLAYER : pyval;
  SCREEN_WIDTH : pyval;
  PLAYER_JUMP_SPEED : pyval;
  PLAYER_MOVEMENT_SPEED : pyval;
  SERVER : option str;                 (* [os.getenv("SERVER")] *)
  hostname : str                       (* [socket.gethostname()] *)
}.

(** [DATA_DIR = f"{GAME_PATH}/data"] *)
Definition DATA_DIR (k : Env) : str := GAME_PATH k ++ u "/data".

(** The key codes of [arcade.key] that the handlers compare with. *)
Definition key_SPACE : Z := 32.
Definition key_A : Z := 97.
Definition key_D : Z := 100.
Definition key_W : Z := 119.
Definition key_LEFT : Z := 65361.
Definition key_RIGHT : Z := 65363.

(** The attributes [player1], [player2], [player3]. *)
Inductive player : Type := Player1 | Player2 | Player3.

#[global] Instance player_eq_dec : EqDecision player.
Proof. solve_decision. Defined.

(** The attributes of a [GameView] that the modelled methods use; an option
    is [None] until [setup] has run.  [physics_engine] is the player that the
    engine was built for, [scheduled] the number of times [stream] was handed
    to [arcade.schedule]; [generator] and [draws] are the state of [random].
    The two queues are in the [Bridge]; the attributes that only drawing and
    sound use are left out. *)
Record GameView : Type := mkGameView {
  player1 : option Sprite.t;
  player2 : option Sprite.t;
  player3 : option Sprite.t;
  wall_list : option (list Sprite.t);
  physics_engine : option player;
  assigned_player : Z;
  scheduled : nat;
  generator : nat -> Z;
  draws : nat
}.

Abbreviation V := (ST GameView).

(** [GameView.__init__] *)
Definition GameView_init (generator : nat -> Z) : GameView :=
  mkGameView None None None None None 1 0 generator 0.

Definition sprite_of (who : player) (v : GameView) : option Sprite.t :=
  match who with
  | Player1 => player1 v
  | Player2 => player2 v
  | Player3 => player3 v
  end.

Definition set_sprite (who : player) (s : option Sprite.t) (v : GameView) : GameView :=
  mkGameView (if who is Player1 then s else player1 v)
             (if who is Player2 then s else player2 v)
             (if who is Player3 then s else player3 v)
             (wall_list v) (physics_engine v) (assigned_player v) (scheduled v)
             (generator v) (draws v).

Definition set_wall_list (walls : option (list Sprite.t)) (v : GameView) : GameView :=
  mkGameView (player1 v) (player2 v) (player3 v) walls (physics_engine v)
             (assigned_player v) (scheduled v) (generator v) (draws v).

Definition set_physics_engine (who : option player) (v : GameView) : GameView :=
  mkGameView (player1 v) (player2 v) (player3 v) (wall_list v) who
             (assigned_player v) (scheduled v) (generator v) (draws v).

Definition set_assigned_player (n : Z) (v : GameView) : GameView :=
  mkGameView (player1 v) (player2 v) (player3 v) (wall_list v) (physics_engine v)
             n (scheduled v) (generator v) (draws v).

Definition schedule (v : GameView) : GameView :=
  mkGameView (player1 v) (player2 v) (player3 v) (wall_list v) (physics_engine v)
             (assigned_player v) (S (scheduled v)) (generator v) (draws v).

(** [random.randint(a, b)] *)
Definition randint (a b : Z) : V Z := fun v =>
  (Return (randint_of (generator v (draws v)) a b),
   mkGameView (player1 v) (player2 v) (player3 v) (wall_list v) (physics_engine v)
              (assigned_player v) (scheduled v) (generator v) (S (draws v))).

(** [getattr(self, f"player{n}")]: the attributes of that form are
    [player1], [player2] and [player3]. *)
Definition getattr_player (n : Z) : outcome player :=
  if n =? 1 then Return Player1
  else if n =? 2 then Return Player2
  else if n =? 3 then Return Player3
  else Raise AttributeError.

(** [getattr(self, f"player{n}")] when an attribute of the sprite follows:
    [None] has no such attribute. *)
Definition player_sprite (n : Z) : V (player * Sprite.t) :=
  who ← lift (getattr_player n);
  v ← get_state;
  match sprite_of who v with
  | Some s => mret (who, s)
  | None => lift (Raise AttributeError)
  end.

Definition update_sprite (who : player) (s : Sprite.t) : V unit := fun v =>
  (Return tt, set_sprite who (Some s) v).

(** [GameView.setup]; the two queues that it stores are those of the
    [Bridge]. *)
Definition setup `{Interpreter} (k : Env) (character_id : pyval) : V unit :=
  n ← lift (int_of character_id);
  v ← get_state;
  put_state (set_assigned_player (n + 1) v);;
  s1 ← lift (Sprite.new (PStr (DATA_DIR k ++ u "/player1.png")) (SPRITE_SCALING_PLAYER k));
  update_sprite Player1 s1;;
  s2 ← lift (Sprite.new (PStr (DATA_DIR k ++ u "/player2.png")) (SPRITE_SCALING_PLAYER k));
  update_sprite Player2 s2;;
  s3 ← lift (Sprite.new (PStr (DATA_DIR k ++ u "/player3.png")) (SPRITE_SCALING_PLAYER k));
  update_sprite Player3 s3;;
  update_sprite Player1 (Sprite.set_center 100 100 s1);;
  update_sprite Player2 (Sprite.set_center 500 100 s2);;
  update_sprite Player3 (Sprite.set_center 1000 100 s3);;
  let build := Build.init (PStr (DATA_DIR k ++ u "/11.png")) (PFloat 0x3FB999999999999A)
                 PNone PNone in
  build ← lift (match Build.lay [0; 1000; 15] (u "x") 10 PNone PNone build with
                | (Return _, build') => Return build'
                | (Raise e, _) => Raise e
                | (Blocks, _) => Blocks
                end);
  v ← get_state;
  put_state (set_wall_list (Some (Build.blocks build)) v);;
  v ← get_state;
  who ← lift (getattr_player (assigned_player v));
  put_state (set_physics_engine (Some who) v);;
  if bool_decide (SERVER k = Some (u "127.0.0.1"))
     || bool_decide (SERVER k = Some (hostname k))
  then v ← get_state; put_state (schedule v)
  else mret tt.

(** [GameView.add_wall]; [pos] is [None] when the argument is left out. *)
Definition add_wall (k : Env) (pos : pyval) : V unit :=
  pos ← (if negb (truthy pos) then y ← randint 10 650; mret (PInt y) else mret pos);
  wall ← lift (Sprite.new (PStr (DATA_DIR k ++ u "/11.png")) (PFloat 0x3FC3333333333333));
  wall ← lift (Sprite.set_position (SCREEN_WIDTH k) pos wall);
  let wall := Sprite.set_change_x (PInt (-5)) wall in
  v ← get_state;
  match wall_list v with
  | Some walls => put_state (set_wall_list (Some (walls ++ [wall])) v)
  | None => lift (Raise AttributeError)
  end.

(** [self.physics_engine.can_jump()]: the answer of the engine is
    [can_jump]. *)
Definition engine_can_jump (can_jump : bool) : V bool :=
  v ← get_state;
  match physics_engine v with
  | Some _ => mret can_jump
  | None => lift (Raise AttributeError)
  end.

(** [GameView.on_key_press]; the sound of the jump is left out. *)
Definition on_key_press (k : Env) (can_jump : bool) (key modifiers : Z) : V unit :=
  if (key =? key_SPACE) || (key =? key_W) then
    jump ← engine_can_jump can_jump;
    if (jump : bool) then
      v ← get_state;
      '(who, s) ← player_sprite (assigned_player v);
      update_sprite who (Sprite.set_change_y (PLAYER_JUMP_SPEED k) s)
    else mret tt
  else if (key =? key_LEFT) || (key =? key_A) then
    speed ← lift (neg (PLAYER_MOVEMENT_SPEED k));
    v ← get_state;
    '(who, s) ← player_sprite (assigned_player v);
    update_sprite who (Sprite.set_change_x speed s)
  else if (key =? key_RIGHT) || (key =? key_D) then
    v ← get_state;
    '(who, s) ← player_sprite (assigned_player v);
    update_sprite who (Sprite.set_change_x (PLAYER_MOVEMENT_SPEED k) s)
  else mret tt.

(** [GameView.on_key_release] *)
Definition on_key_release (key modifiers : Z) : V unit :=
  if (key =? key_LEFT) || (key =? key_A) then
    v ← get_state;
    '(who, s) ← player_sprite (assigned_player v);
    update_sprite who (Sprite.set_change_x (PInt 0) s)
  else if (key =? key_RIGHT) || (key =? key_D) then
    v ← get_state;
    '(who, s) ← player_sprite (assigned_player v);
    update_sprite who (Sprite.set_change_x (PInt 0) s)
  else mret tt.

(** [GameView.on_mouse_press] *)
Definition on_mouse_press (k : Env) (x y button modifiers : Z) : V unit :=
  add_wall k PNone.

(** [data[1][i]] for the entry [data] read from [feedback]; [data[1]] is a
    list or [None]. *)
Definition batch_item (data : result) (i : nat) : outcome pyval :=
  match data.2 with
  | Some batch => index batch i
  | None => Raise TypeError
  end.

(** [data[1][-1]] *)
Definition batch_last (data : result) : outcome pyval :=
  match data.2 with
  | Some batch =>
      match last batch with
      | Some x => Return x
      | None => Raise IndexError
      end
  | None => Raise TypeError
  end.

(** [GameView.stream], lines 259-268: what the entry read from [feedback]
    does to the sprites. *)
Definition apply_feedback `{Interpreter} (k : Env) (data : result) : V unit :=
  if data.1 then
    first ← lift (batch_item data 0);
    if truthy first then
      if eq_str first (u ":server:") then
        pos ← lift (batch_item data 1);
        add_wall k pos
      else
        x ← lift (batch_item data 1);
        y ← lift (batch_item data 2);
        n ← lift (int_of first);
        '(who, s) ← player_sprite (n + 1);
        s ← lift (Sprite.set_position x y s);
        update_sprite who s;;
        pos ← lift (batch_last data);
        add_wall k pos
    else mret tt
  else mret tt.

(** The game process: the view and the queues that it shares with the
    bridge. *)
Record Game : Type := mkGame {
  view : GameView;
  queues : Bridge
}.

Definition on_view {A : Type} (m : V A) : ST Game A := fun g =>
  let '(r, v') := m (view g) in (r, mkGame v' (queues g)).

Definition on_queues {A : Type} (m : B A) : ST Game A := fun g =>
  let '(r, q') := m (queues g) in (r, mkGame (view g) q').

(** [GameView.stream] *)
Definition GameView_stream `{Interpreter} (k : Env) : ST Game unit :=
  g ← get_state;
  '(_, me) ← on_view (player_sprite (assigned_player (view g)));
  data ← on_queues (stream (Sprite.position me));
  match data with
  | Some data => on_view (apply_feedback k data)
  | None => mret tt
  end.

(** ** The script of test2.py (lines 86-95)

    [print] appends what it is given to [stdout]; [input] reads the next
    line of [stdin] and raises [EOFError] at its end. *)

Inductive printed : Type :=
  | print_login (r : bool * str)
  | print_packet (packet : pyval)
  | print_transport (r : result).

Record Terminal : Type := mkTerminal {
  pl : Session;
  stdin : list str;
  stdout : list printed
}.

Definition input : ST Terminal str := fun t =>
  match stdin t with
  | [] => (Raise EOFError, t)
  | line :: lines => (Return line, mkTerminal (pl t) lines (stdout t))
  end.

Definition print (x : printed) : ST Terminal unit := fun t =>
  (Return tt, mkTerminal (pl t) (stdin t) (stdout t ++ [x])).

Definition on_pl {A : Type} (m : M A) : ST Terminal A := fun t =>
  let '(r, s') := m (pl t) in (r, mkTerminal s' (stdin t) (stdout t)).

(** Lines 93-95, watched for [turns] turns of the loop. *)
Fixpoint transport_loop `{Interpreter} (turns : nat) : ST Terminal unit :=
  match turns with
  | O => mret tt
  | S turns' =>
      text ← input;
      n ← lift (py_int text);
      r ← on_pl (transport [PStr (u "press"); PInt n]);
      print (print_transport r);;
      transport_loop turns'
  end.

(** [packet[0]] *)
Definition packet_head (packet : pyval) : outcome pyval :=
  match packet with
  | PList l => index l 0
  | _ => Raise TypeError
  end.

(** Lines 89-95, watched for [turns] turns of the two loops. *)
Fixpoint await_loop `{Interpreter} (turns : nat) : ST Terminal unit :=
  match turns with
  | O => mret tt
  | S turns' =>
      packet ← on_pl await_response;
      print (print_packet packet);;
      first ← lift (packet_head packet);
      if eq_str first (u "Start") then transport_loop turns'
      else await_loop turns'
  end.

(** Lines 86-95 *)
Definition script `{Interpreter} (turns : nat) : ST Terminal unit :=
  r ← on_pl (login (u "join") (u "game3") (u "Pancho"));
  print (print_login r);;
  await_loop turns.

(** The terminal at line 86: a new [Pipe] for port 9000 of this host. *)
Definition Terminal_init (hostname : str) (network : Net) (lines : list str) : Terminal :=
  mkTerminal (mkSession (Pipe_init hostname 9000) network) lines [].

(** ** More concrete inputs *)

(** An interpreter for the concrete inputs: no limit on the digits of a
    number, the white space of Unicode from 127 on and, of its decimal
    digits, the Arabic-Indic, the Devanagari and the full-width ones. *)
#[global] Instance sample_interpreter : Interpreter := {|
  unicode_space c :=
    bool_decide (c ∈ [0x85; 0xA0; 0x1680; 0x2028; 0x2029; 0x202F; 0x205F; 0x3000])
    || ((0x2000 <=? c) && (c <=? 0x200A));
  unicode_decimal c :=
    if (0x660 <=? c) && (c <=? 0x669) then Some (c - 0x660)
    else if (0x6F0 <=? c) && (c <=? 0x6F9) then Some (c - 0x6F0)
    else if (0x966 <=? c) && (c <=? 0x96F) then Some (c - 0x966)
    else if (0xFF10 <=? c) && (c <=? 0xFF19) then Some (c - 0xFF10)
    else None;
  int_max_str_digits := 0
|}.

(** A new [Pipe] whose peer refuses the connection. *)
Definition refused_session : Session :=
  mkSession (Pipe_init (u "localhost") 9000)
            (mkNet false [Some ConnectionRefusedError] [] [] [] [] [] []).

(** A connected [Pipe] before the handshake; [replies] is what [recv] will
    find. *)
Definition connected_session (replies : list (exn + bytes)) : Session :=
  mkSession (mkPipe (u "localhost") 9000 true None None None)
            (mkNet true [] [] replies [] [] [] []).

(** A game on a screen 1000 wide, run on the host of the server. *)
Definition demo_env : Env :=
  mkEnv (u "/game") (PFloat 0x3FE0000000000000) (PInt 1000) (PInt 20) (PInt 5)
        (Some (u "127.0.0.1")) (u "localhost").

(** The view of the second player after [setup]. *)
Definition demo_view : GameView :=
  (setup demo_env (PStr (u "1")) (GameView_init (fun n => 1000 * Z.of_nat n + 7))).2.

(** That view with [answers] waiting in [feedback]. *)
Definition demo_game (answers : list result) : Game :=
  mkGame demo_view (mkBridge [] answers (active_session [])).

(** ** Predicates used in the proofs *)

(** A payload that the framing returns unchanged: it does not contain
    [INNER_DELIM] and does not end with the delimiter byte. *)
Definition clean (p : bytes) : Prop :=
  ~ occurs INNER_DELIM p /\ last p <> Some x7c.

(** [loads_to v w]: from any state, the machine reads [w], in at most
    [length w] steps, and is left with [v] pushed on the stack (and a memo
    that may have grown). *)
Definition loads_to (v : pyval) (w : bytes) : Prop :=
  forall (stk : list pyval) (meta : list (list pyval)) (mem : gmap Z pyval)
         (rest : bytes),
  exists (k : nat) (mem' : gmap Z pyval),
    (k <= length w)%nat
    /\ forall fuel : nat,
         run (k + fuel) (VM stk meta mem) (w ++ rest)
         = run fuel (VM (v :: stk) meta mem') rest.

(** What [login] does once the connection is there (lines 31-52): the
    message is sent, the reply is read and decoded. *)
Definition exchange (entry room_name username : str) : M (bool * str) :=
  message ← lift (encode (entry ++ u ",," ++ room_name ++ u ",," ++ username));
  tcp_send message;;
  response ← tcp_recv 100;
  if str_eqb entry (u "create") then
    if bytes_eqb response (b "Rename") then mret (false, u "rename")
    else if bytes_eqb response (b "Done") then mret (true, u "created")
    else mret (false, u "invalid")
  else
    if bytes_eqb response (b "Missing") then mret (false, u "missing")
    else if bytes_eqb response (b "Full") then mret (false, u "full")
    else mret (true, u "joined").

(** What [transport] makes of a received datagram (lines 75-83). *)
Definition decoded (datagram : bytes) : outcome result :=
  match unpack datagram with
  | Some payloads =>
      match loads_all payloads with
      | Return l => Return (true, Some l)
      | Raise e => Raise e
      | Blocks => Blocks
      end
  | None => Return (false, None)
  end.

(** [s'] differs from [s] on the datagram socket at most: the fields of the
    [Pipe] and the stream socket are the same. *)
Definition same_stream (s s' : Session) : Prop :=
  self s' = self s
  /\ tcp_connected (net s') = tcp_connected (net s)
  /\ connect_script (net s') = connect_script (net s)
  /\ tcp_send_script (net s') = tcp_send_script (net s)
  /\ tcp_inbox (net s') = tcp_inbox (net s)
  /\ tcp_sent (net s') = tcp_sent (net s).

(** The wall that [add_wall] makes at the height [pos]. *)
Definition wall_at (k : Env) (pos : pyval) : Sprite.t :=
  Sprite.mk (DATA_DIR k ++ u "/11.png") (PFloat 0x3FC3333333333333)
            (SCREEN_WIDTH k) pos (PInt (-5)) (PFloat 0).

(** The floor that [setup] lays: 67 blocks, 15 apart, at the height 10. *)
Definition floor_blocks (k : Env) : list Sprite.t :=
  (fun i : nat => Sprite.mk (DATA_DIR k ++ u "/11.png") (PFloat 0x3FB999999999999A)
                    (PInt (15 * Z.of_nat i)) (PInt 10) (PFloat 0) (PFloat 0))
  <$> seq 0 67.

(** Two sprites that differ in their speed at most. *)
Definition same_place (s s' : Sprite.t) : Prop :=
  Sprite.filename s' = Sprite.filename s /\ Sprite.scale s' = Sprite.scale s
  /\ Sprite.position s' = Sprite.position s.

(** [v'] differs from [v] at most in the speed of the assigned player. *)
Definition same_but_speed (v v' : GameView) : Prop :=
  wall_list v' = wall_list v /\ physics_engine v' = physics_engine v
  /\ assigned_player v' = assigned_player v /\ scheduled v' = scheduled v
  /\ draws v' = draws v
  /\ forall who : player,
       (getattr_player (assigned_player v) <> Return who ->
        sprite_of who v' = sprite_of who v)
       /\ match sprite_of who v, sprite_of who v' with
          | Some s, Some s' => same_place s s'
          | None, None => True
          | _, _ => False
          end.

(** ** Proofs *)

(** *** The definitions on concrete inputs *)

Example split_demo : split (b "||") (b "ab||c||||d") = [b "ab"; b "c"; b ""; b "d"].
Proof. reflexivity. Qed.

Example pack_le_demo : pack_le 4 (-2) = [xfe; xff; xff; xff].
Proof. reflexivity. Qed.

Example utf8_demo :
  utf8_encode false [0x41; 0xE9; 0x20AC; 0x1F600]
  = Some [x41; xc3; xa9; xe2; x82; xac; xf0; x9f; x98; x80]
  /\ utf8_decode false [x41; xc3; xa9; xe2; x82; xac; xf0; x9f; x98; x80]
     = Some [0x41; 0xE9; 0x20AC; 0x1F600]
  /\ utf8_decode false [xed; xa0; x80] = None
  /\ utf8_decode true [xed; xa0; x80] = Some [0xD800]
  /\ utf8_decode false [xc0; x80] = None.
Proof. repeat split; reflexivity. Qed.

Example dumps_demo :
  Pickle.dumps (PList [PInt 1; PStr (u "a"); PList [PInt (-1); PNone]])
  = Return ([x80; x03] ++ b "]q" ++ [x00] ++ b "(K" ++ [x01] ++ b "X"
            ++ [x01; x00; x00; x00] ++ b "aq" ++ [x01] ++ b "]q" ++ [x02]
            ++ b "(J" ++ [xff; xff; xff; xff] ++ b "Ne" ++ b "e.").
Proof. vm_compute. reflexivity. Qed.

Example loads_demo :
  loads ([x80; x03] ++ b "]q" ++ [x00] ++ b "(K" ++ [x01] ++ b "X"
         ++ [x01; x00; x00; x00] ++ b "aq" ++ [x01] ++ b "]q" ++ [x02]
         ++ b "(J" ++ [xff; xff; xff; xff] ++ b "Ne" ++ b "e.||||")
  = Return (PList [PInt 1; PStr (u "a"); PList [PInt (-1); PNone]])
  /\ loads (b "") = Raise EOFError.
Proof. split; vm_compute; reflexivity. Qed.

Example py_int_demo :
  py_int (u "5005") = Return 5005 /\ py_int (u " -1_0 ") = Return (-10)
  /\ py_int (u "abc") = Raise ValueError /\ py_int (u "") = Raise ValueError
  /\ py_int (u "1__0") = Raise ValueError /\ py_int (u "- 5") = Raise ValueError.
Proof. repeat split; reflexivity. Qed.

(** Text outside ASCII, on [sample_interpreter] and on an interpreter that
    converts 4300 digits at most. *)
Example py_int_unicode_demo :
  py_int [0x661; 0x662] = Return 12
  /\ py_int ([0xA0] ++ u "-" ++ [0x967; 0xFF12] ++ [0x2003]) = Return (-12)
  /\ py_int [0xB2] = Raise ValueError
  /\ py_int [0x661; 0x1C] = Raise ValueError
  /\ (let limited := {| unicode_space := fun _ => false;
                         unicode_decimal := fun _ => None;
                         int_max_str_digits := 4300 |} in
      @py_int limited (replicate 4300 0x31) = Return ((10 ^ 4300 - 1) / 9)
      /\ @py_int limited (replicate 4301 0x31) = Raise ValueError).
Proof. vm_compute. repeat split. Qed.

Arguments u : simpl never.
Arguments b : simpl never.
Arguments encode : simpl never.
Arguments decode : simpl never.
Arguments split : simpl never.
Arguments join : simpl never.
Arguments py_int : simpl never.
Arguments str_eqb : simpl never.
Arguments bytes_eqb : simpl never.
Arguments dumps : simpl never.
Arguments loads : simpl never.
Arguments mode_str : simpl never.

(** Running the state monad by hand. *)
Ltac st_unfold :=
  unfold mbind, mret, ST_bind, ST_ret, lift, try_except, get_self, set_self.

Lemma index_Some {A : Type} (l : list A) i x : l !! i = Some x -> index l i = Return x.
Proof. intros H. unfold index. rewrite H. reflexivity. Qed.

Lemma index_None {A : Type} (l : list A) i : l !! i = None -> index l i = Raise IndexError.
Proof. intros H. unfold index. rewrite H. reflexivity. Qed.

(** *** [await_response] *)

(** C5. A message whose first field is "Start": the integer value of the
    second field becomes [game_port], that of the third [udp_password], and
    the list of all the fields is returned. *)
Theorem await_response_start `{python : Interpreter} (s : Session) (chunk : bytes)
    (inbox : list (exn + bytes)) (text field1 field2 : str) (p q : Z) :
  tcp_inbox (net s) = inr chunk :: inbox ->
  decode (take 1000 chunk) = Return text ->
  split (u ",,") text !! 0%nat = Some (u "Start") ->
  split (u ",,") text !! 1%nat = Some field1 -> py_int field1 = Return p ->
  split (u ",,") text !! 2%nat = Some field2 -> py_int field2 = Return q ->
  exists s',
    await_response s = (Return (PList (PStr <$> split (u ",,") text)), s')
    /\ self s' = set_udp_password (Some q) (set_game_port (Some p) (self s))
    /\ game_port (self s') = Some p
    /\ udp_password (self s') = Some q.
Proof.
  intros Hin Hdec H0 H1 Hp H2 Hq.
  eexists. split.
  - unfold await_response. st_unfold. unfold tcp_recv. rewrite Hin, Hdec.
    rewrite (index_Some _ _ _ H0). simpl.
    rewrite (index_Some _ _ _ H1), Hp. simpl.
    rewrite (index_Some _ _ _ H2), Hq. simpl. reflexivity.
  - simpl. auto.
Qed.

(** Scenario C of the specification: "Start,,5005,,42". *)
Lemma await_response_start_witness :
  exists s',
    await_response (fresh_session [b "Start,,5005,,42"])
    = (Return (PList [PStr (u "Start"); PStr (u "5005"); PStr (u "42")]), s')
    /\ self s' = set_udp_password (Some 42) (set_game_port (Some 5005)
                   (self (fresh_session [b "Start,,5005,,42"])))
    /\ game_port (self s') = Some 5005
    /\ udp_password (self s') = Some 42.
Proof.
  exact (await_response_start (fresh_session [b "Start,,5005,,42"])
           (b "Start,,5005,,42") [] (u "Start,,5005,,42") (u "5005") (u "42")
           5005 42 eq_refl eq_refl eq_refl eq_refl eq_refl eq_refl eq_refl).
Defined.

(** C10. Only [ConnectionAbortedError] is handled: when the first field is
    "Start" and the second or third field is missing or is not an integer
    literal, [await_response] raises ([IndexError], [ValueError]); it returns
    neither [[False]] nor anything else. *)
Theorem malformed_start_raises `{python : Interpreter} (s : Session) (chunk : bytes)
    (inbox : list (exn + bytes)) (text : str) :
  tcp_inbox (net s) = inr chunk :: inbox ->
  decode (take 1000 chunk) = Return text ->
  split (u ",,") text !! 0%nat = Some (u "Start") ->
  (split (u ",,") text !! 1%nat = None ->
     (await_response s).1 = Raise IndexError)
  /\ (forall field1,
        split (u ",,") text !! 1%nat = Some field1 ->
        py_int field1 = Raise ValueError ->
        (await_response s).1 = Raise ValueError)
  /\ (forall field1 p,
        split (u ",,") text !! 1%nat = Some field1 -> py_int field1 = Return p ->
        split (u ",,") text !! 2%nat = None ->
        (await_response s).1 = Raise IndexError)
  /\ (forall field1 p field2,
        split (u ",,") text !! 1%nat = Some field1 -> py_int field1 = Return p ->
        split (u ",,") text !! 2%nat = Some field2 ->
        py_int field2 = Raise ValueError ->
        (await_response s).1 = Raise ValueError).
Proof.
  intros Hin Hdec H0.
  repeat split.
  - intros H1. unfold await_response. st_unfold. unfold tcp_recv.
    rewrite Hin, Hdec, (index_Some _ _ _ H0). simpl.
    rewrite (index_None _ _ H1). reflexivity.
  - intros f1 H1 Hp. unfold await_response. st_unfold. unfold tcp_recv.
    rewrite Hin, Hdec, (index_Some _ _ _ H0). simpl.
    rewrite (index_Some _ _ _ H1), Hp. reflexivity.
  - intros f1 p H1 Hp H2. unfold await_response. st_unfold. unfold tcp_recv.
    rewrite Hin, Hdec, (index_Some _ _ _ H0). simpl.
    rewrite (index_Some _ _ _ H1), Hp. simpl.
    rewrite (index_None _ _ H2). reflexivity.
  - intros f1 p f2 H1 Hp H2 Hq. unfold await_response. st_unfold. unfold tcp_recv.
    rewrite Hin, Hdec, (index_Some _ _ _ H0). simpl.
    rewrite (index_Some _ _ _ H1), Hp. simpl.
    rewrite (index_Some _ _ _ H2), Hq. reflexivity.
Qed.

(** The two messages of the claim: "Start,,abc,,42" and "Start,,5005". *)
Lemma malformed_start_raises_witness :
  (await_response (fresh_session [b "Start,,abc,,42"])).1 = Raise ValueError
  /\ (await_response (fresh_session [b "Start,,5005"])).1 = Raise IndexError.
Proof.
  split.
  - exact (proj1 (proj2 (malformed_start_raises
             (fresh_session [b "Start,,abc,,42"]) (b "Start,,abc,,42") []
             (u "Start,,abc,,42") eq_refl eq_refl eq_refl))
             (u "abc") eq_refl eq_refl).
  - exact (proj1 (proj2 (proj2 (malformed_start_raises
             (fresh_session [b "Start,,5005"]) (b "Start,,5005") []
             (u "Start,,5005") eq_refl eq_refl eq_refl)))
             (u "5005") 5005 eq_refl eq_refl eq_refl).
Defined.

(** *** [login] *)

(** C4. Whatever the mode and the reply, the reply is decoded by the grammar
    of the mode.  The exchange takes place: the session is connected or the
    connection attempt succeeds, the message is sent, and [reply] is what
    [recv(100)] hands over. *)
Theorem login_reply_grammar (m : mode) (room_name username : str) (s : Session)
    (message chunk : bytes) (inbox : list (exn + bytes)) :
  connected (self s) = true
  \/ (valid_port (port (self s)) = true /\ tcp_connected (net s) = false
      /\ head (connect_script (net s)) = Some None) ->
  encode (mode_str m ++ u ",," ++ room_name ++ u ",," ++ username) = Return message ->
  (forall e, head (tcp_send_script (net s)) <> Some (Some e)) ->
  tcp_inbox (net s) = inr chunk :: inbox ->
  (login (mode_str m) room_name username s).1
  = Return (let '(ok, r) := reply_grammar m (take 100 chunk) in (ok, reason_str r)).
Proof.
  intros Hconn Henc Hsend Hin.
  destruct s as [[sv pt c un pw gp] [tc cs ss ti us ui ts uss]].
  simpl in Hconn, Hsend, Hin. subst ti.
  assert (Hgrammar : forall response : bytes,
            (if str_eqb (mode_str m) (u "create")
             then if bytes_eqb response (b "Rename") then (false, u "rename")
                  else if bytes_eqb response (b "Done") then (true, u "created")
                  else (false, u "invalid")
             else if bytes_eqb response (b "Missing") then (false, u "missing")
                  else if bytes_eqb response (b "Full") then (false, u "full")
                  else (true, u "joined"))
            = (let '(ok, r) := reply_grammar m response in (ok, reason_str r))).
  { intros response. unfold bytes_eqb, reply_grammar.
    destruct m; simpl; repeat (case_bool_decide; simpl; try reflexivity). }
  rewrite <- Hgrammar.
  unfold login. st_unfold. simpl. simpl in Henc.
  assert (Hss : ss = [] \/ exists script, ss = None :: script).
  { destruct ss as [|[e|] script]; eauto. exfalso. apply (Hsend e). reflexivity. }
  destruct Hconn as [-> | (Hport & -> & Hscript)].
  - simpl. rewrite Henc. unfold tcp_send, tcp_recv. simpl.
    destruct Hss as [-> | [script ->]]; simpl;
      repeat (destruct (str_eqb _ _) || destruct (bytes_eqb _ _)); reflexivity.
  - destruct c; simpl.
    + rewrite Henc. unfold tcp_send, tcp_recv. simpl.
      destruct Hss as [-> | [script ->]]; simpl;
        repeat (destruct (str_eqb _ _) || destruct (bytes_eqb _ _)); reflexivity.
    + unfold connect. st_unfold. unfold tcp_connect. simpl. rewrite Hport. simpl.
      destruct cs as [|[e|] script']; try discriminate. simpl.
      rewrite Henc. unfold tcp_send, tcp_recv. simpl.
      destruct Hss as [-> | [script ->]]; simpl;
        repeat (destruct (str_eqb _ _) || destruct (bytes_eqb _ _)); reflexivity.
Qed.

(** Scenarios A and B of the specification: [login("create", "room1",
    "alice")] on a fresh session, the peer replying [b"Done"] and
    [b"Rename"]. *)
Lemma login_reply_grammar_witness :
  (login (u "create") (u "room1") (u "alice") (fresh_session [b "Done"])).1
  = Return (true, u "created")
  /\ (login (u "create") (u "room1") (u "alice") (fresh_session [b "Rename"])).1
     = Return (false, u "rename").
Proof.
  split.
  - apply (login_reply_grammar Create (u "room1") (u "alice")
             (fresh_session [b "Done"]) (b "create,,room1,,alice") (b "Done") []).
    + right. repeat split; reflexivity.
    + reflexivity.
    + intros e. discriminate.
    + reflexivity.
  - apply (login_reply_grammar Create (u "room1") (u "alice")
             (fresh_session [b "Rename"]) (b "create,,room1,,alice") (b "Rename") []).
    + right. repeat split; reflexivity.
    + reflexivity.
    + intros e. discriminate.
    + reflexivity.
Defined.

(** *** [connect] *)

Lemma connect_on_connected_socket (s : Session) :
  valid_port (port (self s)) = true -> tcp_connected (net s) = true ->
  connect s = (Raise (OSError EISCONN), s).
Proof.
  intros Hport Htcp. unfold connect. st_unfold. unfold tcp_connect. simpl.
  rewrite Hport, Htcp. reflexivity.
Qed.

(** [login] never touches the connection of a session whose [connected]
    flag is set. *)
Lemma login_keeps_connection (entry room_name user : str) (s : Session) :
  connected (self s) = true ->
  let s' := (login entry room_name user s).2 in
  connected (self s') = true
  /\ tcp_connected (net s') = tcp_connected (net s)
  /\ connect_script (net s') = connect_script (net s).
Proof.
  intros Hc.
  destruct s as [[sv pt c un pw gp] [tc cs ss ti us ui ts uss]].
  simpl in Hc. subst c.
  unfold login. st_unfold. simpl.
  destruct (encode _) as [message|e|]; simpl; auto.
  unfold tcp_send, tcp_recv. simpl.
  destruct ss as [|[e|] script]; simpl; auto;
    destruct ti as [|[e|chunk] inbox]; simpl; auto;
    repeat (destruct (str_eqb _ _) || destruct (bytes_eqb _ _)); simpl; auto.
Qed.

(** With the [connected] flag set, [login] is the exchange alone: no call of
    [connect] comes before it. *)
Lemma login_connected (entry room_name user : str) (s : Session) :
  connected (self s) = true ->
  login entry room_name user s
  = exchange entry room_name user
      (mkSession (set_username (Some user) (self s)) (net s)).
Proof.
  intros Hc. unfold login, exchange. st_unfold. simpl. rewrite Hc. reflexivity.
Qed.

(** C8, as the code has it. On a session that is already connected
    [connect] calls the socket again and the socket's [OSError] (EISCONN)
    escapes, the session staying as it was, connected; it is [login] that
    does not connect twice: with the [connected] flag set it makes no
    connection attempt, the whole call being the exchange of the message and
    the reply on the session as it is (so that, when the message can be
    encoded and the socket accepts it, the message is sent), and the
    connection is left as it was. *)
Theorem connect_once_through_login (s : Session) (entry room_name user : str) :
  connected (self s) = true -> tcp_connected (net s) = true ->
  valid_port (port (self s)) = true ->
  connect s = (Raise (OSError EISCONN), s)
  /\ login entry room_name user s
     = exchange entry room_name user
         (mkSession (set_username (Some user) (self s)) (net s))
  /\ (forall message : bytes,
        encode (entry ++ u ",," ++ room_name ++ u ",," ++ user) = Return message ->
        (forall e, head (tcp_send_script (net s)) <> Some (Some e)) ->
        tcp_sent (net (login entry room_name user s).2) = tcp_sent (net s) ++ [message])
  /\ (let s' := (login entry room_name user s).2 in
      connected (self s') = true
      /\ tcp_connected (net s') = true
      /\ connect_script (net s') = connect_script (net s)).
Proof.
  intros Hc Htcp Hport. split; [|split; [|split]].
  - apply connect_on_connected_socket; assumption.
  - apply login_connected, Hc.
  - intros message Henc Hsend. rewrite (login_connected _ _ _ _ Hc).
    destruct s as [[sv pt c un pw gp] [tc cs ss ti us ui ts uss]].
    unfold exchange. st_unfold. rewrite Henc. unfold tcp_send, tcp_recv. simpl.
    simpl in Hsend.
    destruct ss as [|[e|] script]; simpl;
      try (exfalso; apply (Hsend e); reflexivity);
      destruct ti as [|[e|chunk] inbox]; simpl; auto;
      repeat (destruct (str_eqb _ _) || destruct (bytes_eqb _ _)); reflexivity.
  - destruct (login_keeps_connection entry room_name user s Hc) as (H1 & H2 & H3).
    cbv zeta. rewrite H2, Htcp in *. auto.
Qed.

Lemma connect_once_through_login_witness :
  let s := active_session [] in
  connect s = (Raise (OSError EISCONN), s)
  /\ login (u "join") (u "game3") (u "Pancho") s
     = exchange (u "join") (u "game3") (u "Pancho")
         (mkSession (set_username (Some (u "Pancho")) (self s)) (net s))
  /\ tcp_sent (net (login (u "join") (u "game3") (u "Pancho") s).2)
     = [b "join,,game3,,Pancho"]
  /\ (let s' := (login (u "join") (u "game3") (u "Pancho") s).2 in
      connected (self s') = true
      /\ tcp_connected (net s') = true
      /\ connect_script (net s') = connect_script (net s)).
Proof.
  destruct (connect_once_through_login (active_session []) (u "join") (u "game3")
              (u "Pancho") eq_refl eq_refl eq_refl) as (H1 & H2 & H3 & H4).
  split; [exact H1|]. split; [exact H2|]. split; [|exact H4].
  apply (H3 (b "join,,game3,,Pancho")).
  - reflexivity.
  - intros e. discriminate.
Defined.

(** C8 as stated fails: after a first successful [connect] the session is
    connected, and a second [connect] is not a no-op, it raises. *)
Lemma connect_twice_raises :
  let s1 := (connect (fresh_session [])).2 in
  (connect (fresh_session [])).1 = Return true
  /\ connected (self s1) = true
  /\ (connect s1).1 = Raise (OSError EISCONN)
  /\ (connect s1).1 <> Return true.
Proof. repeat split. discriminate. Qed.

(** *** [transport] *)


(** *** The bridge loop *)

(** The [for] loop of [networking]: [k] entries are taken from the front of
    [forward]; with fewer than [k] entries in the queue, the loop empties it
    and waits. *)
Lemma drain_spec (k : nat) (st : Bridge) :
  for_range_nat k (forward_get;; mret tt) st
  = if decide (k <= length (forward st))%nat
    then (Return tt, mkBridge (drop k (forward st)) (feedback st) (session st))
    else (Blocks, mkBridge [] (feedback st) (session st)).
Proof.
  revert st. induction k as [|k IH]; intros [q fb s]; simpl.
  - rewrite drop_0. reflexivity.
  - st_unfold. unfold forward_get at 1. simpl.
    destruct q as [|x q]; simpl.
    + reflexivity.
    + specialize (IH (mkBridge q fb s)). unfold mbind, mret, ST_bind, ST_ret in IH.
      rewrite IH. simpl.
      destruct (decide (k <= length q)%nat), (decide (S k <= S (length q))%nat);
        try reflexivity; lia.
Qed.

(** One turn of the loop: all but the last two entries are dropped, the
    older of these two is handed to [transport], and the answer, if there is
    one, is appended to [feedback]. *)
Lemma networking_cycle_unfold (st : Bridge) :
  networking_cycle st
  = match drop (length (forward st) - 2) (forward st) with
    | [] => (Blocks, st)
    | x :: q' =>
        let '(r, s') := transport x (session st) in
        match r with
        | Return answer => (Return tt, mkBridge q' (feedback st ++ [answer]) s')
        | Raise e => (Raise e, mkBridge q' (feedback st) s')
        | Blocks => (Blocks, mkBridge q' (feedback st) s')
        end
    end.
Proof.
  destruct st as [q fb s].
  unfold networking_cycle, for_range.
  unfold mbind at 1. unfold ST_bind at 1. unfold forward_qsize at 1. cbv beta iota.
  unfold mbind at 1. unfold ST_bind at 1.
  replace (Z.to_nat (Z.of_nat (length (forward (mkBridge q fb s))) - 2))
    with (length q - 2)%nat by (simpl; lia).
  rewrite drain_spec. simpl forward. simpl feedback. simpl session.
  destruct (decide (length q - 2 <= length q)%nat) as [_|Hno]; [|lia].
  st_unfold. unfold forward_get. simpl.
  destruct (drop (length q - 2) q) as [|x q'] eqn:Hq.
  - apply (f_equal length) in Hq. rewrite length_drop in Hq. simpl in Hq.
    assert (q = []) as -> by (destruct q; simpl in *; [reflexivity | lia]).
    reflexivity.
  - unfold on_udp. simpl.
    destruct (transport x s) as [[answer|e|] s']; reflexivity.
Qed.




(** On [busy_bridge] the cycle sends the third position and keeps the
    fourth. *)
Example networking_cycle_demo :
  let st' := (networking_cycle busy_bridge).2 in
  forward st' = [position 4 4]
  /\ udp_sent (net (session st'))
     = [(datagram_of ([PInt 42; PStr (u "Pancho")] ++ position 3 3),
         (u "localhost", 5005))]
  /\ feedback st' = [(true, Some [PList [PInt 0; PInt 10; PInt 20; PInt 7]])].
Proof. vm_compute. repeat split. Qed.

(** An exception of [transport] is caught nowhere in [networking]. *)
Lemma networking_raise (st : Bridge) (x : list pyval) (e : exn) (cycles : nat) :
  forward st !! (length (forward st) - 2)%nat = Some x ->
  (transport x (session st)).1 = Raise e ->
  exists st',
    networking (S cycles) st = (Raise e, st')
    /\ feedback st' = feedback st
    /\ session st' = (transport x (session st)).2.
Proof.
  intros Hx He. simpl. unfold mbind, ST_bind.
  rewrite networking_cycle_unfold.
  destruct (drop (length (forward st) - 2) (forward st)) as [|x' q'] eqn:Hq.
  - apply lookup_lt_Some in Hx. apply (f_equal length) in Hq.
    rewrite length_drop in Hq. simpl in Hq. lia.
  - assert (x' = x) as ->.
    { pose proof (lookup_drop (forward st) (length (forward st) - 2) 0) as Hl.
      rewrite Hq, Nat.add_0_r, Hx in Hl. simpl in Hl. congruence. }
    destruct (transport x (session st)) as [[answer|e'|] s']; simpl in He;
      try discriminate.
    injection He as ->. eexists. repeat split.
Qed.

Lemma transport_socket_failure (game_data : list pyval) (s : Session) (w : bytes)
    (p : Z) (e : exn) :
  dumps (envelope (self s) game_data) = Return w ->
  game_port (self s) = Some p -> valid_port p = true ->
  socket_failure s e ->
  (transport game_data s).1 = Raise e.
Proof.
  intros Hw Hp Hvalid Hfail.
  destruct s as [[sv pt c un pw gp] [tc cs ss ti us ui ts uss]].
  simpl in *. subst gp.
  unfold transport. st_unfold. simpl. rewrite Hw. simpl.
  unfold udp_sendto. simpl. rewrite Hvalid. simpl.
  destruct Hfail as [Hsend | [Hsend Hrecv]].
  - destruct us as [|[e'|] script]; simpl in Hsend; try discriminate.
    injection Hsend as ->. reflexivity.
  - unfold socket_failure in *. simpl in *.
    destruct ui as [|[e'|d] inbox]; simpl in Hrecv; try discriminate.
    injection Hrecv as ->.
    destruct us as [|[e'|] script]; simpl; try reflexivity.
    exfalso. apply (Hsend e'). reflexivity.
Qed.

(** C7, as the code has it. A cycle whose datagram send or receive fails at
    the socket ends the loop: the error leaves [transport] and [networking]
    uncaught, whatever the number of turns the loop is watched for; nothing
    is put on [feedback] for that cycle, and the sockets stay as that
    cycle's [transport] left them: no later cycle runs. *)
Theorem networking_socket_error_escapes (st : Bridge) (x : list pyval) (w : bytes)
    (p : Z) (e : exn) (cycles : nat) :
  forward st !! (length (forward st) - 2)%nat = Some x ->
  dumps (envelope (self (session st)) x) = Return w ->
  game_port (self (session st)) = Some p -> valid_port p = true ->
  socket_failure (session st) e ->
  exists st',
    networking (S cycles) st = (Raise e, st')
    /\ feedback st' = feedback st
    /\ session st' = (transport x (session st)).2.
Proof.
  intros Hx Hw Hp Hvalid Hfail.
  apply (networking_raise st x e cycles Hx).
  eapply transport_socket_failure; eassumption.
Qed.

Lemma networking_socket_error_escapes_witness :
  exists st',
    networking 2 failing_bridge = (Raise ConnectionResetError, st')
    /\ feedback st' = feedback failing_bridge
    /\ session st' = (transport (position 1 1) (session failing_bridge)).2.
Proof.
  apply (networking_socket_error_escapes failing_bridge (position 1 1)
           (pickled (envelope (self (session failing_bridge)) (position 1 1)))
           5005 ConnectionResetError 1).
  - reflexivity.
  - vm_compute. reflexivity.
  - reflexivity.
  - reflexivity.
  - right. split.
    + intros e'. discriminate.
    + reflexivity.
Defined.

(** C7 as stated fails: the first cycle of [failing_bridge] meets a receive
    error; the loop, watched for two turns, ends there with the error: the
    second position is never sent and the second answer never read. *)
Lemma networking_dies_on_socket_error :
  let st' := (networking 2 failing_bridge).2 in
  (networking 2 failing_bridge).1 = Raise ConnectionResetError
  /\ (networking 2 failing_bridge).1 <> Return tt
  /\ feedback st' = []
  /\ forward st' = [position 2 2]
  /\ length (udp_sent (net (session st'))) = 1%nat
  /\ udp_inbox (net (session st'))
     = [inr (datagram_of [PInt 1; PInt 30; PInt 40; PInt 8])].
Proof. vm_compute. repeat split. discriminate. Qed.

(** *** The feedback queue *)

(** A cycle that completes appends exactly one answer to [feedback]. *)
Lemma networking_cycle_publishes (st st1 : Bridge) :
  networking_cycle st = (Return tt, st1) ->
  exists answer, feedback st1 = feedback st ++ [answer].
Proof.
  rewrite networking_cycle_unfold.
  destruct (drop _ _) as [|x q']; [discriminate|].
  destruct (transport x (session st)) as [[answer|e|] s']; try discriminate.
  intros [= <-]. exists answer. reflexivity.
Qed.

(** C2, as the code has it. [feedback] is a first-in first-out queue: two
    successive cycles that both publish, with no poll in between, leave both
    answers queued in the order of their publication; the read in [stream]
    then returns the first cycle's answer and the second cycle's answer
    stays for the poll after. *)
Theorem feedback_is_fifo (st st1 st2 : Bridge) (pos : list pyval) :
  networking_cycle st = (Return tt, st1) ->
  networking_cycle st1 = (Return tt, st2) ->
  exists (answer1 answer2 : result),
    feedback st1 = feedback st ++ [answer1]
    /\ feedback st2 = feedback st ++ [answer1; answer2]
    /\ (feedback st = [] ->
        exists st3 : Bridge,
          stream pos st2 = (Return (Some answer1), st3)
          /\ feedback st3 = [answer2]).
Proof.
  intros H1 H2.
  destruct (networking_cycle_publishes _ _ H1) as [a1 Ha1].
  destruct (networking_cycle_publishes _ _ H2) as [a2 Ha2].
  rewrite Ha1, <- app_assoc in Ha2. simpl in Ha2.
  exists a1, a2. repeat split; try assumption.
  intros Hempty. rewrite Hempty in Ha2. simpl in Ha2.
  eexists. split.
  - unfold stream. st_unfold. unfold forward_put, feedback_empty, feedback_get.
    simpl. rewrite Ha2. simpl. reflexivity.
  - reflexivity.
Qed.

Lemma feedback_is_fifo_witness :
  exists (answer1 answer2 : result),
    feedback (networking 1 busy_bridge).2 = feedback busy_bridge ++ [answer1]
    /\ feedback (networking 2 busy_bridge).2
       = feedback busy_bridge ++ [answer1; answer2]
    /\ (feedback busy_bridge = [] ->
        exists st3 : Bridge,
          stream (position 5 5) (networking 2 busy_bridge).2
          = (Return (Some answer1), st3)
          /\ feedback st3 = [answer2]).
Proof.
  apply (feedback_is_fifo busy_bridge (networking 1 busy_bridge).2
           (networking 2 busy_bridge).2 (position 5 5)).
  - vm_compute. reflexivity.
  - vm_compute. reflexivity.
Defined.

(** C2 as stated fails: after two cycles of [busy_bridge] without a poll,
    both answers are in [feedback]; the poll of [stream] sees the first
    cycle's answer, not the second's, which it leaves in the queue. *)
Lemma feedback_not_overwritten :
  let answer1 := (true, Some [PList [PInt 0; PInt 10; PInt 20; PInt 7]]) in
  let answer2 := (true, Some [PList [PInt 1; PInt 30; PInt 40; PInt 8]]) in
  let st2 := (networking 2 busy_bridge).2 in
  (networking 2 busy_bridge).1 = Return tt
  /\ feedback st2 = [answer1; answer2]
  /\ (stream (position 5 5) st2).1 = Return (Some answer1)
  /\ (stream (position 5 5) st2).1 <> Return (Some answer2)
  /\ feedback (stream (position 5 5) st2).2 = [answer2].
Proof. vm_compute. repeat split. discriminate. Qed.

(** *** [split], [join] and the two delimiters *)

Section SplitFacts.
Context {A : Type} `{EqDecision A}.
Implicit Types sep s t : list A.

Lemma starts_with_app sep t : starts_with sep (sep ++ t) = true.
Proof.
  induction sep as [|x sep IH]; simpl; [reflexivity|].
  rewrite bool_decide_eq_true_2 by reflexivity. exact IH.
Qed.

Lemma starts_with_true sep s :
  starts_with sep s = true -> s = sep ++ drop (length sep) s.
Proof.
  revert s. induction sep as [|x sep IH]; intros [|y s]; simpl; try discriminate.
  - reflexivity.
  - reflexivity.
  - intros H0. apply andb_true_iff in H0 as [Hxy Hrest].
    apply bool_decide_eq_true_1 in Hxy. subst y. f_equal. apply IH, Hrest.
Qed.

Lemma find_sep_Some sep s before after :
  find_sep sep s = Some (before, after) -> s = before ++ sep ++ after.
Proof.
  revert before. induction s as [|c s IH]; intros before; simpl.
  - destruct (starts_with sep []) eqn:Hs; [|discriminate].
    intros [= <- <-]. apply starts_with_true in Hs. exact Hs.
  - destruct (starts_with sep (c :: s)) eqn:Hs.
    + intros [= <- <-]. apply starts_with_true in Hs. exact Hs.
    + destruct (find_sep sep s) as [[x y]|] eqn:Hf; [|discriminate].
      intros [= <- <-]. simpl. f_equal. apply IH. reflexivity.
Qed.

Lemma find_sep_unfold sep s :
  find_sep sep s
  = if starts_with sep s then Some ([], drop (length sep) s)
    else match s with
         | [] => None
         | c :: s' =>
             match find_sep sep s' with
             | Some (before, after) => Some (c :: before, after)
             | None => None
             end
         end.
Proof. destruct s; reflexivity. Qed.

Lemma find_sep_occurs sep s : occurs sep s -> find_sep sep s <> None.
Proof.
  intros (before & after & ->).
  induction before as [|c before IH].
  - rewrite find_sep_unfold. simpl app. rewrite starts_with_app. discriminate.
  - rewrite find_sep_unfold.
    destruct (starts_with sep ((c :: before) ++ sep ++ after)); [discriminate|].
    cbn [app].
    destruct (find_sep sep (before ++ sep ++ after)) as [[x y]|]; [discriminate|].
    exact IH.
Qed.

(** No occurrence: nothing to cut. *)
Lemma find_sep_None sep s : ~ occurs sep s -> find_sep sep s = None.
Proof.
  intros Hno. destruct (find_sep sep s) as [[x y]|] eqn:Hf; [|reflexivity].
  exfalso. apply Hno. exists x, y. apply find_sep_Some, Hf.
Qed.

Lemma split_no_sep sep s : ~ occurs sep s -> split sep s = [s].
Proof.
  intros Hno. unfold split. destruct (length s); simpl; [reflexivity|].
  rewrite find_sep_None by exact Hno. reflexivity.
Qed.

Lemma split_fuel_S fuel sep s :
  split_fuel (S fuel) sep s
  = match find_sep sep s with
    | None => [s]
    | Some (before, after) => before :: split_fuel fuel sep after
    end.
Proof. reflexivity. Qed.

Lemma join_cons_cons sep (p q : list A) (Q : list (list A)) :
  join sep (p :: q :: Q) = p ++ sep ++ join sep (q :: Q).
Proof. reflexivity. Qed.

(** The search skips a prefix none of whose positions starts a match. *)
Lemma find_sep_skip sep (a t : list A) :
  (forall a1 a2, a = a1 ++ a2 -> a2 <> [] -> starts_with sep (a2 ++ t) = false) ->
  find_sep sep (a ++ t)
  = match find_sep sep t with
    | Some (x, y) => Some (a ++ x, y)
    | None => None
    end.
Proof.
  induction a as [|c a IH]; intros Hskip; simpl.
  - destruct (find_sep sep t) as [[x y]|]; reflexivity.
  - assert (Hc : starts_with sep (c :: a ++ t) = false).
    { apply (Hskip [] (c :: a)); [reflexivity | discriminate]. }
    rewrite Hc. rewrite IH.
    + destruct (find_sep sep t) as [[x y]|]; reflexivity.
    + intros a1 a2 -> Ha2. apply (Hskip (c :: a1) a2); [reflexivity | exact Ha2].
Qed.

(** The fuel of [split] is enough: more of it changes nothing. *)
Lemma split_fuel_enough sep (fuel1 fuel2 : nat) s :
  sep <> [] -> (length s <= fuel1)%nat -> (length s <= fuel2)%nat ->
  split_fuel fuel1 sep s = split_fuel fuel2 sep s.
Proof.
  intros Hsep. revert fuel2 s.
  assert (Hnil : find_sep sep [] = None).
  { destruct sep; [congruence | reflexivity]. }
  induction fuel1 as [|fuel1 IH]; intros fuel2 s H1 H2.
  - destruct s; [|simpl in H1; lia].
    destruct fuel2; [reflexivity|]. rewrite split_fuel_S, Hnil. reflexivity.
  - destruct fuel2 as [|fuel2].
    + destruct s; [|simpl in H2; lia]. rewrite split_fuel_S, Hnil. reflexivity.
    + rewrite !split_fuel_S.
      destruct (find_sep sep s) as [[before after]|] eqn:Hf; [|reflexivity].
      f_equal. apply find_sep_Some in Hf. subst s.
      rewrite !length_app in H1, H2.
      assert (0 < length sep)%nat by (destruct sep; [congruence | simpl; lia]).
      apply IH; lia.
Qed.
End SplitFacts.

Lemma starts_with_outer_inner (s : bytes) :
  starts_with INNER_DELIM s = false -> starts_with OUTER_DELIM s = false.
Proof.
  destruct s as [|c [|d s]]; simpl; try reflexivity.
  - intros _. destruct (bool_decide _); reflexivity.
  - destruct (bool_decide ("|"%byte = c)), (bool_decide ("|"%byte = d));
      simpl; intros; try reflexivity; discriminate.
Qed.

(** Inside a clean payload no position starts a delimiter, whatever
    follows the payload. *)
Lemma clean_suffix (p a1 a2 t : bytes) :
  clean p -> p = a1 ++ a2 -> a2 <> [] -> starts_with INNER_DELIM (a2 ++ t) = false.
Proof.
  intros [Hno Hlast] -> Ha2.
  destruct a2 as [|c [|d a3]]; [congruence| |]; simpl.
  - destruct (decide ("|"%byte = c)) as [<-|Hc].
    + exfalso. apply Hlast. rewrite last_snoc. reflexivity.
    + rewrite bool_decide_eq_false_2 by exact Hc. reflexivity.
  - destruct (decide ("|"%byte = c)) as [<-|Hc];
      [|rewrite (bool_decide_eq_false_2 _ Hc); reflexivity].
    destruct (decide ("|"%byte = d)) as [<-|Hd];
      [|rewrite (bool_decide_eq_false_2 _ Hd), andb_false_r; reflexivity].
    exfalso. apply Hno. exists a1, a3. reflexivity.
Qed.

Lemma clean_nonempty_start (q t : bytes) :
  clean q -> q <> [] -> starts_with INNER_DELIM (q ++ t) = false.
Proof. intros Hq Hne. apply (clean_suffix q [] q t Hq); [reflexivity | exact Hne]. Qed.

(** The inner cut after a clean payload is the one that [join] put there. *)
Lemma find_inner_after_clean (p rest : bytes) :
  clean p -> find_sep INNER_DELIM (p ++ INNER_DELIM ++ rest) = Some (p, rest).
Proof.
  intros Hp. rewrite find_sep_skip.
  - change (find_sep INNER_DELIM (INNER_DELIM ++ rest)) with (Some (@nil byte, rest)).
    cbv beta iota. rewrite app_nil_r. reflexivity.
  - intros a1 a2 E Ha2. apply (clean_suffix p a1 a2 _ Hp E Ha2).
Qed.

Lemma split_join_clean (P : list bytes) :
  P <> [] -> Forall clean P ->
  forall fuel : nat,
    (length (join INNER_DELIM P) <= fuel)%nat ->
    split_fuel fuel INNER_DELIM (join INNER_DELIM P) = P.
Proof.
  induction P as [|p [|q Q] IH]; intros Hne Hclean fuel Hfuel; [congruence| |].
  - simpl. apply Forall_inv in Hclean. destruct Hclean as [Hno _].
    destruct fuel; simpl; [reflexivity|].
    rewrite find_sep_None by exact Hno. reflexivity.
  - rewrite join_cons_cons in *.
    rewrite !length_app in Hfuel. change (length INNER_DELIM) with 2%nat in Hfuel.
    destruct fuel as [|fuel]; [lia|]. rewrite split_fuel_S.
    rewrite find_inner_after_clean by (apply (Forall_inv Hclean)).
    f_equal. apply IH.
    + discriminate.
    + apply (Forall_inv_tail Hclean).
    + lia.
Qed.

(** The outer cut of a packed datagram is the delimiter that [pack]
    appended. *)
Lemma find_outer_after_clean (P : list bytes) :
  P <> [] -> Forall clean P -> Forall (fun q => q <> []) (tail P) ->
  find_sep OUTER_DELIM (join INNER_DELIM P ++ OUTER_DELIM)
  = Some (join INNER_DELIM P, []).
Proof.
  induction P as [|p [|q Q] IH]; intros Hne Hclean Hfull; [congruence| |].
  - simpl join. rewrite find_sep_skip.
    + change (find_sep OUTER_DELIM OUTER_DELIM) with (Some (@nil byte, @nil byte)).
      cbv beta iota. rewrite app_nil_r. reflexivity.
    + intros a1 a2 E Ha2. apply starts_with_outer_inner.
      apply (clean_suffix p a1 a2 _ (Forall_inv Hclean) E Ha2).
  - rewrite join_cons_cons.
    set (J := join INNER_DELIM (q :: Q)) in *.
    assert (Hstart : starts_with INNER_DELIM (J ++ OUTER_DELIM) = false).
    { unfold J. destruct Q as [|r Q].
      - simpl join. apply clean_nonempty_start.
        + apply (Forall_inv (Forall_inv_tail Hclean)).
        + apply (Forall_inv Hfull).
      - rewrite join_cons_cons.
        rewrite <- app_assoc. apply clean_nonempty_start.
        + apply (Forall_inv (Forall_inv_tail Hclean)).
        + apply (Forall_inv Hfull). }
    rewrite <- !app_assoc. rewrite find_sep_skip.
    + assert (Hinner : find_sep OUTER_DELIM (INNER_DELIM ++ J ++ OUTER_DELIM)
                       = match find_sep OUTER_DELIM (J ++ OUTER_DELIM) with
                         | Some (x, y) => Some (INNER_DELIM ++ x, y)
                         | None => None
                         end).
      { apply find_sep_skip. intros a1 a2 E Ha2.
        destruct a1 as [|c1 [|c2 [|c3 a1]]]; simpl in E.
        - subst a2. destruct (J ++ OUTER_DELIM) as [|c [|d s]]; simpl in *;
            try reflexivity.
          + rewrite andb_false_r. reflexivity.
          + rewrite Hstart. reflexivity.
        - injection E as <- <-. destruct (J ++ OUTER_DELIM) as [|c [|d s]];
            simpl in *; try reflexivity.
          + rewrite !andb_false_r. reflexivity.
          + destruct (bool_decide ("|"%byte = c)); simpl in *; [|reflexivity].
            rewrite andb_true_r in Hstart. rewrite Hstart. reflexivity.
        - injection E as <- <- <-. congruence.
        - discriminate E. }
      rewrite Hinner, IH.
      * reflexivity.
      * discriminate.
      * apply (Forall_inv_tail Hclean).
      * apply (Forall_inv_tail Hfull).
    + intros a1 a2 E Ha2. apply starts_with_outer_inner.
      apply (clean_suffix p a1 a2 _ (Forall_inv Hclean) E Ha2).
Qed.

Lemma not_occurs {A : Type} `{EqDecision A} (sep s : list A) :
  find_sep sep s = None -> ~ occurs sep s.
Proof. intros Hf Ho. apply (find_sep_occurs sep s Ho), Hf. Qed.

Lemma split_outer_packed (J : bytes) :
  find_sep OUTER_DELIM (J ++ OUTER_DELIM) = Some (J, []) ->
  split OUTER_DELIM (J ++ OUTER_DELIM) = [J; []].
Proof.
  intros Hf. unfold split. rewrite length_app. change (length OUTER_DELIM) with 4%nat.
  replace (length J + 4)%nat with (S (length J + 3)) by lia.
  rewrite split_fuel_S, Hf. f_equal.
  destruct (length J + 3)%nat; reflexivity.
Qed.

(** C6, as the code has it. Packing then unpacking gives the payloads back,
    in order, when no payload contains [INNER_DELIM] (hence none contains
    [OUTER_DELIM]), none ends with the byte [b"|"], and all but the first are
    non-empty. *)
Theorem unpack_pack_clean (P : list bytes) :
  P <> [] -> Forall clean P -> Forall (fun q => q <> []) (tail P) ->
  unpack (pack P) = Some P.
Proof.
  intros Hne Hclean Hfull. unfold unpack, pack.
  rewrite split_outer_packed by (apply find_outer_after_clean; assumption).
  simpl. f_equal. unfold split. apply split_join_clean; auto.
Qed.

Lemma unpack_pack_clean_witness :
  unpack (pack [b "ab"; b "|c"; b "d.e"]) = Some [b "ab"; b "|c"; b "d.e"].
Proof.
  apply (unpack_pack_clean [b "ab"; b "|c"; b "d.e"]).
  - discriminate.
  - repeat constructor; try (apply not_occurs; reflexivity); discriminate.
  - repeat constructor; discriminate.
Defined.

(** C6 as stated fails: the payload [b"a|"] contains neither delimiter, yet
    it comes back as [b"a"]. *)
Lemma unpack_pack_trailing_bar :
  [b "a|"] <> []
  /\ Forall (fun p => ~ occurs OUTER_DELIM p /\ ~ occurs INNER_DELIM p) [b "a|"]
  /\ unpack (pack [b "a|"]) = Some [b "a"]
  /\ unpack (pack [b "a|"]) <> Some [b "a|"].
Proof.
  split; [discriminate|]. split; [|split].
  - repeat constructor; apply not_occurs; reflexivity.
  - reflexivity.
  - discriminate.
Qed.

(** C3, as the code has it. [transport] answers [(False, None)] when the
    reply holds no [OUTER_DELIM] at all (the zero-length datagram is one such
    reply): that, and not an empty batch, is its "nothing new". *)
Theorem transport_no_delimiter (game_data : list pyval) (s : Session) (w : bytes)
    (p : Z) (datagram : bytes) (inbox : list (exn + bytes)) :
  dumps (envelope (self s) game_data) = Return w ->
  game_port (self s) = Some p -> valid_port p = true ->
  (forall e, head (udp_send_script (net s)) <> Some (Some e)) ->
  udp_inbox (net s) = inr datagram :: inbox ->
  ~ occurs OUTER_DELIM (take 2000 datagram) ->
  (transport game_data s).1 = Return (false, None).
Proof.
  intros Hw Hp Hvalid Hsend Hin Hno.
  destruct s as [[sv pt c un pw gp] [tc cs ss ti us ui ts uss]].
  simpl in *. subst gp ui.
  unfold transport. st_unfold. simpl. rewrite Hw. simpl.
  unfold udp_sendto, udp_recvfrom. simpl. rewrite Hvalid. simpl.
  destruct us as [|[e|] script]; simpl.
  - rewrite (split_no_sep _ _ Hno). reflexivity.
  - exfalso. apply (Hsend e). reflexivity.
  - rewrite (split_no_sep _ _ Hno). reflexivity.
Qed.

Lemma transport_no_delimiter_witness :
  (transport (position 1 1) (active_session [inr (b "")])).1 = Return (false, None).
Proof.
  apply (transport_no_delimiter (position 1 1) (active_session [inr (b "")])
           (pickled (envelope (self (active_session [inr (b "")])) (position 1 1)))
           5005 (b "") []).
  - vm_compute. reflexivity.
  - reflexivity.
  - reflexivity.
  - intros e. discriminate.
  - reflexivity.
  - apply not_occurs. reflexivity.
Defined.

(** C3 as stated fails: the datagram that packs zero payloads is
    [OUTER_DELIM] alone; [transport] then unpickles one empty payload, and
    [loads(b"")] raises [EOFError]. *)
Lemma transport_empty_batch_raises :
  pack [] = b "||||"
  /\ (transport (position 1 1) (active_session [inr (pack [])])).1 = Raise EOFError
  /\ (transport (position 1 1) (active_session [inr (pack [])])).1
     <> Return (false, None).
Proof. split; [reflexivity|]. split; [vm_compute; reflexivity | discriminate]. Qed.

(** *** Bytes and integers *)

Lemma Z_of_byte_of_Z (z : Z) : Z_of_byte (byte_of_Z z) = z mod 256.
Proof.
  unfold byte_of_Z, Z_of_byte.
  pose proof (Z.mod_pos_bound z 256 eq_refl) as Hm.
  destruct (Byte.of_N (Z.to_N (z mod 256))) as [x|] eqn:E.
  - apply Byte.to_of_N in E. rewrite E. lia.
  - apply Byte.of_N_None_iff in E. lia.
Qed.

Lemma Z_of_byte_of_Z_small (z : Z) : 0 <= z < 256 -> Z_of_byte (byte_of_Z z) = z.
Proof. intros Hz. rewrite Z_of_byte_of_Z. apply Z.mod_small, Hz. Qed.

Lemma length_pack_le (n : nat) (z : Z) : length (pack_le n z) = n.
Proof. revert z. induction n as [|n IH]; intros z; simpl; [reflexivity|]. f_equal. apply IH. Qed.

Lemma unpack_le_pack_le (n : nat) (z : Z) :
  unpack_le (pack_le n z) = z mod 256 ^ Z.of_nat n.
Proof.
  revert z. induction n as [|n IH]; intros z.
  - simpl. rewrite Z.mod_1_r. reflexivity.
  - cbn [pack_le unpack_le]. rewrite Z_of_byte_of_Z, IH.
    rewrite Nat2Z.inj_succ, Z.pow_succ_r by lia.
    rewrite Z.rem_mul_r by lia. reflexivity.
Qed.

Lemma unpack_le_pack_le_small (n : nat) (z : Z) :
  0 <= z < 256 ^ Z.of_nat n -> unpack_le (pack_le n z) = z.
Proof. intros Hz. rewrite unpack_le_pack_le. apply Z.mod_small, Hz. Qed.

Lemma pow_256 (n : Z) : 0 <= n -> 256 ^ n = 2 ^ (8 * n).
Proof. intros Hn. rewrite Z.pow_mul_r by lia. reflexivity. Qed.

(** Two's complement: [n] bytes hold the numbers from [-2^(8n-1)] up to
    [2^(8n-1) - 1]. *)
Lemma unpack_le_signed_pack_le (n : nat) (z : Z) :
  (0 < n)%nat -> - 2 ^ (8 * Z.of_nat n - 1) <= z < 2 ^ (8 * Z.of_nat n - 1) ->
  unpack_le_signed (pack_le n z) = z.
Proof.
  intros Hn Hz. unfold unpack_le_signed.
  rewrite length_pack_le, unpack_le_pack_le, pow_256 by lia.
  set (w := 8 * Z.of_nat n) in *.
  assert (Hw : 2 ^ w = 2 * 2 ^ (w - 1)).
  { replace w with (Z.succ (w - 1)) at 1 by lia. apply Z.pow_succ_r. lia. }
  assert (Hpos : 0 < 2 ^ (w - 1)) by (apply Z.pow_pos_nonneg; lia).
  destruct (Z.ltb_spec 0 w) as [_|]; [|lia]. simpl.
  destruct (Z.leb_spec (2 ^ (w - 1)) (z mod 2 ^ w)) as [Hhigh|Hlow].
  - destruct (Z.lt_ge_cases z 0) as [Hneg|Hnn].
    + rewrite <- (Z.mod_add z 1 (2 ^ w)) by lia.
      rewrite Z.mod_small by lia. lia.
    + rewrite Z.mod_small in Hhigh by lia. lia.
  - destruct (Z.lt_ge_cases z 0) as [Hneg|Hnn].
    + rewrite <- (Z.mod_add z 1 (2 ^ w)) in Hlow by lia.
      rewrite Z.mod_small in Hlow by lia. lia.
    + apply Z.mod_small. lia.
Qed.

Lemma unpack_be_pack_be (n : nat) (z : Z) :
  0 <= z < 256 ^ Z.of_nat n -> unpack_be (pack_be n z) = z.
Proof.
  intros Hz. unfold unpack_be, pack_be. rewrite rev_involutive.
  apply unpack_le_pack_le_small, Hz.
Qed.

Lemma removelast_pack_le (n : nat) (z : Z) :
  removelast (pack_le (S n) z) = pack_le n z.
Proof.
  revert z. induction n as [|n IH]; intros z; [reflexivity|].
  change (pack_le (S (S n)) z) with (byte_of_Z z :: pack_le (S n) (z / 256)).
  change (pack_le (S n) z) with (byte_of_Z z :: pack_le n (z / 256)).
  rewrite <- IH. reflexivity.
Qed.

Lemma nth_pack_le (n i : nat) (z : Z) (d : byte) :
  (i < n)%nat -> nth i (pack_le n z) d = byte_of_Z (z / 256 ^ Z.of_nat i).
Proof.
  revert i z. induction n as [|n IH]; intros i z Hi; [lia|].
  destruct i as [|i]; cbn [pack_le nth].
  - rewrite Z.div_1_r. reflexivity.
  - rewrite IH by lia. rewrite Nat2Z.inj_succ, Z.pow_succ_r by lia.
    rewrite Z.div_div by lia. reflexivity.
Qed.

Lemma last_pack_le (n : nat) (z : Z) :
  last (pack_le (S n) z) = Some (byte_of_Z (z / 256 ^ Z.of_nat n)).
Proof.
  revert z. induction n as [|n IH]; intros z.
  - simpl. rewrite Z.div_1_r. reflexivity.
  - change (pack_le (S (S n)) z) with (byte_of_Z z :: pack_le (S n) (z / 256)).
    change (pack_le (S n) (z / 256))
      with (byte_of_Z (z / 256) :: pack_le n (z / 256 / 256)).
    cbn [last]. change (byte_of_Z (z / 256) :: pack_le n (z / 256 / 256))
      with (pack_le (S n) (z / 256)).
    rewrite IH. rewrite Nat2Z.inj_succ, Z.pow_succ_r by lia.
    rewrite Z.div_div by lia. reflexivity.
Qed.

(** *** [encode_long] *)

Lemma bit_length_bound (z : Z) :
  z <> 0 ->
  let n := long_nbytes z in
  1 <= n /\ Z.abs z < 2 ^ (8 * n - 1).
Proof.
  intros Hz n. unfold long_nbytes in n.
  assert (Ha : 0 < Z.abs z) by lia.
  pose proof (Z.log2_spec _ Ha) as [_ Hup].
  pose proof (Z.log2_nonneg (Z.abs z)) as Hlog.
  assert (Hn : Z.log2 (Z.abs z) + 1 <= 8 * n - 1).
  { unfold n. pose proof (Z.div_mod (Z.log2 (Z.abs z) + 1) 8 ltac:(lia)).
    pose proof (Z.mod_pos_bound (Z.log2 (Z.abs z) + 1) 8 ltac:(lia)). lia. }
  split.
  - unfold n. pose proof (Z.div_pos (Z.log2 (Z.abs z) + 1) 8). lia.
  - eapply Z.lt_le_trans; [exact Hup|].
    apply Z.pow_le_mono_r; lia.
Qed.

Lemma length_encode_long (z : Z) : Z.of_nat (length (encode_long z)) <= long_nbytes z.
Proof.
  unfold encode_long.
  assert (H1 : 1 <= long_nbytes z).
  { unfold long_nbytes. pose proof (Z.log2_nonneg (Z.abs z)).
    pose proof (Z.div_pos (Z.log2 (Z.abs z) + 1) 8). lia. }
  destruct (z =? 0); [simpl; lia|].
  destruct (_ && _).
  - destruct (Z.to_nat (long_nbytes z)) as [|m] eqn:Em; [simpl; lia|].
    rewrite removelast_pack_le, length_pack_le. lia.
  - rewrite length_pack_le. lia.
Qed.

Lemma decode_encode_long (z : Z) : unpack_le_signed (encode_long z) = z.
Proof.
  unfold encode_long.
  destruct (Z.eqb_spec z 0) as [->|Hz]; [reflexivity|].
  destruct (bit_length_bound z Hz) as [Hn Hbound].
  set (n := long_nbytes z) in *.
  destruct (Z.to_nat n) as [|m] eqn:Em; [lia|].
  assert (Hm : n = Z.of_nat m + 1) by lia.
  assert (Hfull : unpack_le_signed (pack_le (S m) z) = z).
  { apply unpack_le_signed_pack_le; [lia|].
    replace (8 * Z.of_nat (S m)) with (8 * n) by lia. lia. }
  destruct (_ && _) eqn:Htrim; [|exact Hfull].
  apply andb_true_iff in Htrim as [Htrim Hsecond].
  apply andb_true_iff in Htrim as [Htrim Hlast].
  apply andb_true_iff in Htrim as [Hneg Hlen].
  apply Z.ltb_lt in Hneg. apply Nat.ltb_lt in Hlen. apply Z.leb_le in Hsecond.
  apply bool_decide_eq_true_1 in Hlast.
  rewrite removelast_pack_le.
  destruct m as [|m']; [lia|].
  rewrite last_pack_le in Hlast. injection Hlast as Hlast.
  apply (f_equal Z_of_byte) in Hlast. rewrite Z_of_byte_of_Z in Hlast.
  change (Z_of_byte "255"%byte) with 255 in Hlast.
  replace (S (S m') - 2)%nat with m' in Hsecond by lia.
  rewrite nth_pack_le, Z_of_byte_of_Z in Hsecond by lia.
  apply unpack_le_signed_pack_le; [lia|].
  split; [|lia].
  (* [z] lies in [-K*256*128, 0) with K = 256^m'; its top byte is 255 and the
     byte below has its high bit set *)
  set (K := 256 ^ Z.of_nat m') in *.
  assert (HK : 0 < K) by (apply Z.pow_pos_nonneg; lia).
  assert (HKS : 256 ^ Z.of_nat (S m') = 256 * K).
  { rewrite Nat2Z.inj_succ, Z.pow_succ_r by lia. reflexivity. }
  rewrite HKS in Hlast.
  assert (Hp : 2 ^ (8 * n - 1) = 128 * (256 * K)).
  { replace (8 * n - 1) with (7 + 8 * Z.of_nat (S m')) by lia.
    rewrite Z.pow_add_r, <- pow_256, HKS by lia. reflexivity. }
  assert (Hq : 2 ^ (8 * Z.of_nat (S m') - 1) = 128 * K).
  { replace (8 * Z.of_nat (S m') - 1) with (7 + 8 * Z.of_nat m') by lia.
    rewrite Z.pow_add_r, <- pow_256 by lia. reflexivity. }
  rewrite Hq. rewrite Hp in Hbound.
  assert (Htop : z / (256 * K) = -1).
  { assert (-128 <= z / (256 * K)) by (apply Z.div_le_lower_bound; lia).
    assert (z / (256 * K) < 0) by (apply Z.div_lt_upper_bound; lia).
    pose proof (Z.div_mod (z / (256 * K)) 256 ltac:(lia)).
    pose proof (Z.mod_pos_bound (z / (256 * K)) 256 ltac:(lia)).
    rewrite Hlast in *. lia. }
  assert (Hz1 : - (256 * K) <= z).
  { pose proof (Z.mul_div_le z (256 * K) ltac:(lia)). rewrite Htop in *. lia. }
  assert (Hsnd : -128 <= z / K).
  { assert (-256 <= z / K) by (apply Z.div_le_lower_bound; lia).
    assert (z / K < 0) by (apply Z.div_lt_upper_bound; lia).
    pose proof (Z.div_mod (z / K) 256 ltac:(lia)).
    pose proof (Z.mod_pos_bound (z / K) 256 ltac:(lia)).
    assert (z / K / 256 = -1).
    { rewrite Z.div_div by lia. rewrite (Z.mul_comm K 256). exact Htop. }
    lia. }
  pose proof (Z.mul_succ_div_gt z K HK) as Hgt.
  assert (K * (z / K) <= z) by (apply Z.mul_div_le; lia).
  nia.
Qed.

(** *** UTF-8 *)

(** Decides the comparisons of a goal one at a time, by arithmetic. *)
Ltac zcases :=
  repeat match goal with
    | |- context [Z.ltb ?a ?b] =>
        destruct (Z.ltb_spec a b); try (exfalso; Z.div_mod_to_equations; lia)
    | |- context [Z.leb ?a ?b] =>
        destruct (Z.leb_spec a b); try (exfalso; Z.div_mod_to_equations; lia)
    end.

Lemma utf8_decode_encode_char (sp : bool) (c : Z) (enc rest : bytes) :
  utf8_encode_char sp c = Some enc ->
  utf8_decode sp (enc ++ rest) = cons c <$> utf8_decode sp rest.
Proof.
  unfold utf8_encode_char.
  destruct (Z.ltb_spec c 0); [discriminate|].
  destruct (Z.ltb_spec c 0x80).
  { intros [= <-]. cbn [app utf8_decode]. rewrite Z_of_byte_of_Z_small by lia.
    zcases. reflexivity. }
  destruct (Z.ltb_spec c 0x800).
  { intros [= <-]. cbn [app utf8_decode].
    rewrite !Z_of_byte_of_Z_small by (Z.div_mod_to_equations; lia).
    unfold is_cont. zcases. cbn [andb].
    replace ((192 + c / 64 - 192) * 64 + (128 + c mod 64 - 128)) with c
      by (Z.div_mod_to_equations; lia).
    zcases. reflexivity. }
  destruct (Z.ltb_spec c 0x10000).
  { destruct (is_surrogate c && negb sp) eqn:Hs; [discriminate|].
    intros [= <-]. cbn [app utf8_decode].
    rewrite !Z_of_byte_of_Z_small by (Z.div_mod_to_equations; lia).
    unfold is_cont. zcases. cbn [andb].
    replace ((224 + c / 4096 - 224) * 4096 + (128 + c / 64 mod 64 - 128) * 64
             + (128 + c mod 64 - 128)) with c
      by (Z.div_mod_to_equations; lia).
    zcases. cbn [andb].
    destruct sp; cbn [orb]; [reflexivity|].
    rewrite andb_true_r in Hs. rewrite Hs. reflexivity. }
  destruct (Z.ltb_spec c 0x110000); [|discriminate].
  intros [= <-]. cbn [app utf8_decode].
  rewrite !Z_of_byte_of_Z_small by (Z.div_mod_to_equations; lia).
  unfold is_cont. zcases. cbn [andb].
  replace ((240 + c / 262144 - 240) * 262144 + (128 + c / 4096 mod 64 - 128) * 4096
           + (128 + c / 64 mod 64 - 128) * 64 + (128 + c mod 64 - 128)) with c
    by (Z.div_mod_to_equations; lia).
  zcases. reflexivity.
Qed.

Lemma utf8_decode_encode (sp : bool) (s : str) (enc : bytes) :
  utf8_encode sp s = Some enc -> utf8_decode sp enc = Some s.
Proof.
  revert enc. induction s as [|c s IH]; intros enc; cbn [utf8_encode].
  - intros [= <-]. reflexivity.
  - destruct (utf8_encode_char sp c) as [x|] eqn:Hc; [|discriminate].
    destruct (utf8_encode sp s) as [y|]; [|discriminate].
    intros [= <-]. rewrite (utf8_decode_encode_char _ _ _ _ Hc).
    rewrite (IH y eq_refl). reflexivity.
Qed.

(** *** The unpickler on the pickler's output *)

Lemma read_app (a rest : bytes) (n : Z) :
  n = Z.of_nat (length a) -> read n (a ++ rest) = Some (a, rest).
Proof.
  intros ->. unfold read. rewrite length_app, Nat2Z.id.
  rewrite take_app_length, drop_app_length.
  destruct (Z.leb_spec 0 (Z.of_nat (length a))); [|lia].
  destruct (Z.leb_spec (Z.of_nat (length a)) (Z.of_nat (length a + length rest)));
    [reflexivity|lia].
Qed.

Lemma run_Next (fuel : nat) (m m' : vm) (data rest : bytes) :
  step m data = Next m' rest -> run (S fuel) m data = run fuel m' rest.
Proof. intros H. simpl. rewrite H. reflexivity. Qed.

(** An opcode that pushes [v] in one step. *)
Lemma loads_to_step (v : pyval) (w : bytes) :
  w <> [] ->
  (forall m rest, step m (w ++ rest) = Next (push v m) rest) ->
  loads_to v w.
Proof.
  intros Hne Hstep stk meta mem rest. exists 1%nat, mem. split.
  - destruct w; [congruence | simpl; lia].
  - intros fuel. apply run_Next. apply (Hstep (VM stk meta mem)).
Qed.

(** The opcodes that the pickler writes. *)
Lemma step_BININT1 m rest :
  step m (BININT1 :: rest) = load_fixed 1 (fun a => PInt (unpack_le a)) m rest.
Proof. reflexivity. Qed.

Lemma step_BININT2 m rest :
  step m (BININT2 :: rest) = load_fixed 2 (fun a => PInt (unpack_le a)) m rest.
Proof. reflexivity. Qed.

Lemma step_BININT m rest :
  step m (BININT :: rest) = load_fixed 4 (fun a => PInt (unpack_le_signed a)) m rest.
Proof. reflexivity. Qed.

Lemma step_LONG1 m rest : step m (LONG1 :: rest) = load_long 1 unpack_le m rest.
Proof. reflexivity. Qed.

Lemma step_LONG4 m rest : step m (LONG4 :: rest) = load_long 4 unpack_le_signed m rest.
Proof. reflexivity. Qed.

Lemma step_BINFLOAT m rest :
  step m (BINFLOAT :: rest) = load_fixed 8 (fun a => PFloat (unpack_be a)) m rest.
Proof. reflexivity. Qed.

Lemma step_BINUNICODE m rest : step m (BINUNICODE :: rest) = load_unicode 4 m rest.
Proof. reflexivity. Qed.

Lemma step_BINPUT m rest : step m (BINPUT :: rest) = load_put 1 m rest.
Proof. reflexivity. Qed.

Lemma step_LONG_BINPUT m rest : step m (LONG_BINPUT :: rest) = load_put 4 m rest.
Proof. reflexivity. Qed.

Lemma step_save_long (z : Z) (w : bytes) (m : vm) (rest : bytes) :
  save_long z = Some w -> step m (w ++ rest) = Next (push (PInt z) m) rest.
Proof.
  unfold save_long.
  destruct ((0 <=? z) && (z <=? 255)) eqn:H1.
  { intros Hw%(inj Some); subst. apply andb_true_iff in H1 as [H0 H255].
    apply Z.leb_le in H0, H255.
    change ([BININT1; byte_of_Z z] ++ rest) with (BININT1 :: [byte_of_Z z] ++ rest).
    rewrite step_BININT1. unfold load_fixed.
    rewrite (read_app [byte_of_Z z] rest 1 eq_refl).
    cbn [unpack_le]. rewrite Z_of_byte_of_Z_small by lia.
    do 3 f_equal. lia. }
  destruct ((0 <=? z) && (z <=? 65535)) eqn:H2.
  { intros Hw%(inj Some); subst. apply andb_true_iff in H2 as [H0 Hmax].
    apply Z.leb_le in H0, Hmax.
    rewrite <- app_comm_cons, step_BININT2. unfold load_fixed.
    rewrite (read_app (pack_le 2 z) rest 2 eq_refl).
    rewrite unpack_le_pack_le_small by (simpl; lia). reflexivity. }
  destruct ((-2147483648 <=? z) && (z <=? 2147483647)) eqn:H3.
  { intros Hw%(inj Some); subst. apply andb_true_iff in H3 as [Hmin Hmax].
    apply Z.leb_le in Hmin, Hmax.
    rewrite <- app_comm_cons, step_BININT. unfold load_fixed.
    rewrite (read_app (pack_le 4 z) rest 4 eq_refl).
    rewrite unpack_le_signed_pack_le by (simpl; lia). reflexivity. }
  destruct (Z.leb_spec (long_nbytes z) 0x7fffffff) as [Hfit|]; [|discriminate].
  pose proof (length_encode_long z) as Hlen.
  set (encoded := encode_long z) in *.
  destruct (Z.ltb_spec (Z.of_nat (length encoded)) 256) as [Hshort|Hlong].
  { intros Hw%(inj Some); subst.
    change ((LONG1 :: byte_of_Z (Z.of_nat (length encoded)) :: encoded) ++ rest)
      with (LONG1 :: [byte_of_Z (Z.of_nat (length encoded))] ++ encoded ++ rest).
    rewrite step_LONG1. unfold load_long.
    rewrite (read_app [byte_of_Z (Z.of_nat (length encoded))] (encoded ++ rest) 1 eq_refl).
    cbn [unpack_le]. rewrite Z_of_byte_of_Z_small by lia. rewrite Z.mul_0_r, Z.add_0_r.
    destruct (Z.ltb_spec (Z.of_nat (length encoded)) 0); [lia|].
    rewrite (read_app encoded rest _ eq_refl).
    unfold encoded. rewrite decode_encode_long. reflexivity. }
  intros Hw%(inj Some); subst.
  rewrite <- app_comm_cons, step_LONG4. rewrite <- app_assoc. unfold load_long.
  rewrite (read_app (pack_le 4 (Z.of_nat (length encoded))) (encoded ++ rest) 4 eq_refl).
  rewrite unpack_le_signed_pack_le by (simpl; lia).
  destruct (Z.ltb_spec (Z.of_nat (length encoded)) 0); [lia|].
  rewrite (read_app encoded rest _ eq_refl).
  unfold encoded. rewrite decode_encode_long. reflexivity.
Qed.

Lemma step_put (idx : Z) (p : bytes) (v : pyval) (stk : list pyval)
    (meta : list (list pyval)) (mem : gmap Z pyval) (rest : bytes) :
  put idx = Some p ->
  exists mem', step (VM (v :: stk) meta mem) (p ++ rest) = Next (VM (v :: stk) meta mem') rest.
Proof.
  unfold put. destruct (idx <? 256).
  - intros Hw%(inj Some); subst. eexists.
    change ([BINPUT; byte_of_Z idx] ++ rest) with (BINPUT :: [byte_of_Z idx] ++ rest).
    rewrite step_BINPUT. unfold load_put.
    rewrite (read_app [byte_of_Z idx] rest 1 eq_refl). reflexivity.
  - destruct (idx <=? 0xffffffff); [|discriminate].
    intros Hw%(inj Some); subst. eexists. rewrite <- app_comm_cons, step_LONG_BINPUT. unfold load_put.
    rewrite (read_app (pack_le 4 idx) rest 4 eq_refl). reflexivity.
Qed.

Lemma length_put (idx : Z) (p : bytes) : put idx = Some p -> (1 <= length p)%nat.
Proof.
  unfold put. destruct (idx <? 256); [intros [= <-]; simpl; lia|].
  destruct (idx <=? 0xffffffff); [intros [= <-]; simpl; lia | discriminate].
Qed.

Lemma loads_to_save_str (s : str) (idx idx' : Z) (w : bytes) :
  save_str s idx = Some (w, idx') -> loads_to (PStr s) w.
Proof.
  unfold save_str. destruct (utf8_encode true s) as [encoded|] eqn:Henc; [|discriminate].
  cbn [mbind option_bind].
  destruct (Z.leb_spec (Z.of_nat (length encoded)) 0xffffffff) as [Hfit|]; [|discriminate].
  destruct (put idx) as [p|] eqn:Hp; [|discriminate].
  cbn [mbind option_bind]. intros Hw.
  assert (w = BINUNICODE :: pack_le 4 (Z.of_nat (length encoded)) ++ encoded ++ p)
    as -> by congruence.
  clear Hw. intros stk meta mem rest.
  destruct (step_put idx p (PStr s) stk meta mem rest Hp) as [mem' Hput].
  exists 2%nat, mem'. split.
  - pose proof (length_put _ _ Hp). simpl. rewrite !length_app. lia.
  - intros fuel. change (2 + fuel)%nat with (S (S fuel)).
    rewrite (run_Next _ _ (VM (PStr s :: stk) meta mem) _ (p ++ rest)).
    + apply run_Next. exact Hput.
    + rewrite <- app_comm_cons, step_BINUNICODE. unfold load_unicode.
      rewrite <- !app_assoc.
      rewrite (read_app (pack_le 4 (Z.of_nat (length encoded))) _ 4 eq_refl).
      rewrite unpack_le_pack_le_small by (simpl; lia).
      rewrite (read_app encoded _ _ eq_refl).
      rewrite (utf8_decode_encode _ _ _ Henc). reflexivity.
Qed.

(** Induction on a value and on the items of its lists. *)
Lemma pyval_nested_ind (P : pyval -> Prop) :
  P PNone -> (forall x, P (PBool x)) -> (forall z, P (PInt z)) ->
  (forall bits, P (PFloat bits)) -> (forall s, P (PStr s)) ->
  (forall l, Forall P l -> P (PList l)) ->
  forall v, P v.
Proof.
  intros HNone HBool HInt HFloat HStr HList.
  fix IH 1.
  intros [ | x | z | bits | s | l];
    [exact HNone | apply HBool | apply HInt | apply HFloat | apply HStr | ].
  apply HList. induction l as [|x l IHl]; constructor; [apply IH | exact IHl].
Qed.

Lemma save_PList (l : list pyval) (idx : Z) :
  save (PList l) idx
  = (p ← put idx;
     '(items, idx') ← save_items l (idx + 1);
     Some (EMPTY_LIST :: p ++ batch_list_exact items, idx')).
Proof.
  cbn [save]. destruct (put idx) as [p|]; [|reflexivity]. cbn [mbind option_bind].
  match goal with
  | |- (?f l (idx + 1) ≫= _) = _ =>
      assert (E : forall l i, f l i = save_items l i)
  end.
  { clear. intros l. induction l as [|x l IH]; intros i; [reflexivity|].
    cbn [save_items]. destruct (save x i) as [[w i1]|]; [|reflexivity].
    cbn [mbind option_bind]. rewrite IH. reflexivity. }
  rewrite E. reflexivity.
Qed.

Lemma batches_S (fuel : nat) (items : list bytes) :
  batches (S fuel) items
  = MARK :: concat (take BATCHSIZE items) ++ [APPENDS]
    ++ (if (BATCHSIZE <? length items)%nat
        then batches fuel (drop BATCHSIZE items)
        else []).
Proof. reflexivity. Qed.

Lemma step_MARK stk meta mem rest :
  step (VM stk meta mem) (MARK :: rest) = Next (VM [] (stk :: meta) mem) rest.
Proof. reflexivity. Qed.

Lemma step_APPEND x l stk meta mem rest :
  step (VM (x :: PList l :: stk) meta mem) (APPEND :: rest)
  = Next (VM (PList (l ++ [x]) :: stk) meta mem) rest.
Proof. reflexivity. Qed.

Lemma step_APPENDS x items l stk meta mem rest :
  step (VM (x :: items) ((PList l :: stk) :: meta) mem) (APPENDS :: rest)
  = Next (VM (PList (l ++ rev (x :: items)) :: stk) meta mem) rest.
Proof. reflexivity. Qed.

Lemma step_EMPTY_LIST m rest :
  step m (EMPTY_LIST :: rest) = Next (push (PList []) m) rest.
Proof. reflexivity. Qed.

(** The items of a batch, one after the other: they end up on the stack,
    the last one on top. *)
Lemma loads_items (l : list pyval) (ws : list bytes) :
  Forall2 loads_to l ws ->
  forall stk meta mem rest,
  exists (k : nat) (mem' : gmap Z pyval),
    (k <= length (concat ws))%nat
    /\ forall fuel : nat,
         run (k + fuel) (VM stk meta mem) (concat ws ++ rest)
         = run fuel (VM (rev l ++ stk) meta mem') rest.
Proof.
  induction 1 as [|x w l ws Hx _ IH]; intros stk meta mem rest.
  - exists 0%nat, mem. split; [simpl; lia|]. intros fuel. reflexivity.
  - destruct (Hx stk meta mem (concat ws ++ rest)) as (k1 & mem1 & Hk1 & Hrun1).
    destruct (IH (x :: stk) meta mem1 rest) as (k2 & mem2 & Hk2 & Hrun2).
    exists (k2 + k1)%nat, mem2. split.
    + cbn [concat]. rewrite length_app. lia.
    + intros fuel. cbn [concat]. rewrite <- app_assoc.
      replace (k2 + k1 + fuel)%nat with (k1 + (k2 + fuel))%nat by lia.
      rewrite Hrun1, Hrun2. cbn [rev]. rewrite <- app_assoc. reflexivity.
Qed.

(** One batch: [MARK], one item or more, [APPENDS]. *)
Lemma loads_batch (l : list pyval) (ws : list bytes) :
  Forall2 loads_to l ws -> ws <> [] ->
  forall acc stk meta mem rest,
  exists (k : nat) (mem' : gmap Z pyval),
    (k <= length (MARK :: concat ws ++ [APPENDS]))%nat
    /\ forall fuel : nat,
         run (k + fuel) (VM (PList acc :: stk) meta mem)
           (MARK :: concat ws ++ APPENDS :: rest)
         = run fuel (VM (PList (acc ++ l) :: stk) meta mem') rest.
Proof.
  intros Hl Hne acc stk meta mem rest.
  pose proof (Forall2_length _ _ _ Hl) as Hlen.
  destruct (loads_items l ws Hl [] ((PList acc :: stk) :: meta) mem
              (APPENDS :: rest)) as (k & mem' & Hk & Hrun).
  exists (S (k + 1)), mem'. split.
  - simpl. rewrite length_app. simpl. lia.
  - intros fuel. cbn [Nat.add].
    rewrite (run_Next _ _ _ _ _ (step_MARK _ _ _ _)).
    replace (k + 1 + fuel)%nat with (k + S fuel)%nat by lia.
    rewrite Hrun. rewrite app_nil_r.
    destruct (rev l) as [|x items] eqn:Hrev.
    { apply (f_equal (@length pyval)) in Hrev. rewrite length_rev in Hrev.
      destruct ws; [congruence | simpl in *; lia]. }
    rewrite (run_Next _ _ _ _ _ (step_APPENDS _ _ _ _ _ _ _)).
    rewrite <- Hrev, rev_involutive. reflexivity.
Qed.

(** All the batches of a list: the items are appended to the list on top of
    the stack. *)
Lemma loads_batches (fuel0 : nat) :
  forall (l : list pyval) (ws : list bytes),
  Forall2 loads_to l ws -> (0 < length ws <= fuel0)%nat ->
  forall acc stk meta mem rest,
  exists (k : nat) (mem' : gmap Z pyval),
    (k <= length (batches fuel0 ws))%nat
    /\ forall fuel : nat,
         run (k + fuel) (VM (PList acc :: stk) meta mem) (batches fuel0 ws ++ rest)
         = run fuel (VM (PList (acc ++ l) :: stk) meta mem') rest.
Proof.
  induction fuel0 as [|fuel0 IH]; intros l ws Hl Hfuel acc stk meta mem rest; [lia|].
  rewrite batches_S.
  pose proof (Forall2_length _ _ _ Hl) as Hlen.
  set (tmp := take BATCHSIZE ws).
  assert (Htmp : Forall2 loads_to (take BATCHSIZE l) tmp) by (apply Forall2_take, Hl).
  assert (Hne : tmp <> []).
  { unfold tmp. destruct ws; [simpl in Hfuel; lia | discriminate]. }
  destruct (Nat.ltb_spec BATCHSIZE (length ws)) as [Hmore|Hlast].
  - destruct (loads_batch _ tmp Htmp Hne acc stk meta mem
                (batches fuel0 (drop BATCHSIZE ws) ++ rest))
      as (k1 & mem1 & Hk1 & Hrun1).
    destruct (IH (drop BATCHSIZE l) (drop BATCHSIZE ws)
                (Forall2_drop _ _ _ _ Hl)
                ltac:(rewrite length_drop; unfold BATCHSIZE in *; lia)
                (acc ++ take BATCHSIZE l) stk meta mem1 rest)
      as (k2 & mem2 & Hk2 & Hrun2).
    exists (k1 + k2)%nat, mem2. split.
    + cbn [length] in *. rewrite !length_app in *. cbn [length] in *. lia.
    + intros fuel. rewrite <- app_comm_cons, <- !app_assoc. cbn [app].
      replace (k1 + k2 + fuel)%nat with (k1 + (k2 + fuel))%nat by lia.
      rewrite Hrun1, Hrun2. rewrite <- app_assoc, take_drop. reflexivity.
  - assert (take BATCHSIZE l = l) as El by (apply take_ge; lia).
    rewrite El in Htmp.
    destruct (loads_batch l tmp Htmp Hne acc stk meta mem rest)
      as (k & mem' & Hk & Hrun).
    exists k, mem'. split.
    + rewrite app_nil_r. exact Hk.
    + intros fuel. rewrite app_nil_r, <- app_comm_cons, <- app_assoc. cbn [app].
      apply Hrun.
Qed.

(** What follows [EMPTY_LIST] and the memo entry. *)
Lemma loads_list_items (l : list pyval) (ws : list bytes) :
  Forall2 loads_to l ws ->
  forall stk meta mem rest,
  exists (k : nat) (mem' : gmap Z pyval),
    (k <= length (batch_list_exact ws))%nat
    /\ forall fuel : nat,
         run (k + fuel) (VM (PList [] :: stk) meta mem) (batch_list_exact ws ++ rest)
         = run fuel (VM (PList l :: stk) meta mem') rest.
Proof.
  intros Hl stk meta mem rest.
  destruct Hl as [|x w l ws Hx Hl].
  - exists 0%nat, mem. split; [simpl; lia|]. intros fuel. reflexivity.
  - destruct Hl as [|y w' l ws Hy Hl].
    + destruct (Hx (PList [] :: stk) meta mem (APPEND :: rest))
        as (k & mem' & Hk & Hrun).
      exists (k + 1)%nat, mem'. split.
      * cbn [batch_list_exact]. rewrite length_app. simpl. lia.
      * intros fuel. cbn [batch_list_exact]. rewrite <- app_assoc. cbn [app].
        replace (k + 1 + fuel)%nat with (k + S fuel)%nat by lia.
        rewrite Hrun.
        rewrite (run_Next _ _ _ _ _ (step_APPEND _ _ _ _ _ _)). reflexivity.
    + assert (Hall : Forall2 loads_to (x :: y :: l) (w :: w' :: ws))
        by (repeat constructor; assumption).
      change (batch_list_exact (w :: w' :: ws))
        with (batches (length (w :: w' :: ws)) (w :: w' :: ws)).
      apply (loads_batches _ _ _ Hall). simpl. lia.
Qed.

Lemma save_items_Forall2 (l : list pyval) :
  Forall (fun v => forall idx idx' w, sizes_ok v = true ->
                                      save v idx = Some (w, idx') -> loads_to v w) l ->
  forallb sizes_ok l = true ->
  forall i i' ws, save_items l i = Some (ws, i') -> Forall2 loads_to l ws.
Proof.
  induction 1 as [|x l Hx _ IH]; intros Hok i i' ws; cbn [save_items].
  - intros [= <- <-]. constructor.
  - cbn [forallb] in Hok. apply andb_true_iff in Hok as [Hokx Hokl].
    destruct (save x i) as [[w i1]|] eqn:Hw; [|discriminate].
    cbn [mbind option_bind].
    destruct (save_items l i1) as [[ws' i2]|] eqn:Hws; [|discriminate].
    cbn [mbind option_bind]. intros [= <- <-].
    constructor; [eapply Hx; eassumption | eapply IH; eassumption].
Qed.

(** What [save] writes, [loads] reads back. *)
Lemma save_loads_to (v : pyval) :
  forall idx idx' w,
  sizes_ok v = true -> save v idx = Some (w, idx') -> loads_to v w.
Proof.
  induction v as [ | x | z | bits | s | l IH] using pyval_nested_ind;
    intros idx idx' w Hok Hsave.
  - injection Hsave as <- <-. apply loads_to_step; [discriminate | reflexivity].
  - injection Hsave as <- <-.
    apply loads_to_step; [discriminate | destruct x; reflexivity].
  - cbn [save] in Hsave. destruct (save_long z) as [w'|] eqn:Hz; [|discriminate].
    cbn [mbind option_bind] in Hsave. injection Hsave as <- <-.
    apply loads_to_step.
    + unfold save_long in Hz. repeat (destruct (_ : bool) in Hz); try discriminate;
        injection Hz as <-; discriminate.
    + intros m rest. apply step_save_long, Hz.
  - cbn [save sizes_ok] in *. apply andb_true_iff in Hok as [H0 H64].
    apply Z.leb_le in H0. apply Z.ltb_lt in H64.
    assert (w = save_float bits) as -> by congruence.
    apply loads_to_step; [discriminate|].
    intros m rest. unfold save_float. rewrite <- app_comm_cons, step_BINFLOAT.
    unfold load_fixed.
    rewrite (read_app (pack_be 8 bits) rest 8)
      by (unfold pack_be; rewrite length_rev, length_pack_le; reflexivity).
    rewrite unpack_be_pack_be by (change (256 ^ Z.of_nat 8) with (2 ^ 64); lia).
    reflexivity.
  - eapply loads_to_save_str. exact Hsave.
  - rewrite save_PList in Hsave.
    destruct (put idx) as [p|] eqn:Hp; [|discriminate].
    cbn [mbind option_bind] in Hsave.
    destruct (save_items l (idx + 1)) as [[items i']|] eqn:Hitems; [|discriminate].
    cbn [mbind option_bind] in Hsave.
    assert (w = EMPTY_LIST :: p ++ batch_list_exact items) as -> by congruence.
    clear Hsave. cbn [sizes_ok] in Hok.
    pose proof (save_items_Forall2 l IH Hok _ _ _ Hitems) as Hl.
    intros stk meta mem rest.
    destruct (step_put idx p (PList []) stk meta mem (batch_list_exact items ++ rest) Hp)
      as [mem1 Hput].
    destruct (loads_list_items l items Hl stk meta mem1 rest) as (k & mem2 & Hk & Hrun).
    exists (S (S k)), mem2. split.
    + pose proof (length_put _ _ Hp). simpl. rewrite length_app. lia.
    + intros fuel. cbn [Nat.add]. rewrite <- app_comm_cons.
      rewrite (run_Next _ _ _ _ _ (step_EMPTY_LIST _ _)). unfold push. cbn [stack metastack memo].
      rewrite <- app_assoc.
      rewrite (run_Next _ _ _ _ _ Hput).
      rewrite Hrun. reflexivity.
Qed.

Lemma step_PROTO3 m rest : step m (PROTO :: x03 :: rest) = Next m rest.
Proof.
  change (step m (PROTO :: x03 :: rest))
    with (match read 1 ([x03] ++ rest) with
          | Some (arg, rest') =>
              if unpack_le arg <=? HIGHEST_PROTOCOL then Next m rest' else Fail ValueError
          | None => Fail UnpicklingError
          end).
  rewrite (read_app [x03] rest 1 eq_refl). reflexivity.
Qed.

Lemma step_STOP v stk meta mem rest : step (VM (v :: stk) meta mem) (STOP :: rest) = Stop v.
Proof. reflexivity. Qed.

(** [loads] gives back the value that [dumps] was given, whatever follows
    the pickle in the data. *)
Lemma loads_dumps (v : pyval) (w tail : bytes) :
  sizes_ok v = true -> dumps v = Return w -> loads (w ++ tail) = Return v.
Proof.
  intros Hok Hw. unfold dumps in Hw.
  destruct (save v 0) as [[body idx']|] eqn:Hsave; [|discriminate].
  assert (w = PROTO :: x03 :: body ++ [STOP]) as -> by congruence.
  destruct (save_loads_to v 0 idx' body Hok Hsave [] [] ∅ (STOP :: tail))
    as (k & mem' & Hk & Hrun).
  unfold loads. rewrite <- !app_comm_cons.
  rewrite (run_Next _ _ _ _ _ (step_PROTO3 _ _)).
  rewrite <- app_assoc. cbn [app].
  cbn [length]. rewrite length_app. cbn [length].
  replace (S (S (length body + S (length tail))))%nat
    with (k + S (S (length body - k + S (length tail))))%nat by lia.
  rewrite Hrun. cbn [run]. rewrite step_STOP. reflexivity.
Qed.

Lemma memo_count_nonneg (v : pyval) : 0 <= memo_count v.
Proof.
  induction v as [ | x | z | bits | s | l IH] using pyval_nested_ind;
    cbn [memo_count]; try lia.
  induction IH as [|x l Hx _ IHl]; cbn [fold_right] in *; lia.
Qed.

Lemma memo_count_items_nonneg (l : list pyval) :
  0 <= fold_right (fun x n => memo_count x + n) 0 l.
Proof.
  induction l as [|y l IHl]; cbn [fold_right]; [lia|].
  pose proof (memo_count_nonneg y). lia.
Qed.

Lemma put_total (idx : Z) : idx <= 0xffffffff -> exists p, put idx = Some p.
Proof.
  intros Hidx. unfold put. destruct (idx <? 256); [eauto|].
  destruct (Z.leb_spec idx 0xffffffff); [eauto | lia].
Qed.

Lemma save_long_total (z : Z) :
  long_nbytes z <= 0x7fffffff -> exists w, save_long z = Some w.
Proof.
  intros Hz. unfold save_long.
  destruct (_ && _); [eauto|]. destruct (_ && _); [eauto|]. destruct (_ && _); [eauto|].
  destruct (Z.leb_spec (long_nbytes z) 0x7fffffff); [|lia].
  destruct (_ <? 256); eauto.
Qed.

(** Below the limits of the protocol, [save] succeeds. *)
Lemma save_total (v : pyval) :
  forall idx, sizes_ok v = true -> idx + memo_count v <= 2 ^ 32 ->
  exists w, save v idx = Some (w, idx + memo_count v).
Proof.
  induction v as [ | x | z | bits | s | l IH] using pyval_nested_ind;
    intros idx Hok Hidx; cbn [memo_count] in *.
  - rewrite Z.add_0_r. eexists. reflexivity.
  - rewrite Z.add_0_r. eexists. reflexivity.
  - rewrite Z.add_0_r. cbn [save sizes_ok] in *. apply Z.leb_le in Hok.
    destruct (save_long_total z Hok) as [w ->]. eexists. reflexivity.
  - rewrite Z.add_0_r. eexists. reflexivity.
  - cbn [save sizes_ok] in *. unfold save_str.
    destruct (utf8_encode true s) as [encoded|]; [|discriminate].
    cbn [mbind option_bind]. rewrite Hok.
    destruct (put_total idx ltac:(lia)) as [p ->]. eexists. reflexivity.
  - rewrite save_PList. destruct (put_total idx) as [p ->].
    { pose proof (memo_count_items_nonneg l) as Hl.
      change (2 ^ 32) with 4294967296 in Hidx. lia. }
    cbn [mbind option_bind]. cbn [sizes_ok] in Hok.
    assert (Hitems : forall i,
               i + fold_right (fun x n => memo_count x + n) 0 l <= 2 ^ 32 ->
               exists ws, save_items l i
                          = Some (ws, i + fold_right (fun x n => memo_count x + n) 0 l)).
    { clear Hidx. induction IH as [|x l Hx Hl IHl]; intros i Hi; cbn [fold_right] in *.
      - rewrite Z.add_0_r. eexists. reflexivity.
      - cbn [forallb] in Hok. apply andb_true_iff in Hok as [Hokx Hokl].
        pose proof (memo_count_items_nonneg l) as H0.
        destruct (Hx i Hokx ltac:(lia)) as [w Hw].
        destruct (IHl Hokl (i + memo_count x) ltac:(lia)) as [ws Hws].
        cbn [save_items]. rewrite Hw. cbn [mbind option_bind]. rewrite Hws.
        cbn [mbind option_bind]. eexists. f_equal. f_equal. lia. }
    destruct (Hitems (idx + 1) ltac:(lia)) as [ws ->].
    cbn [mbind option_bind]. eexists. f_equal. f_equal. lia.
Qed.

(** *** Further facts about the bridge and the framing *)

(** X1. A cycle on a queue of fewer than three entries drops nothing: it
    waits on an empty queue and otherwise hands the oldest entry to
    [transport]. *)
Lemma networking_cycle_short_queue (x y : list pyval) (fb : list result) (s : Session) :
  networking_cycle (mkBridge [] fb s) = (Blocks, mkBridge [] fb s)
  /\ networking_cycle (mkBridge [x] fb s)
     = (let '(r, s') := transport x s in
        match r with
        | Return answer => (Return tt, mkBridge [] (fb ++ [answer]) s')
        | Raise e => (Raise e, mkBridge [] fb s')
        | Blocks => (Blocks, mkBridge [] fb s')
        end)
  /\ networking_cycle (mkBridge [x; y] fb s)
     = (let '(r, s') := transport x s in
        match r with
        | Return answer => (Return tt, mkBridge [y] (fb ++ [answer]) s')
        | Raise e => (Raise e, mkBridge [y] fb s')
        | Blocks => (Blocks, mkBridge [y] fb s')
        end).
Proof. repeat split; rewrite networking_cycle_unfold; reflexivity. Qed.

(** X2. The pickled payload is not free of delimiter bytes: the update
    [["||||"]] is pickled with [OUTER_DELIM] inside, and when the peer
    sends that very datagram back, [transport] cuts it in the middle of the
    payload and [loads] fails. *)
Lemma delimiter_inside_payload :
  let update := [PStr (u "||||")] in
  let s := active_session [] in
  let datagram := pickled (envelope (self s) update) ++ OUTER_DELIM in
  occurs OUTER_DELIM (pickled (envelope (self s) update))
  /\ (transport update (active_session [inr datagram])).1 = Raise UnpicklingError.
Proof.
  split.
  - exists (take 26 (pickled (envelope (self (active_session [])) [PStr (u "||||")]))),
           (drop 30 (pickled (envelope (self (active_session [])) [PStr (u "||||")]))).
    vm_compute. reflexivity.
  - vm_compute. reflexivity.
Qed.

(** *** The fuel of [loads] *)

Lemma read_shorter (n : Z) (data arg rest : bytes) :
  read n data = Some (arg, rest) -> (length rest <= length data)%nat.
Proof.
  unfold read. destruct (_ && _); [|discriminate].
  intros [= <- <-]. rewrite length_drop. lia.
Qed.

(** Every opcode takes at least its own byte from the data. *)
Lemma step_consumes (m m' : vm) (data rest : bytes) :
  step m data = Next m' rest -> (length rest < length data)%nat.
Proof.
  destruct data as [|op data]; [discriminate|].
  assert (Hread : forall n arg r, read n data = Some (arg, r) ->
                                  (length r < length (op :: data))%nat).
  { intros n arg r Hr. apply read_shorter in Hr. simpl. lia. }
  unfold step, load_fixed, load_unicode, load_long, load_put, load_get.
  destruct op; try discriminate;
    repeat match goal with
      | |- (match read ?n ?d with _ => _ end) = _ -> _ =>
          let E := fresh "E" in
          destruct (read n d) as [[? ?]|] eqn:E; [|discriminate]
      | |- (match ?x with _ => _ end) = _ -> _ => destruct x; try discriminate
      | |- (if ?c then _ else _) = _ -> _ => destruct c; try discriminate
      end;
    intros [= <- <-]; simpl;
    repeat match goal with
      | E : read _ _ = Some _ |- _ => apply read_shorter in E
      end;
    simpl in *; lia.
Qed.

(** [loads] never runs out of fuel: more of it changes nothing. *)
Lemma run_fuel_enough (fuel1 fuel2 : nat) (m : vm) (data : bytes) :
  (length data < fuel1)%nat -> (length data < fuel2)%nat ->
  run fuel1 m data = run fuel2 m data.
Proof.
  revert fuel2 m data. induction fuel1 as [|fuel1 IH]; intros fuel2 m data H1 H2; [lia|].
  destruct fuel2 as [|fuel2]; [lia|]. simpl.
  destruct (step m data) as [m' rest| |] eqn:Hstep; try reflexivity.
  apply step_consumes in Hstep. apply IH; lia.
Qed.

(** *** The view, the builder and the script on concrete inputs *)

Example truthy_demo :
  truthy <$> [PNone; PBool false; PInt 0; PFloat 0; PFloat 0x8000000000000000;
              PStr (u ""); PList []]
  = [false; false; false; false; false; false; false]
  /\ truthy <$> [PBool true; PInt (-1); PFloat 0x7FF8000000000000; PStr (u "0");
                 PList [PNone]]
     = [true; true; true; true; true].
Proof. split; reflexivity. Qed.

Example int_of_demo :
  int_of (PFloat 0x4059000000000000) = Return 100          (* 100.0 *)
  /\ int_of (PFloat 0xC004000000000000) = Return (-2)      (* -2.5 *)
  /\ int_of (PFloat 0x3FE0000000000000) = Return 0         (* 0.5 *)
  /\ int_of (PFloat 0x7FF0000000000000) = Raise OverflowError
  /\ int_of (PFloat 0x7FF8000000000000) = Raise ValueError
  /\ int_of (PStr (u " 12 ")) = Return 12
  /\ int_of (PBool true) = Return 1
  /\ int_of PNone = Raise TypeError
  /\ int_of (PList [PInt 1]) = Raise TypeError.
Proof. repeat split; reflexivity. Qed.

Example py_range_demo :
  py_range 0 10 3 = Return [0; 3; 6; 9]
  /\ py_range 10 0 (-3) = Return [10; 7; 4; 1]
  /\ py_range 5 5 1 = Return []
  /\ py_range 0 (-1) 4 = Return []
  /\ py_range 0 10 0 = Raise ValueError.
Proof. repeat split; reflexivity. Qed.

(** The second player after [setup]: 67 blocks of floor, the engine on
    [player2], [stream] scheduled once. *)
Example setup_demo :
  assigned_player demo_view = 2
  /\ physics_engine demo_view = Some Player2
  /\ (length <$> wall_list demo_view) = Some 67%nat
  /\ (Sprite.position <$> player2 demo_view) = Some [PInt 500; PInt 100]
  /\ scheduled demo_view = 1%nat.
Proof. vm_compute. repeat split. Qed.

(** A run of the script: the server answers the join request and starts
    the game; the first line typed is sent as a key press and answered, the
    second one is not a number. *)
Example script_demo :
  let t := Terminal_init (u "localhost")
             (mkNet false [None] [] [inr (b "ok"); inr (b "Start,,5005,,42")] []
                [inr (datagram_of [PInt 1])] [] [])
             [u "7"; u "x"] in
  (script 3 t).1 = Raise ValueError
  /\ stdout (script 3 t).2
     = [print_login (true, u "joined");
        print_packet (PList [PStr (u "Start"); PStr (u "5005"); PStr (u "42")]);
        print_transport (true, Some [PList [PInt 1]])]
  /\ udp_sent (net (pl (script 3 t).2))
     = [(datagram_of [PInt 42; PStr (u "Pancho"); PStr (u "press"); PInt 7],
         (u "localhost", 5005))].
Proof. vm_compute. repeat split. Qed.
(** *** More on [login] *)

(** X3. [login] on a session that is not connected, when the connection
    attempt fails: a [ConnectionError] gives [(False, "error in
    connection")], any other exception leaves [login]; in both cases nothing
    is sent or read, the session stays unconnected, and the user name is
    already stored. *)
Theorem login_connection_failure (entry room_name user : str) (s : Session) (e : exn)
    (script : list (option exn)) :
  connected (self s) = false -> valid_port (port (self s)) = true ->
  tcp_connected (net s) = false -> connect_script (net s) = Some e :: script ->
  let s' := (login entry room_name user s).2 in
  (login entry room_name user s).1
  = (if is_ConnectionError e then Return (false, u "error in connection") else Raise e)
  /\ username (self s') = Some user
  /\ connected (self s') = false
  /\ tcp_connected (net s') = false
  /\ tcp_sent (net s') = tcp_sent (net s)
  /\ tcp_inbox (net s') = tcp_inbox (net s).
Proof.
  intros Hc Hport Htcp Hscript.
  destruct s as [[sv pt c un pw gp] [tc cs ss ti us ui ts uss]].
  simpl in *. subst c tc cs.
  unfold login, connect. st_unfold. unfold tcp_connect. simpl. rewrite Hport. simpl.
  destruct e; simpl; repeat split.
Qed.

Lemma login_connection_failure_witness :
  let s' := (login (u "join") (u "game3") (u "Pancho") refused_session).2 in
  (login (u "join") (u "game3") (u "Pancho") refused_session).1
  = Return (false, u "error in connection")
  /\ username (self s') = Some (u "Pancho")
  /\ connected (self s') = false
  /\ tcp_connected (net s') = false
  /\ tcp_sent (net s') = []
  /\ tcp_inbox (net s') = [].
Proof.
  exact (login_connection_failure (u "join") (u "game3") (u "Pancho") refused_session
           ConnectionRefusedError [] eq_refl eq_refl eq_refl eq_refl).
Defined.

(** X4. The fields of the login message are not escaped: a room name that
    contains the separator and a user name that contains it give the same
    exchange.  [login entry (a ++ ",," ++ b) c] and
    [login entry a (b ++ ",," ++ c)] have the same outcome and leave the
    sockets in the same state (the same bytes sent). *)
Theorem login_fields_not_escaped (entry a c d : str) (s : Session) :
  (login entry (a ++ u ",," ++ c) d s).1 = (login entry a (c ++ u ",," ++ d) s).1
  /\ net (login entry (a ++ u ",," ++ c) d s).2
     = net (login entry a (c ++ u ",," ++ d) s).2.
Proof.
  assert (Hmsg : entry ++ u ",," ++ (a ++ u ",," ++ c) ++ u ",," ++ d
                 = entry ++ u ",," ++ a ++ u ",," ++ c ++ u ",," ++ d).
  { rewrite <- !app_assoc. reflexivity. }
  destruct s as [[sv pt cn un pw gp] [tc cs ss ti us ui ts uss]].
  unfold login. rewrite Hmsg. st_unfold. simpl.
  destruct cn; simpl.
  - destruct (encode _) as [message|e|]; simpl; auto.
    unfold tcp_send, tcp_recv. simpl.
    destruct ss as [|[e|] script]; simpl; auto;
      destruct ti as [|[e|chunk] inbox]; simpl; auto;
      repeat (destruct (str_eqb _ _) || destruct (bytes_eqb _ _)); simpl; auto.
  - unfold connect. st_unfold. unfold tcp_connect. simpl.
    destruct (valid_port pt); simpl; auto.
    destruct tc; simpl; auto.
    destruct cs as [|[e|] script']; simpl; auto.
    + destruct (is_ConnectionError e); simpl; auto.
    + destruct (encode _) as [message|e|]; simpl; auto.
      unfold tcp_send, tcp_recv. simpl.
      destruct ss as [|[e|] script]; simpl; auto;
        destruct ti as [|[e|chunk] inbox]; simpl; auto;
        repeat (destruct (str_eqb _ _) || destruct (bytes_eqb _ _)); simpl; auto.
Qed.

(** X5. [login] reads up to 100 bytes at once and compares them whole.  When
    the reply of the server arrives together with the beginning of what it
    sends next, in one chunk of at most 100 bytes, the reply is not
    recognised: a "create" is answered [(False, "invalid")] and any other
    entry [(True, "joined")], whatever the reply was; and the bytes that
    followed the reply are gone from the stream. *)
Theorem login_reply_with_more (entry room_name user : str) (s : Session)
    (message reply next : bytes) (inbox : list (exn + bytes)) :
  connected (self s) = true ->
  encode (entry ++ u ",," ++ room_name ++ u ",," ++ user) = Return message ->
  (forall e, head (tcp_send_script (net s)) <> Some (Some e)) ->
  tcp_inbox (net s) = inr (reply ++ next) :: inbox ->
  In reply [b "Rename"; b "Done"; b "Missing"; b "Full"] ->
  next <> [] -> (length (reply ++ next) <= 100)%nat ->
  (login entry room_name user s).1
  = Return (if str_eqb entry (u "create") then (false, u "invalid")
            else (true, u "joined"))
  /\ tcp_inbox (net (login entry room_name user s).2) = inbox.
Proof.
  intros Hc Henc Hsend Hin Hreply Hnext Hlen.
  destruct s as [[sv pt c un pw gp] [tc cs ss ti us ui ts uss]].
  simpl in Hc, Hsend, Hin. subst c ti.
  assert (Hno : forall keyword,
            In keyword [b "Rename"; b "Done"; b "Missing"; b "Full"] ->
            bytes_eqb (reply ++ next) keyword = false).
  { intros keyword Hk. unfold bytes_eqb. apply bool_decide_eq_false_2.
    destruct next as [|x next]; [congruence|].
    simpl in Hreply, Hk.
    destruct Hreply as [<-|[<-|[<-|[<-|[]]]]];
      destruct Hk as [<-|[<-|[<-|[<-|[]]]]]; vm_compute; discriminate. }
  unfold login. st_unfold. simpl. simpl in Henc. rewrite Henc.
  unfold tcp_send, tcp_recv. simpl.
  destruct ss as [|[e|] script]; simpl;
    try (exfalso; apply (Hsend e); reflexivity);
    rewrite take_ge, drop_ge by lia;
    rewrite !Hno by (simpl; auto);
    destruct (str_eqb entry (u "create")); auto.
Qed.

Lemma login_reply_with_more_witness :
  (login (u "join") (u "game3") (u "Pancho")
     (connected_session [inr (b "FullStart,,5005,,42")])).1
  = Return (true, u "joined")
  /\ tcp_inbox (net (login (u "join") (u "game3") (u "Pancho")
                       (connected_session [inr (b "FullStart,,5005,,42")])).2) = [].
Proof.
  apply (login_reply_with_more (u "join") (u "game3") (u "Pancho")
           (connected_session [inr (b "FullStart,,5005,,42")])
           (b "join,,game3,,Pancho") (b "Full") (b "Start,,5005,,42") []).
  - reflexivity.
  - reflexivity.
  - intros e. discriminate.
  - reflexivity.
  - simpl. auto.
  - discriminate.
  - simpl. lia.
Defined.

(** *** More on [await_response] *)

Lemma split_fuel_nonempty {A : Type} `{EqDecision A} (fuel : nat) (sep s : list A) :
  split_fuel fuel sep s <> [].
Proof.
  destruct fuel as [|fuel]; simpl; [discriminate|].
  destruct (find_sep sep s) as [[before after]|]; discriminate.
Qed.

(** [split] gives at least one field. *)
Lemma split_head {A : Type} `{EqDecision A} (sep s : list A) :
  exists first rest, split sep s = first :: rest.
Proof.
  unfold split. pose proof (split_fuel_nonempty (length s) sep s) as Hne.
  destruct (split_fuel (length s) sep s) as [|first rest]; [congruence|eauto].
Qed.

(** X6. A message whose first field is not "Start" is returned as the list
    of its fields and changes nothing in the [Pipe]: neither the datagram
    port nor the secret is touched. *)
Theorem await_response_other_message `{python : Interpreter} (s : Session) (chunk : bytes)
    (inbox : list (exn + bytes)) (text : str) :
  tcp_inbox (net s) = inr chunk :: inbox ->
  decode (take 1000 chunk) = Return text ->
  split (u ",,") text !! 0%nat <> Some (u "Start") ->
  exists s',
    await_response s = (Return (PList (PStr <$> split (u ",,") text)), s')
    /\ self s' = self s.
Proof.
  intros Hin Hdec Hfirst.
  destruct (split_head (u ",,") text) as (first & rest & Hsplit).
  rewrite Hsplit in Hfirst. simpl in Hfirst.
  eexists. split.
  - unfold await_response. st_unfold. unfold tcp_recv. rewrite Hin, Hdec.
    rewrite Hsplit. unfold index. simpl.
    unfold str_eqb. rewrite bool_decide_eq_false_2 by congruence.
    reflexivity.
  - reflexivity.
Qed.

Lemma await_response_other_message_witness :
  exists s',
    await_response (connected_session [inr (b "Wait,,2")])
    = (Return (PList (PStr <$> split (u ",,") (u "Wait,,2"))), s')
    /\ self s' = self (connected_session [inr (b "Wait,,2")]).
Proof.
  apply (await_response_other_message (connected_session [inr (b "Wait,,2")])
           (b "Wait,,2") [] (u "Wait,,2")).
  - reflexivity.
  - reflexivity.
  - vm_compute. discriminate.
Defined.

(** X7. A failing [recv]: [ConnectionAbortedError] gives the result
    [[False]]; every other exception, the other [ConnectionError]s included,
    leaves [await_response].  The fields of the [Pipe] stay as they were. *)
Theorem await_response_recv_error `{python : Interpreter} (s : Session) (e : exn)
    (inbox : list (exn + bytes)) :
  tcp_inbox (net s) = inl e :: inbox ->
  exists s',
    await_response s
    = (if is_ConnectionAbortedError e then Return (PList [PBool false]) else Raise e, s')
    /\ self s' = self s
    /\ tcp_inbox (net s') = inbox.
Proof.
  intros Hin. eexists. split.
  - unfold await_response. st_unfold. unfold tcp_recv. rewrite Hin.
    destruct (is_ConnectionAbortedError e); reflexivity.
  - split; reflexivity.
Qed.

Lemma await_response_recv_error_witness :
  (exists s',
     await_response (connected_session [inl ConnectionAbortedError])
     = (Return (PList [PBool false]), s')
     /\ self s' = self (connected_session [inl ConnectionAbortedError])
     /\ tcp_inbox (net s') = [])
  /\ (exists s',
        await_response (connected_session [inl ConnectionResetError])
        = (Raise ConnectionResetError, s')
        /\ self s' = self (connected_session [inl ConnectionResetError])
        /\ tcp_inbox (net s') = []).
Proof.
  split.
  - exact (await_response_recv_error (connected_session [inl ConnectionAbortedError])
             ConnectionAbortedError [] eq_refl).
  - exact (await_response_recv_error (connected_session [inl ConnectionResetError])
             ConnectionResetError [] eq_refl).
Defined.

(** X8. The two fields of a "Start" message are not stored together: when
    the second field is an integer and the third is missing or is not one,
    [await_response] raises with the datagram port already replaced and the
    secret still the old one. *)
Theorem await_response_half_stored `{python : Interpreter} (s : Session) (chunk : bytes)
    (inbox : list (exn + bytes)) (text field1 : str) (p : Z) :
  tcp_inbox (net s) = inr chunk :: inbox ->
  decode (take 1000 chunk) = Return text ->
  split (u ",,") text !! 0%nat = Some (u "Start") ->
  split (u ",,") text !! 1%nat = Some field1 -> py_int field1 = Return p ->
  split (u ",,") text !! 2%nat = None
  \/ (exists field2, split (u ",,") text !! 2%nat = Some field2
                     /\ py_int field2 = Raise ValueError) ->
  let s' := (await_response s).2 in
  (exists e, (await_response s).1 = Raise e)
  /\ game_port (self s') = Some p
  /\ udp_password (self s') = udp_password (self s).
Proof.
  intros Hin Hdec H0 H1 Hp H2. cbv zeta.
  unfold await_response. st_unfold. unfold tcp_recv.
  rewrite Hin, Hdec, (index_Some _ _ _ H0). simpl.
  rewrite (index_Some _ _ _ H1), Hp. simpl.
  destruct H2 as [H2 | (field2 & H2 & Hq)].
  - rewrite (index_None _ _ H2). simpl. eauto.
  - rewrite (index_Some _ _ _ H2), Hq. simpl. eauto.
Qed.

Lemma await_response_half_stored_witness :
  let s := active_session [] in
  let s1 := mkSession (self s)
              (mkNet true [] [] [inr (b "Start,,6006,,x")] [] [] [] []) in
  let s' := (await_response s1).2 in
  (exists e, (await_response s1).1 = Raise e)
  /\ game_port (self s') = Some 6006
  /\ udp_password (self s') = udp_password (self s1).
Proof.
  apply (await_response_half_stored
           (mkSession (self (active_session []))
              (mkNet true [] [] [inr (b "Start,,6006,,x")] [] [] [] []))
           (b "Start,,6006,,x") [] (u "Start,,6006,,x") (u "6006") 6006).
  - reflexivity.
  - reflexivity.
  - reflexivity.
  - reflexivity.
  - reflexivity.
  - right. exists (u "x"). split; reflexivity.
Defined.

(** *** More on [transport] *)

(** [transport] step by step: pickle, send, receive, decode. *)
Lemma transport_unfold (game_data : list pyval) (s : Session) :
  transport game_data s
  = match dumps (envelope (self s) game_data) with
    | Return w =>
        match udp_sendto (w ++ OUTER_DELIM) (server (self s)) (game_port (self s)) s with
        | (Return _, s1) =>
            match udp_recvfrom 2000 s1 with
            | (Return datagram, s2) => (decoded datagram, s2)
            | (Raise e, s2) => (Raise e, s2)
            | (Blocks, s2) => (Blocks, s2)
            end
        | (Raise e, s1) => (Raise e, s1)
        | (Blocks, s1) => (Blocks, s1)
        end
    | Raise e => (Raise e, s)
    | Blocks => (Blocks, s)
    end.
Proof.
  unfold transport. st_unfold. cbv beta.
  destruct (dumps _) as [w|e|]; try reflexivity.
  change (b "||||") with OUTER_DELIM. change (b "||") with INNER_DELIM.
  destruct (udp_sendto _ _ _ s) as [[[]|e|] s1]; try reflexivity.
  destruct (udp_recvfrom 2000 s1) as [[datagram|e|] s2]; try reflexivity.
  unfold decoded, unpack.
  destruct (split OUTER_DELIM datagram) as [|data0 [|data1 rest]]; try reflexivity.
  simpl. unfold index. simpl.
  destruct (loads_all _) as [l|e|]; reflexivity.
Qed.

Lemma udp_sendto_same_stream (data : bytes) (host : str) (p : option Z) (s : Session) :
  same_stream s (udp_sendto data host p s).2.
Proof.
  unfold udp_sendto, same_stream.
  destruct p as [p|]; simpl; [|tauto].
  destruct (valid_port p); simpl; [|tauto].
  destruct (udp_send_script (net s)) as [|[e|] script]; simpl; tauto.
Qed.

Lemma udp_recvfrom_same_stream (n : nat) (s : Session) :
  same_stream s (udp_recvfrom n s).2.
Proof.
  unfold udp_recvfrom, same_stream.
  destruct (udp_inbox (net s)) as [|[e|d] inbox]; simpl; tauto.
Qed.

Lemma same_stream_trans (s1 s2 s3 : Session) :
  same_stream s1 s2 -> same_stream s2 s3 -> same_stream s1 s3.
Proof.
  unfold same_stream. intros (?&?&?&?&?&?) (?&?&?&?&?&?). repeat split; congruence.
Qed.

Lemma same_stream_refl (s : Session) : same_stream s s.
Proof. unfold same_stream. tauto. Qed.

Lemma transport_same_stream (game_data : list pyval) (s : Session) :
  same_stream s (transport game_data s).2.
Proof.
  rewrite transport_unfold.
  destruct (dumps _) as [w|e|]; try apply same_stream_refl.
  pose proof (udp_sendto_same_stream (w ++ OUTER_DELIM) (server (self s))
                (game_port (self s)) s) as H1.
  destruct (udp_sendto _ _ _ s) as [[[]|e|] s1]; simpl in H1; try exact H1.
  pose proof (udp_recvfrom_same_stream 2000 s1) as H2.
  destruct (udp_recvfrom 2000 s1) as [[datagram|e|] s2]; simpl in H2;
    exact (same_stream_trans _ _ _ H1 H2).
Qed.

(** X9. [transport] keeps no state: whatever it is given and whatever the
    datagram socket does, the fields of the [Pipe] (server, port, connected,
    user name, secret, datagram port) are after the call what they were
    before it, and so is the stream socket. *)
Theorem transport_keeps_session (game_data : list pyval) (s : Session) :
  let s' := (transport game_data s).2 in
  self s' = self s
  /\ tcp_connected (net s') = tcp_connected (net s)
  /\ connect_script (net s') = connect_script (net s)
  /\ tcp_send_script (net s') = tcp_send_script (net s)
  /\ tcp_inbox (net s') = tcp_inbox (net s)
  /\ tcp_sent (net s') = tcp_sent (net s).
Proof. exact (transport_same_stream game_data s). Qed.

(** X10. Before a "Start" message has been read there is no datagram port:
    [transport] raises [TypeError] at [sendto]; nothing is sent, nothing is
    read and the session is unchanged. *)
Theorem transport_before_start (game_data : list pyval) (s : Session) (w : bytes) :
  game_port (self s) = None ->
  dumps (envelope (self s) game_data) = Return w ->
  transport game_data s = (Raise TypeError, s).
Proof.
  intros Hp Hw. rewrite transport_unfold, Hw, Hp. reflexivity.
Qed.

Lemma transport_before_start_witness :
  transport (position 1 1) (connected_session [inr (b "Wait")])
  = (Raise TypeError, connected_session [inr (b "Wait")]).
Proof.
  apply (transport_before_start (position 1 1) (connected_session [inr (b "Wait")])
           (pickled (envelope (self (connected_session [inr (b "Wait")]))
                       (position 1 1)))).
  - reflexivity.
  - vm_compute. reflexivity.
Defined.

Lemma loads_all_length (data : list bytes) (l : list pyval) :
  loads_all data = Return l -> length l = length data.
Proof.
  revert l. induction data as [|game data IH]; intros l; simpl.
  - intros [= <-]. reflexivity.
  - destruct (loads game) as [v|e|]; try discriminate.
    destruct (loads_all data) as [vs|e|]; try discriminate.
    intros [= <-]. simpl. f_equal. apply IH. reflexivity.
Qed.

Lemma decoded_shape (datagram : bytes) (ok : bool) (batch : option (list pyval)) :
  decoded datagram = Return (ok, batch) ->
  (ok = true /\ exists l, batch = Some l /\ l <> [])
  \/ (ok = false /\ batch = None).
Proof.
  unfold decoded, unpack.
  destruct (1 <? _)%nat.
  - destruct (split_head INNER_DELIM (default [] (split OUTER_DELIM datagram !! 0%nat)))
      as (first & rest & ->).
    destruct (loads_all (first :: rest)) as [l|e|] eqn:Hl; try discriminate.
    intros [= <- <-]. left. split; [reflexivity|]. exists l. split; [reflexivity|].
    apply loads_all_length in Hl. intros ->. discriminate.
  - intros [= <- <-]. right. split; reflexivity.
Qed.

(** X11. The two shapes of a result of [transport]: [(True, batch)] with a
    batch of at least one decoded payload, or [(False, None)].  It never
    returns [True] with an empty batch. *)
Theorem transport_result_shape (game_data : list pyval) (s : Session) (ok : bool)
    (batch : option (list pyval)) :
  (transport game_data s).1 = Return (ok, batch) ->
  (ok = true /\ exists l, batch = Some l /\ l <> [])
  \/ (ok = false /\ batch = None).
Proof.
  rewrite transport_unfold.
  destruct (dumps _) as [w|e|]; try discriminate.
  destruct (udp_sendto _ _ _ s) as [[[]|e|] s1]; try discriminate.
  destruct (udp_recvfrom 2000 s1) as [[datagram|e|] s2]; try discriminate.
  simpl. apply decoded_shape.
Qed.

Lemma transport_result_shape_witness :
  (true = true
   /\ exists l, Some [PList [PInt 0; PInt 10; PInt 20; PInt 7]] = Some l /\ l <> [])
  \/ (true = false /\ Some [PList [PInt 0; PInt 10; PInt 20; PInt 7]] = None).
Proof.
  apply (transport_result_shape (position 3 3) (session busy_bridge)).
  vm_compute. reflexivity.
Defined.

(** The bytes of a picklable value: the protocol header, the body, [STOP]. *)
Lemma pickled_shape (v : pyval) :
  picklable v = true ->
  exists body, dumps v = Return (PROTO :: x03 :: body ++ [STOP])
               /\ pickled v = PROTO :: x03 :: body ++ [STOP]
               /\ sizes_ok v = true.
Proof.
  intros Hp. unfold picklable in Hp. apply andb_true_iff in Hp as [Hok Hmemo].
  apply Z.leb_le in Hmemo.
  destruct (save_total v 0 Hok ltac:(lia)) as [body Hsave].
  exists body. unfold pickled, dumps. rewrite Hsave. auto.
Qed.

Lemma pickled_clean (v : pyval) :
  picklable v = true -> ~ occurs INNER_DELIM (pickled v) ->
  clean (pickled v) /\ pickled v <> [].
Proof.
  intros Hp Hno. destruct (pickled_shape v Hp) as (body & _ & E & _).
  rewrite E in *. split; [split|]; [exact Hno | | discriminate].
  rewrite !app_comm_cons, last_snoc. discriminate.
Qed.

Lemma loads_all_pickled (batch : list pyval) :
  Forall (fun v => picklable v = true) batch ->
  loads_all (pickled <$> batch) = Return batch.
Proof.
  induction 1 as [|v batch Hv _ IH]; [reflexivity|].
  destruct (pickled_shape v Hv) as (body & Hd & E & Hok).
  assert (Hl : loads (pickled v) = Return v).
  { rewrite E, <- (app_nil_r (PROTO :: x03 :: body ++ [STOP])).
    apply loads_dumps; assumption. }
  rewrite fmap_cons. cbn [loads_all]. rewrite Hl, IH. reflexivity.
Qed.

(** X12. The way back of the framing: when the peer answers with the pickles
    of the values of a batch, joined with [INNER_DELIM] and closed by
    [OUTER_DELIM], [transport] returns [(True, batch)], provided no pickle
    contains [INNER_DELIM] and the datagram fits in the 2000 bytes that are
    read. *)
Theorem transport_reads_batch (game_data : list pyval) (s : Session) (w : bytes)
    (p : Z) (batch : list pyval) (inbox : list (exn + bytes)) :
  dumps (envelope (self s) game_data) = Return w ->
  game_port (self s) = Some p -> valid_port p = true ->
  (forall e, head (udp_send_script (net s)) <> Some (Some e)) ->
  batch <> [] ->
  Forall (fun v => picklable v = true /\ ~ occurs INNER_DELIM (pickled v)) batch ->
  udp_inbox (net s) = inr (pack (pickled <$> batch)) :: inbox ->
  (length (pack (pickled <$> batch)) <= 2000)%nat ->
  (transport game_data s).1 = Return (true, Some batch).
Proof.
  intros Hw Hp Hvalid Hsend Hne Hbatch Hin Hlen.
  assert (Hclean : Forall clean (pickled <$> batch)).
  { apply Forall_fmap. eapply Forall_impl; [exact Hbatch|].
    intros v [Hv Hno]. apply pickled_clean; assumption. }
  assert (Hfull : Forall (fun q => q <> []) (pickled <$> batch)).
  { apply Forall_fmap. eapply Forall_impl; [exact Hbatch|].
    intros v [Hv Hno]. apply pickled_clean; assumption. }
  assert (Hne' : pickled <$> batch <> []) by (destruct batch; [congruence|discriminate]).
  assert (Hdec : decoded (pack (pickled <$> batch)) = Return (true, Some batch)).
  { unfold decoded, unpack, pack.
    rewrite (split_outer_packed _ (find_outer_after_clean _ Hne' Hclean
                                     (Forall_tail _ _ Hfull))).
    simpl. unfold split. rewrite (split_join_clean _ Hne' Hclean) by lia.
    rewrite loads_all_pickled; [reflexivity|].
    eapply Forall_impl; [exact Hbatch|]. intros v [Hv _]. exact Hv. }
  rewrite transport_unfold, Hw, Hp.
  unfold udp_sendto. rewrite Hvalid. simpl.
  destruct (udp_send_script (net s)) as [|[e|] script] eqn:Hus; simpl;
    try (exfalso; apply (Hsend e); reflexivity);
    unfold udp_recvfrom; simpl; rewrite Hin; simpl;
    rewrite take_ge by lia; exact Hdec.
Qed.

Lemma transport_reads_batch_witness :
  (transport (position 1 1)
     (active_session
        [inr (pack (pickled <$> [PStr (u "1"); PFloat 0x4059000000000000;
                                 PInt 250; PInt (-3)]))])).1
  = Return (true, Some [PStr (u "1"); PFloat 0x4059000000000000; PInt 250; PInt (-3)]).
Proof.
  apply (transport_reads_batch (position 1 1)
           (active_session
              [inr (pack (pickled <$> [PStr (u "1"); PFloat 0x4059000000000000;
                                       PInt 250; PInt (-3)]))])
           (pickled (envelope (self (active_session [])) (position 1 1))) 5005
           [PStr (u "1"); PFloat 0x4059000000000000; PInt 250; PInt (-3)] []).
  - vm_compute. reflexivity.
  - reflexivity.
  - reflexivity.
  - intros e. discriminate.
  - discriminate.
  - repeat constructor; try (vm_compute; reflexivity);
      apply not_occurs; vm_compute; reflexivity.
  - reflexivity.
  - vm_compute. lia.
Defined.

(** *** More on the bridge loop *)

(** X13. Of the entries that are in [forward] when a cycle starts, at most
    one is still there when the cycle ends, whatever the cycle meets (an
    answer, an exception, a wait): the cycle removes them from the front,
    all but the newest, and the only one when there was one.  (The cycle is
    taken on its own: what the render loop puts meanwhile comes behind these
    entries and is not among them.) *)
Theorem networking_cycle_keeps_newest (st : Bridge) :
  exists removed kept : list (list pyval),
    forward st = removed ++ kept
    /\ forward (networking_cycle st).2 = kept
    /\ (length kept <= 1)%nat
    /\ length removed = Nat.min (length (forward st)) (Nat.max 1 (length (forward st) - 1)).
Proof.
  assert (Hq : forward (networking_cycle st).2
               = drop (Nat.max 1 (length (forward st) - 1)) (forward st)).
  { rewrite networking_cycle_unfold.
    destruct (drop (length (forward st) - 2) (forward st)) as [|x q'] eqn:Hdrop.
    - apply (f_equal length) in Hdrop. rewrite length_drop in Hdrop. simpl in Hdrop.
      simpl. destruct (forward st) as [|y q]; simpl in *; [reflexivity|lia].
    - assert (Hq' : q' = drop 1 (drop (length (forward st) - 2) (forward st))).
      { rewrite Hdrop. reflexivity. }
      rewrite drop_drop in Hq'.
      assert (Hlen : (1 <= length (forward st))%nat).
      { apply (f_equal length) in Hdrop. rewrite length_drop in Hdrop. simpl in Hdrop.
        lia. }
      replace (length (forward st) - 2 + 1)%nat
        with (Nat.max 1 (length (forward st) - 1)) in Hq' by lia.
      destruct (transport x (session st)) as [[answer|e|] s']; simpl; exact Hq'. }
  exists (take (Nat.max 1 (length (forward st) - 1)) (forward st)),
         (drop (Nat.max 1 (length (forward st) - 1)) (forward st)).
  split; [symmetry; apply take_drop|]. split; [exact Hq|].
  split; [rewrite length_drop; lia|].
  rewrite length_take. lia.
Qed.

(** X14. [networking] only ever appends to [feedback]: after any number of
    turns of the loop the entries that were there are still there, in front;
    at most one answer per turn has been added, and exactly one per turn
    when the loop is still running. *)
Theorem networking_appends_answers (cycles : nat) (st : Bridge) :
  exists answers : list result,
    feedback (networking cycles st).2 = feedback st ++ answers
    /\ (length answers <= cycles)%nat
    /\ ((networking cycles st).1 = Return tt -> length answers = cycles).
Proof.
  revert st. induction cycles as [|cycles IH]; intros st.
  - exists []. simpl. rewrite app_nil_r. auto.
  - simpl. unfold mbind, ST_bind.
    pose proof (networking_cycle_unfold st) as Hc.
    destruct (networking_cycle st) as [[[]|e|] st1] eqn:Hcycle.
    + destruct (networking_cycle_publishes _ _ Hcycle) as [answer Ha].
      destruct (IH st1) as (answers & Hfb & Hlen & Hrun).
      exists (answer :: answers). rewrite Hfb, Ha, <- app_assoc. simpl.
      repeat split; [lia|]. intros Hr. f_equal. apply Hrun, Hr.
    + exists []. rewrite app_nil_r. simpl. repeat split; [|lia|discriminate].
      destruct (drop _ _) as [|x q']; [try discriminate; inversion Hc; reflexivity|].
      destruct (transport x (session st)) as [[answer|e'|] s']; simpl in Hc;
        try discriminate; inversion Hc; reflexivity.
    + exists []. rewrite app_nil_r. simpl. repeat split; [|lia|discriminate].
      destruct (drop _ _) as [|x q']; [try discriminate; inversion Hc; reflexivity|].
      destruct (transport x (session st)) as [[answer|e'|] s']; simpl in Hc;
        try discriminate; inversion Hc; reflexivity.
Qed.

(** *** [Build.lay] *)

Lemma range_length_nonneg (start stop step : Z) : 0 <= range_length start stop step.
Proof.
  unfold range_length.
  destruct (0 <? step) eqn:Hs.
  - apply Z.ltb_lt in Hs. destruct (start <? stop) eqn:Hlt; [|lia].
    apply Z.ltb_lt in Hlt.
    pose proof (Z.div_pos (stop - start - 1) step). lia.
  - apply Z.ltb_ge in Hs. destruct (stop <? start) eqn:Hlt; [|lia].
    apply Z.ltb_lt in Hlt.
    destruct (Z.eq_dec step 0) as [->|Hne].
    + simpl. rewrite Z.div_0_r. lia.
    + pose proof (Z.div_pos (start - stop - 1) (- step)). lia.
Qed.

(** The elements of a range lie between [start] and [stop]. *)
Lemma range_element (start stop step : Z) (i : nat) :
  Z.of_nat i < range_length start stop step ->
  let c := start + Z.of_nat i * step in
  (0 < step -> start <= c < stop) /\ (step < 0 -> stop < c <= start).
Proof.
  unfold range_length. intros Hi. cbv zeta. split; intros Hs.
  - destruct (Z.ltb_spec 0 step); [|lia].
    destruct (Z.ltb_spec start stop); [|lia].
    pose proof (Z.mul_div_le (stop - start - 1) step Hs).
    split; nia.
  - destruct (Z.ltb_spec 0 step); [lia|].
    destruct (Z.ltb_spec stop start); [|lia].
    pose proof (Z.mul_div_le (start - stop - 1) (- step) ltac:(lia)).
    split; nia.
Qed.

(** The loop of [lay] over a list of counters, when sprites can be made of
    the image and the scale. *)
Lemma lay_loop (entry : str) (default : Z) (file : str) (counters : list Z) :
  forall bld : Build.t,
  (if str_eqb entry (u "x") then Build.image_x bld else Build.image_y bld) = PStr file ->
  is_number (Build.scale bld) = true ->
  for_each counters (Build.add_block entry default) bld
  = (Return tt,
     Build.mk (Build.blocks bld
               ++ ((fun c => if str_eqb entry (u "x")
                             then Sprite.mk file (Build.scale bld) (PInt c) (PInt default)
                                    (PFloat 0) (PFloat 0)
                             else Sprite.mk file (Build.scale bld) (PInt default) (PInt c)
                                    (PFloat 0) (PFloat 0)) <$> counters))
              (Build.image bld) (Build.scale bld) (Build.image_y bld) (Build.image_x bld)).
Proof.
  induction counters as [|c counters IH]; intros bld Himg Hnum.
  - simpl. rewrite app_nil_r. destruct bld; reflexivity.
  - cbn [for_each]. unfold mbind, ST_bind.
    unfold Build.add_block at 1. cbv zeta. rewrite Himg. unfold Sprite.new.
    rewrite Hnum.
    rewrite IH; [|exact Himg|exact Hnum].
    cbn [Build.blocks Build.image Build.scale Build.image_y Build.image_x].
    rewrite <- app_assoc. rewrite fmap_cons.
    destruct (str_eqb entry (u "x")); reflexivity.
Qed.

(** X15. [lay] appends one block per element of [range(start, stop, step)]
    behind the blocks already laid; block number [i] is made of the image of
    the axis and of the scale, and is at [start + i * step] on the axis of
    [entry] ("x", any other text meaning y) and at [default] on the other;
    so every new block is between [start] and [stop]. *)
Theorem lay_blocks (start stop step default : Z) (entry : str) (image scale : pyval)
    (bld : Build.t) (file : str) :
  let bld1 := Build.override_scale scale (Build.override_image image bld) in
  step <> 0 ->
  (if str_eqb entry (u "x") then Build.image_x bld1 else Build.image_y bld1) = PStr file ->
  is_number (Build.scale bld1) = true ->
  exists added : list Sprite.t,
    Build.lay [start; stop; step] entry default image scale bld
    = (Return tt,
       Build.mk (Build.blocks bld ++ added) (Build.image bld1) (Build.scale bld1)
                (Build.image_y bld1) (Build.image_x bld1))
    /\ Z.of_nat (length added) = range_length start stop step
    /\ forall (i : nat) (block : Sprite.t),
         added !! i = Some block ->
         let c := start + Z.of_nat i * step in
         Sprite.filename block = file
         /\ Sprite.scale block = Build.scale bld1
         /\ Sprite.position block
            = (if str_eqb entry (u "x") then [PInt c; PInt default]
               else [PInt default; PInt c])
         /\ (0 < step -> start <= c < stop)
         /\ (step < 0 -> stop < c <= start).
Proof.
  intros bld1 Hstep Himg Hnum.
  eexists. split; [|split].
  - unfold Build.lay. st_unfold. unfold get_state, put_state, index. simpl.
    unfold py_range. rewrite (proj2 (Z.eqb_neq step 0) Hstep).
    fold bld1. rewrite (lay_loop entry default file _ bld1 Himg Hnum).
    f_equal. f_equal. f_equal.
    subst bld1. unfold Build.override_scale, Build.override_image.
    destruct (truthy image), (truthy scale); reflexivity.
  - rewrite !length_fmap, length_seq.
    apply Z2Nat.id, range_length_nonneg.
  - intros i block Hi c.
    apply list_lookup_fmap_Some in Hi as (c' & -> & Hc).
    apply list_lookup_fmap_Some in Hc as (j & -> & Hj).
    apply lookup_seq in Hj as [-> Hlt]. simpl in Hlt.
    pose proof (range_length_nonneg start stop step).
    destruct (range_element start stop step i ltac:(lia)) as [Hup Hdown].
    simpl. fold c.
    destruct (str_eqb entry (u "x")); repeat split; auto; subst c; lia.
Qed.

Lemma lay_blocks_witness :
  exists added : list Sprite.t,
    Build.lay [0; 1000; 15] (u "x") 10 PNone PNone
      (Build.init (PStr (u "/game/data/11.png")) (PFloat 0x3FB999999999999A) PNone PNone)
    = (Return tt,
       Build.mk ([] ++ added) (PStr (u "/game/data/11.png")) (PFloat 0x3FB999999999999A)
                (PStr (u "/game/data/11.png")) (PStr (u "/game/data/11.png")))
    /\ Z.of_nat (length added) = 67
    /\ forall (i : nat) (block : Sprite.t),
         added !! i = Some block ->
         let c := 0 + Z.of_nat i * 15 in
         Sprite.filename block = u "/game/data/11.png"
         /\ Sprite.scale block = PFloat 0x3FB999999999999A
         /\ Sprite.position block = [PInt c; PInt 10]
         /\ (0 < 15 -> 0 <= c < 1000)
         /\ (15 < 0 -> 1000 < c <= 0).
Proof.
  apply (lay_blocks 0 1000 15 10 (u "x") PNone PNone
           (Build.init (PStr (u "/game/data/11.png")) (PFloat 0x3FB999999999999A)
              PNone PNone)
           (u "/game/data/11.png")).
  - lia.
  - reflexivity.
  - reflexivity.
Defined.

(** X16. A tuple of fewer than three numbers and a step of 0 stop [lay]
    ([IndexError], [ValueError]) before any block is made, but after the
    image and the scale given with the call have replaced those of the
    builder. *)
Theorem lay_bad_iteration (iteration : list Z) (entry : str) (default : Z)
    (image scale : pyval) (bld : Build.t) :
  let bld1 := Build.override_scale scale (Build.override_image image bld) in
  ((length iteration < 3)%nat ->
   Build.lay iteration entry default image scale bld = (Raise IndexError, bld1))
  /\ (iteration !! 2%nat = Some 0 ->
      Build.lay iteration entry default image scale bld = (Raise ValueError, bld1))
  /\ Build.blocks bld1 = Build.blocks bld.
Proof.
  cbv zeta. split; [|split].
  - intros Hlen. unfold Build.lay. st_unfold. unfold get_state, put_state, index.
    destruct iteration as [|a [|c [|d rest]]]; simpl in *; try reflexivity; lia.
  - intros Hzero. unfold Build.lay. st_unfold. unfold get_state, put_state, index.
    destruct iteration as [|a [|c [|d rest]]]; simpl in *; try discriminate.
    injection Hzero as ->. reflexivity.
  - unfold Build.override_scale, Build.override_image.
    destruct (truthy image), (truthy scale); reflexivity.
Qed.

Lemma lay_bad_iteration_witness :
  let bld := Build.init (PStr (u "a.png")) (PFloat 0x3FB999999999999A) PNone PNone in
  Build.lay [0; 10] (u "x") 0 PNone (PInt 2) bld
  = (Raise IndexError, Build.override_scale (PInt 2) (Build.override_image PNone bld))
  /\ Build.lay [0; 10; 0] (u "x") 0 PNone (PInt 2) bld
     = (Raise ValueError, Build.override_scale (PInt 2) (Build.override_image PNone bld))
  /\ Build.scale (Build.override_scale (PInt 2) (Build.override_image PNone bld)) = PInt 2.
Proof.
  split; [|split].
  - apply (proj1 (lay_bad_iteration [0; 10] (u "x") 0 PNone (PInt 2)
                    (Build.init (PStr (u "a.png")) (PFloat 0x3FB999999999999A)
                       PNone PNone))).
    simpl. lia.
  - apply (proj1 (proj2 (lay_bad_iteration [0; 10; 0] (u "x") 0 PNone (PInt 2)
                           (Build.init (PStr (u "a.png")) (PFloat 0x3FB999999999999A)
                              PNone PNone)))).
    reflexivity.
  - reflexivity.
Defined.

(** *** [GameView]: [setup], the key handlers, [add_wall] *)

Arguments DATA_DIR : simpl never.

(** The floor of [setup]. *)
Lemma setup_floor (dir : str) :
  Build.lay [0; 1000; 15] (u "x") 10 PNone PNone
    (Build.init (PStr (dir ++ u "/11.png")) (PFloat 0x3FB999999999999A) PNone PNone)
  = (Return tt,
     Build.mk ((fun i : nat =>
                  Sprite.mk (dir ++ u "/11.png") (PFloat 0x3FB999999999999A)
                    (PInt (15 * Z.of_nat i)) (PInt 10) (PFloat 0) (PFloat 0))
               <$> seq 0 67)
       (PStr (dir ++ u "/11.png")) (PFloat 0x3FB999999999999A)
       (PStr (dir ++ u "/11.png")) (PStr (dir ++ u "/11.png"))).
Proof.
  generalize (dir ++ u "/11.png"). intros file. vm_compute. reflexivity.
Qed.

(** X17. [setup] works for the character numbers 0, 1 and 2 only.  For
    these the assigned player is the number plus one, the three sprites are
    at their starting places, the floor is laid and the physics engine is
    built for the sprite of the assigned player.  For any other number
    [AttributeError] is raised once the sprites and the floor are in place:
    the engine is the one of before (none on a new view) and [stream] is not
    scheduled. *)
Theorem setup_character `{python : Interpreter} (k : Env) (character_id : pyval) (n : Z) (v : GameView) :
  int_of character_id = Return n ->
  is_number (SPRITE_SCALING_PLAYER k) = true ->
  let v' := (setup k character_id v).2 in
  assigned_player v' = n + 1
  /\ (Sprite.position <$> player1 v') = Some [PInt 100; PInt 100]
  /\ (Sprite.position <$> player2 v') = Some [PInt 500; PInt 100]
  /\ (Sprite.position <$> player3 v') = Some [PInt 1000; PInt 100]
  /\ wall_list v' = Some (floor_blocks k)
  /\ (0 <= n <= 2 ->
      (setup k character_id v).1 = Return tt
      /\ exists who, getattr_player (assigned_player v') = Return who
                     /\ physics_engine v' = Some who)
  /\ (~ 0 <= n <= 2 ->
      (setup k character_id v).1 = Raise AttributeError
      /\ physics_engine v' = physics_engine v
      /\ scheduled v' = scheduled v).
Proof.
  intros Hn Hnum. cbv zeta.
  unfold setup. st_unfold. unfold get_state, put_state, update_sprite.
  rewrite Hn. unfold Sprite.new. rewrite Hnum. cbv beta iota.
  rewrite setup_floor. cbv beta iota.
  cbn [assigned_player set_assigned_player set_sprite set_wall_list player1 player2
       player3 wall_list physics_engine scheduled Build.blocks].
  unfold getattr_player.
  destruct (Z.eqb_spec (n + 1) 1) as [H1|H1];
    [|destruct (Z.eqb_spec (n + 1) 2) as [H2|H2];
      [|destruct (Z.eqb_spec (n + 1) 3) as [H3|H3]]];
    cbv beta iota;
    destruct (bool_decide (SERVER k = Some (u "127.0.0.1"))
              || bool_decide (SERVER k = Some (hostname k)));
    simpl; unfold getattr_player;
    repeat match goal with
      | |- context [Z.eqb ?a ?c] => destruct (Z.eqb_spec a c); try lia
      end;
    repeat split; try reflexivity; try lia; intros; try lia; eauto.
Qed.

Lemma setup_character_witness :
  let v := GameView_init (fun n => 1000 * Z.of_nat n + 7) in
  let v' := (setup demo_env (PStr (u "3")) v).2 in
  assigned_player v' = 3 + 1
  /\ (Sprite.position <$> player1 v') = Some [PInt 100; PInt 100]
  /\ (Sprite.position <$> player2 v') = Some [PInt 500; PInt 100]
  /\ (Sprite.position <$> player3 v') = Some [PInt 1000; PInt 100]
  /\ wall_list v' = Some (floor_blocks demo_env)
  /\ (0 <= 3 <= 2 ->
      (setup demo_env (PStr (u "3")) v).1 = Return tt
      /\ exists who, getattr_player (assigned_player v') = Return who
                     /\ physics_engine v' = Some who)
  /\ (~ 0 <= 3 <= 2 ->
      (setup demo_env (PStr (u "3")) v).1 = Raise AttributeError
      /\ physics_engine v' = physics_engine v
      /\ scheduled v' = scheduled v).
Proof.
  exact (setup_character demo_env (PStr (u "3")) 3
           (GameView_init (fun n => 1000 * Z.of_nat n + 7)) eq_refl eq_refl).
Defined.

Lemma player_sprite_found (n : Z) (who : player) (s : Sprite.t) (v : GameView) :
  getattr_player n = Return who -> sprite_of who v = Some s ->
  player_sprite n v = (Return (who, s), v).
Proof.
  intros Hwho Hs. unfold player_sprite. st_unfold. unfold get_state.
  rewrite Hwho, Hs. reflexivity.
Qed.

(** [player_sprite] returns a sprite of the view and leaves the view as it
    is. *)
Lemma player_sprite_inv (n : Z) (v : GameView) :
  (exists who s, getattr_player n = Return who /\ sprite_of who v = Some s
                 /\ player_sprite n v = (Return (who, s), v))
  \/ player_sprite n v = (Raise AttributeError, v).
Proof.
  unfold player_sprite. st_unfold. unfold get_state.
  destruct (getattr_player n) as [who|e|] eqn:Hwho.
  - destruct (sprite_of who v) as [s|] eqn:Hs; [left|right; reflexivity].
    exists who, s. auto.
  - right. unfold getattr_player in Hwho.
    destruct (n =? 1); [discriminate|]. destruct (n =? 2); [discriminate|].
    destruct (n =? 3); [discriminate|]. injection Hwho as <-. reflexivity.
  - unfold getattr_player in Hwho.
    destruct (n =? 1); [discriminate|]. destruct (n =? 2); [discriminate|].
    destruct (n =? 3); discriminate.
Qed.

Lemma sprite_of_set_sprite (who who' : player) (s : option Sprite.t) (v : GameView) :
  sprite_of who' (set_sprite who s v) = if decide (who' = who) then s else sprite_of who' v.
Proof. destruct who, who'; reflexivity. Qed.

Lemma set_sprite_twice (who : player) (s s' : option Sprite.t) (v : GameView) :
  set_sprite who s' (set_sprite who s v) = set_sprite who s' v.
Proof. destruct who; reflexivity. Qed.

(** X18. Releasing one of the two direction keys stops the player even when
    the other one is still held: after RIGHT is pressed, LEFT is pressed and
    LEFT is released, the horizontal speed of the assigned player is 0, with
    RIGHT still down. *)
Theorem release_stops_player (k : Env) (can_jump : bool) (m1 m2 m3 : Z) (v : GameView)
    (who : player) (s : Sprite.t) (speed : pyval) :
  getattr_player (assigned_player v) = Return who -> sprite_of who v = Some s ->
  neg (PLAYER_MOVEMENT_SPEED k) = Return speed ->
  (on_key_press k can_jump key_RIGHT m1;;
   on_key_press k can_jump key_LEFT m2;;
   on_key_release key_LEFT m3) v
  = (Return tt, set_sprite who (Some (Sprite.set_change_x (PInt 0) s)) v).
Proof.
  intros Hwho Hs Hneg.
  assert (Hassigned : forall s', assigned_player (set_sprite who s' v) = assigned_player v)
    by reflexivity.
  unfold on_key_press, on_key_release. simpl.
  st_unfold. unfold get_state, update_sprite. rewrite Hneg.
  rewrite (player_sprite_found _ who s v Hwho Hs).
  rewrite Hassigned.
  rewrite (player_sprite_found _ who _ (set_sprite who _ v) Hwho
             ltac:(rewrite sprite_of_set_sprite, decide_True; reflexivity)).
  rewrite set_sprite_twice, Hassigned.
  rewrite (player_sprite_found _ who _ (set_sprite who _ v) Hwho
             ltac:(rewrite sprite_of_set_sprite, decide_True; reflexivity)).
  rewrite set_sprite_twice. reflexivity.
Qed.

Lemma release_stops_player_witness :
  (on_key_press demo_env true key_RIGHT 0;;
   on_key_press demo_env true key_LEFT 0;;
   on_key_release key_LEFT 0) demo_view
  = (Return tt,
     set_sprite Player2
       (Some (Sprite.set_change_x (PInt 0)
                (Sprite.mk (u "/game/data/player2.png") (PFloat 0x3FE0000000000000)
                   (PInt 500) (PInt 100) (PFloat 0) (PFloat 0))))
       demo_view).
Proof.
  apply (release_stops_player demo_env true 0 0 0 demo_view Player2
           (Sprite.mk (u "/game/data/player2.png") (PFloat 0x3FE0000000000000)
              (PInt 500) (PInt 100) (PFloat 0) (PFloat 0))
           (PInt (-5))).
  - reflexivity.
  - reflexivity.
  - reflexivity.
Defined.

Lemma same_but_speed_refl (v : GameView) : same_but_speed v v.
Proof.
  unfold same_but_speed. repeat split; auto.
  destruct (sprite_of who v); [|exact I]. unfold same_place. auto.
Qed.

Lemma same_but_speed_update (v : GameView) (who : player) (s s' : Sprite.t) :
  getattr_player (assigned_player v) = Return who -> sprite_of who v = Some s ->
  same_place s s' ->
  same_but_speed v (set_sprite who (Some s') v).
Proof.
  intros Hwho Hs Hplace. unfold same_but_speed.
  repeat split; try (destruct who; reflexivity).
  - intros Hother. rewrite sprite_of_set_sprite.
    destruct (decide (who0 = who)) as [->|]; [congruence|reflexivity].
  - rewrite sprite_of_set_sprite.
    destruct (decide (who0 = who)) as [->|].
    + rewrite Hs. exact Hplace.
    + destruct (sprite_of who0 v); [|exact I]. unfold same_place. auto.
Qed.

(** X19. A key event changes nothing but the speed of the sprite of the
    assigned player: after [on_key_press] and after [on_key_release], for
    any key, with or without an exception, the walls, the engine, the
    assigned player and the places of the three sprites are what they were,
    and the two other sprites are untouched. *)
Theorem key_events_touch_speed_only (k : Env) (can_jump : bool) (key modifiers : Z)
    (v : GameView) :
  same_but_speed v (on_key_press k can_jump key modifiers v).2
  /\ same_but_speed v (on_key_release key modifiers v).2.
Proof.
  assert (Hset : forall (f : Sprite.t -> Sprite.t),
            (forall s, same_place s (f s)) ->
            same_but_speed v
              ((let (o, s') := player_sprite (assigned_player v) v in
                match o with
                | Return a => (let '(who, s) := a in
                               fun v0 => (Return (), set_sprite who (Some (f s)) v0)) s'
                | Raise e => (Raise e, s')
                | Blocks => (Blocks, s')
                end).2)).
  { intros f Hf.
    destruct (player_sprite_inv (assigned_player v) v)
      as [(who & s & Hwho & Hs & ->) | ->]; simpl.
    - apply (same_but_speed_update v who s); auto.
    - apply same_but_speed_refl. }
  split.
  - unfold on_key_press.
    destruct ((key =? key_SPACE) || (key =? key_W)).
    + unfold engine_can_jump. st_unfold. unfold get_state, update_sprite.
      destruct (physics_engine v); simpl; [|apply same_but_speed_refl].
      destruct can_jump; [|apply same_but_speed_refl].
      apply (Hset (Sprite.set_change_y (PLAYER_JUMP_SPEED k))).
      intros s. unfold same_place. auto.
    + destruct ((key =? key_LEFT) || (key =? key_A)).
      * st_unfold. unfold get_state, update_sprite.
        destruct (neg (PLAYER_MOVEMENT_SPEED k)) as [speed|e|]; simpl;
          try apply same_but_speed_refl.
        apply (Hset (Sprite.set_change_x speed)).
        intros s. unfold same_place. auto.
      * destruct ((key =? key_RIGHT) || (key =? key_D)); [|apply same_but_speed_refl].
        st_unfold. unfold get_state, update_sprite.
        apply (Hset (Sprite.set_change_x (PLAYER_MOVEMENT_SPEED k))).
        intros s. unfold same_place. auto.
  - unfold on_key_release.
    destruct ((key =? key_LEFT) || (key =? key_A)).
    + st_unfold. unfold get_state, update_sprite.
      apply (Hset (Sprite.set_change_x (PInt 0))).
      intros s. unfold same_place. auto.
    + destruct ((key =? key_RIGHT) || (key =? key_D)); [|apply same_but_speed_refl].
      st_unfold. unfold get_state, update_sprite.
      apply (Hset (Sprite.set_change_x (PInt 0))).
      intros s. unfold same_place. auto.
Qed.

Lemma randint_of_range (raw a c : Z) : a <= c -> a <= randint_of raw a c <= c.
Proof.
  intros Hac. unfold randint_of.
  pose proof (Z.mod_pos_bound raw (c - a + 1) ltac:(lia)). lia.
Qed.

(** [add_wall] with a height. *)
Lemma add_wall_at (k : Env) (pos : pyval) (v : GameView) (walls : list Sprite.t) :
  wall_list v = Some walls -> is_number (SCREEN_WIDTH k) = true ->
  truthy pos = true -> is_number pos = true ->
  add_wall k pos v = (Return tt, set_wall_list (Some (walls ++ [wall_at k pos])) v).
Proof.
  intros Hwalls Hwidth Htrue Hnum.
  unfold add_wall. st_unfold. unfold get_state, put_state.
  rewrite Htrue. simpl. unfold Sprite.set_position. simpl.
  rewrite Hwidth, Hnum. simpl. rewrite Hwalls. reflexivity.
Qed.

(** [add_wall] without a height, or with one that counts as false. *)
Lemma add_wall_random (k : Env) (pos : pyval) (v : GameView) (walls : list Sprite.t) :
  wall_list v = Some walls -> is_number (SCREEN_WIDTH k) = true ->
  truthy pos = false ->
  add_wall k pos v
  = (Return tt,
     set_wall_list
       (Some (walls ++ [wall_at k (PInt (randint_of (generator v (draws v)) 10 650))]))
       (randint 10 650 v).2).
Proof.
  intros Hwalls Hwidth Hfalse.
  unfold add_wall. st_unfold. unfold get_state, put_state.
  rewrite Hfalse. simpl. unfold Sprite.set_position. simpl.
  rewrite Hwidth. simpl. rewrite Hwalls. reflexivity.
Qed.

(** X20. A click adds one wall and nothing else: the wall stands at the
    right edge of the screen, at a height drawn from 10..650, and moves left
    by 5; the walls that were there stay in front of it and the players are
    untouched. *)
Theorem click_adds_wall (k : Env) (x y button modifiers : Z) (v : GameView)
    (walls : list Sprite.t) :
  wall_list v = Some walls -> is_number (SCREEN_WIDTH k) = true ->
  exists (height : Z) (v' : GameView),
    on_mouse_press k x y button modifiers v = (Return tt, v')
    /\ 10 <= height <= 650
    /\ wall_list v' = Some (walls ++ [wall_at k (PInt height)])
    /\ Sprite.position (wall_at k (PInt height)) = [SCREEN_WIDTH k; PInt height]
    /\ Sprite.change_x (wall_at k (PInt height)) = PInt (-5)
    /\ (forall who, sprite_of who v' = sprite_of who v)
    /\ draws v' = S (draws v).
Proof.
  intros Hwalls Hwidth.
  exists (randint_of (generator v (draws v)) 10 650). eexists.
  split; [|split; [|split; [|split; [|split; [|split]]]]].
  - unfold on_mouse_press. apply (add_wall_random k PNone v walls Hwalls Hwidth).
    reflexivity.
  - apply randint_of_range. lia.
  - reflexivity.
  - reflexivity.
  - reflexivity.
  - intros [| |]; reflexivity.
  - reflexivity.
Qed.

Lemma click_adds_wall_witness :
  exists (height : Z) (v' : GameView),
    on_mouse_press demo_env 10 20 1 0 demo_view = (Return tt, v')
    /\ 10 <= height <= 650
    /\ wall_list v' = Some (floor_blocks demo_env ++ [wall_at demo_env (PInt height)])
    /\ Sprite.position (wall_at demo_env (PInt height))
       = [SCREEN_WIDTH demo_env; PInt height]
    /\ Sprite.change_x (wall_at demo_env (PInt height)) = PInt (-5)
    /\ (forall who, sprite_of who v' = sprite_of who demo_view)
    /\ draws v' = S (draws demo_view).
Proof.
  apply (click_adds_wall demo_env 10 20 1 0 demo_view (floor_blocks demo_env)).
  - vm_compute. reflexivity.
  - reflexivity.
Defined.

(** *** [GameView.stream] *)

(** [add_wall] with an argument that is a height or counts as false: one
    wall is added, at that height or at one drawn from 10..650, and nothing
    else of the view changes but the count of the numbers drawn. *)
Lemma add_wall_adds (k : Env) (pos : pyval) (v : GameView) (walls : list Sprite.t) :
  wall_list v = Some walls -> is_number (SCREEN_WIDTH k) = true ->
  (truthy pos = true -> is_number pos = true) ->
  exists (height : pyval) (v' : GameView),
    add_wall k pos v = (Return tt, v')
    /\ wall_list v' = Some (walls ++ [wall_at k height])
    /\ (forall who, sprite_of who v' = sprite_of who v)
    /\ (truthy pos = true -> height = pos /\ draws v' = draws v)
    /\ (truthy pos = false ->
        draws v' = S (draws v) /\ exists h, height = PInt h /\ 10 <= h <= 650).
Proof.
  intros Hwalls Hwidth Hnum.
  destruct (truthy pos) eqn:Htruthy.
  - exists pos. eexists. split; [apply (add_wall_at k pos v walls); auto|].
    split; [reflexivity|]. split; [intros [| |]; reflexivity|].
    split; [auto|discriminate].
  - eexists. eexists. split; [apply (add_wall_random k pos v walls); auto|].
    split; [reflexivity|]. split; [intros [| |]; reflexivity|].
    split; [discriminate|]. intros _. split; [reflexivity|].
    eexists. split; [reflexivity|]. apply randint_of_range. lia.
Qed.



(** X22. A batch that begins with the number of a player (0, 1 or 2, in a
    form that [int] accepts and that does not count as false), followed by
    two coordinates that are numbers: the sprite of that player, number plus
    one, is moved to the coordinates and the other sprites stay; and one
    wall is added, at the height given by the last item of the batch when
    that item is a number other than zero, at a height drawn from 10..650
    when it counts as false. *)
Theorem player_message_moves_sprite `{python : Interpreter} (k : Env) (v : GameView)
    (walls : list Sprite.t) (first x y pos : pyval) (more : list pyval) (n : Z)
    (who : player) (s : Sprite.t) :
  wall_list v = Some walls -> is_number (SCREEN_WIDTH k) = true ->
  truthy first = true -> eq_str first (u ":server:") = false ->
  int_of first = Return n -> getattr_player (n + 1) = Return who ->
  sprite_of who v = Some s ->
  is_number x = true -> is_number y = true ->
  last (y :: more) = Some pos -> (truthy pos = true -> is_number pos = true) ->
  exists (s' : Sprite.t) (height : pyval) (v' : GameView),
    apply_feedback k (true, Some (first :: x :: y :: more)) v = (Return tt, v')
    /\ Sprite.set_position x y s = Return s'
    /\ sprite_of who v' = Some s'
    /\ Sprite.position s' = [x; y]
    /\ (forall other, other <> who -> sprite_of other v' = sprite_of other v)
    /\ wall_list v' = Some (walls ++ [wall_at k height])
    /\ (truthy pos = true -> height = pos /\ draws v' = draws v)
    /\ (truthy pos = false ->
        draws v' = S (draws v) /\ exists h, height = PInt h /\ 10 <= h <= 650).
Proof.
  intros Hwalls Hwidth Htrue Hserver Hint Hwho Hs Hx Hy Hlast Hnum.
  assert (Hset : Sprite.set_position x y s
                 = Return (Sprite.mk (Sprite.filename s) (Sprite.scale s) x y
                             (Sprite.change_x s) (Sprite.change_y s))).
  { unfold Sprite.set_position. rewrite Hx, Hy. reflexivity. }
  set (s' := Sprite.mk (Sprite.filename s) (Sprite.scale s) x y
               (Sprite.change_x s) (Sprite.change_y s)) in *.
  assert (Hrun : apply_feedback k (true, Some (first :: x :: y :: more)) v
                 = add_wall k pos (set_sprite who (Some s') v)).
  { unfold apply_feedback. st_unfold. unfold batch_item, batch_last, index.
    cbn [fst snd lookup list_lookup]. cbv beta iota.
    rewrite Htrue, Hserver, Hint. cbv beta iota.
    rewrite (player_sprite_found _ who s v Hwho Hs). cbv beta iota.
    rewrite Hset. cbv beta iota. unfold update_sprite.
    change (last (first :: x :: y :: more)) with (last (y :: more)).
    rewrite Hlast. reflexivity. }
  destruct (add_wall_adds k pos (set_sprite who (Some s') v) walls Hwalls Hwidth Hnum)
    as (height & v' & Hadd & Hw & Hsprites & Hgiven & Hdrawn).
  exists s', height, v'.
  split; [rewrite Hrun; exact Hadd|]. split; [exact Hset|].
  split; [rewrite Hsprites, sprite_of_set_sprite, decide_True; reflexivity|].
  split; [reflexivity|].
  split; [|split; [exact Hw|split; [exact Hgiven|exact Hdrawn]]].
  intros other Hother.
  rewrite Hsprites, sprite_of_set_sprite, decide_False by exact Hother. reflexivity.
Qed.

Lemma player_message_moves_sprite_witness :
  exists (s' : Sprite.t) (height : pyval) (v' : GameView),
    apply_feedback demo_env
      (true, Some [PStr (u "0"); PFloat 0x4059000000000000; PInt 250; PInt 400])
      demo_view = (Return tt, v')
    /\ Sprite.set_position (PFloat 0x4059000000000000) (PInt 250)
         (Sprite.mk (u "/game/data/player1.png") (PFloat 0x3FE0000000000000)
            (PInt 100) (PInt 100) (PFloat 0) (PFloat 0)) = Return s'
    /\ sprite_of Player1 v' = Some s'
    /\ Sprite.position s' = [PFloat 0x4059000000000000; PInt 250]
    /\ (forall other, other <> Player1 -> sprite_of other v' = sprite_of other demo_view)
    /\ wall_list v' = Some (floor_blocks demo_env ++ [wall_at demo_env height])
    /\ (truthy (PInt 400) = true -> height = PInt 400 /\ draws v' = draws demo_view)
    /\ (truthy (PInt 400) = false ->
        draws v' = S (draws demo_view) /\ exists h, height = PInt h /\ 10 <= h <= 650).
Proof.
  apply (player_message_moves_sprite demo_env demo_view (floor_blocks demo_env)
           (PStr (u "0")) (PFloat 0x4059000000000000) (PInt 250) (PInt 400)
           [PInt 400] 0 Player1).
  - vm_compute. reflexivity.
  - reflexivity.
  - reflexivity.
  - reflexivity.
  - reflexivity.
  - reflexivity.
  - reflexivity.
  - reflexivity.
  - reflexivity.
  - reflexivity.
  - reflexivity.
Defined.

(** X23. What [stream] drops without a word: a failed exchange, and a batch
    whose first item counts as false: [None], [False], an empty text or list,
    0.0, and the integer 0, the number of the first player.  The view is
    left as it is. *)
Theorem falsy_head_is_dropped `{python : Interpreter} (k : Env) (v : GameView) (data : result) :
  data.1 = false
  \/ (exists first more, data.2 = Some (first :: more) /\ truthy first = false) ->
  apply_feedback k data v = (Return tt, v).
Proof.
  intros [Hfail | (first & more & Hbatch & Hfalse)].
  - destruct data as [ok batch]. simpl in Hfail. subst ok. reflexivity.
  - destruct data as [ok batch]. simpl in Hbatch. subst batch.
    unfold apply_feedback. st_unfold. simpl. rewrite Hfalse.
    destruct ok; reflexivity.
Qed.

Lemma falsy_head_is_dropped_witness :
  apply_feedback demo_env (true, Some [PInt 0; PInt 120; PInt 250; PInt 400]) demo_view
  = (Return tt, demo_view).
Proof.
  apply (falsy_head_is_dropped demo_env demo_view
           (true, Some [PInt 0; PInt 120; PInt 250; PInt 400])).
  right. exists (PInt 0), [PInt 120; PInt 250; PInt 400]. split; reflexivity.
Defined.

(** [stream] on a view whose assigned player has a sprite: the position is
    enqueued, the oldest answer, if any, is taken out and applied. *)
Lemma GameView_stream_run `{python : Interpreter} (k : Env) (g : Game) (who : player) (me : Sprite.t) :
  getattr_player (assigned_player (view g)) = Return who ->
  sprite_of who (view g) = Some me ->
  GameView_stream k g
  = match feedback (queues g) with
    | [] =>
        (Return tt,
         mkGame (view g)
           (mkBridge (forward (queues g) ++ [Sprite.position me]) []
              (session (queues g))))
    | data :: rest =>
        let '(r, v') := apply_feedback k data (view g) in
        (r, mkGame v'
              (mkBridge (forward (queues g) ++ [Sprite.position me]) rest
                 (session (queues g))))
    end.
Proof.
  intros Hwho Hme.
  destruct g as [v [fw fb s]]. simpl in *.
  unfold GameView_stream. st_unfold. unfold get_state, on_view, on_queues. simpl.
  rewrite (player_sprite_found _ who me v Hwho Hme). simpl.
  unfold stream. st_unfold. unfold forward_put, feedback_empty, feedback_get. simpl.
  destruct fb as [|data rest]; simpl; [reflexivity|].
  destruct (apply_feedback k data v) as [r v']. reflexivity.
Qed.

(** X24. What [stream] does to the queues does not depend on what the
    answer holds: the position of the assigned player goes to [forward], and
    the oldest entry of [feedback], if there is one, is taken out, also when
    applying it raises; the entry is then lost. *)
Theorem stream_queues `{python : Interpreter} (k : Env) (g : Game) (who : player) (me : Sprite.t) :
  getattr_player (assigned_player (view g)) = Return who ->
  sprite_of who (view g) = Some me ->
  let g' := (GameView_stream k g).2 in
  forward (queues g') = forward (queues g) ++ [Sprite.position me]
  /\ feedback (queues g') = tail (feedback (queues g))
  /\ session (queues g') = session (queues g)
  /\ (GameView_stream k g).1
     = match feedback (queues g) with
       | [] => Return tt
       | data :: _ => (apply_feedback k data (view g)).1
       end.
Proof.
  intros Hwho Hme. cbv zeta. rewrite (GameView_stream_run k g who me Hwho Hme).
  destruct (feedback (queues g)) as [|data rest]; simpl; [auto|].
  destruct (apply_feedback k data (view g)) as [r v']. simpl. auto.
Qed.

Lemma stream_queues_witness :
  let g := demo_game [(true, Some [PStr (u "7"); PInt 1; PInt 2; PInt 3]);
                      (true, Some [PStr (u "0"); PInt 1; PInt 2; PInt 3])] in
  let g' := (GameView_stream demo_env g).2 in
  forward (queues g') = forward (queues g) ++ [[PInt 500; PInt 100]]
  /\ feedback (queues g') = [(true, Some [PStr (u "0"); PInt 1; PInt 2; PInt 3])]
  /\ session (queues g') = session (queues g)
  /\ (GameView_stream demo_env g).1 = Raise AttributeError.
Proof.
  exact (stream_queues demo_env
           (demo_game [(true, Some [PStr (u "7"); PInt 1; PInt 2; PInt 3]);
                       (true, Some [PStr (u "0"); PInt 1; PInt 2; PInt 3])])
           Player2
           (Sprite.mk (u "/game/data/player2.png") (PFloat 0x3FE0000000000000)
              (PInt 500) (PInt 100) (PFloat 0) (PFloat 0))
           eq_refl eq_refl).
Defined.



(** X26. [stream] on a view whose assigned player has no sprite (before
    [setup], or with a player number outside 1..3) raises [AttributeError]
    at once: nothing is put on [forward] and [feedback] is not read. *)
Theorem stream_without_sprite `{python : Interpreter} (k : Env) (g : Game) :
  (forall who, getattr_player (assigned_player (view g)) = Return who ->
               sprite_of who (view g) = None) ->
  GameView_stream k g = (Raise AttributeError, g).
Proof.
  intros Hnone. destruct g as [v q]. simpl in Hnone.
  unfold GameView_stream. st_unfold. unfold get_state, on_view. simpl.
  destruct (player_sprite_inv (assigned_player v) v)
    as [(who & s & Hwho & Hs & _) | ->]; [|reflexivity].
  rewrite (Hnone who Hwho) in Hs. discriminate.
Qed.

Lemma stream_without_sprite_witness :
  GameView_stream demo_env
    (mkGame (GameView_init (fun n => Z.of_nat n)) (mkBridge [] [] (active_session [])))
  = (Raise AttributeError,
     mkGame (GameView_init (fun n => Z.of_nat n)) (mkBridge [] [] (active_session []))).
Proof.
  apply (stream_without_sprite demo_env
           (mkGame (GameView_init (fun n => Z.of_nat n))
              (mkBridge [] [] (active_session [])))).
  intros who _. destruct who; reflexivity.
Defined.

(** *** The script of test2.py *)

Lemma await_response_failed_recv `{python : Interpreter} (s : Session) (e : exn)
    (inbox : list (exn + bytes)) :
  tcp_inbox (net s) = inl e :: inbox ->
  await_response s
  = (if is_ConnectionAbortedError e then Return (PList [PBool false]) else Raise e,
     (tcp_recv 1000 s).2).
Proof.
  intros Hin. unfold await_response. st_unfold. unfold tcp_recv. rewrite Hin.
  destruct (is_ConnectionAbortedError e); reflexivity.
Qed.

(** X27. The script does not end on an aborted connection: each
    [ConnectionAbortedError] of [recv] is printed as [[False]] and the loop
    reads again, on the same socket; it sends nothing and does not connect
    again. *)
Theorem await_loop_retries_after_abort `{python : Interpreter} (aborts turns : nat) (t : Terminal)
    (inbox : list (exn + bytes)) :
  tcp_inbox (net (pl t)) = replicate aborts (inl ConnectionAbortedError) ++ inbox ->
  exists s' : Session,
    await_loop (aborts + turns) t
    = await_loop turns
        (mkTerminal s' (stdin t)
           (stdout t ++ replicate aborts (print_packet (PList [PBool false]))))
    /\ tcp_inbox (net s') = inbox
    /\ self s' = self (pl t)
    /\ tcp_connected (net s') = tcp_connected (net (pl t))
    /\ connect_script (net s') = connect_script (net (pl t))
    /\ tcp_sent (net s') = tcp_sent (net (pl t))
    /\ udp_sent (net s') = udp_sent (net (pl t)).
Proof.
  revert t. induction aborts as [|aborts IH]; intros t Hin.
  - exists (pl t). simpl. rewrite app_nil_r. destruct t. simpl in *. auto 10.
  - simpl in Hin.
    destruct (IH (mkTerminal (tcp_recv 1000 (pl t)).2 (stdin t)
                    (stdout t ++ [print_packet (PList [PBool false])])))
      as (s' & Hloop & H1 & H2 & H3 & H4 & H5 & H6).
    { simpl. unfold tcp_recv. rewrite Hin. reflexivity. }
    cbn [pl stdin stdout] in Hloop. rewrite <- app_assoc in Hloop.
    exists s'. split.
    + cbn [replicate]. change ([print_packet (PList [PBool false])]
                               ++ replicate aborts (print_packet (PList [PBool false])))
        with (print_packet (PList [PBool false])
              :: replicate aborts (print_packet (PList [PBool false]))) in Hloop.
      rewrite <- Hloop. cbn [await_loop Nat.add]. st_unfold. unfold on_pl, print.
      rewrite (await_response_failed_recv _ _ _ Hin). reflexivity.
    + cbn [pl] in H2, H3, H4, H5, H6.
      unfold tcp_recv in H2, H3, H4, H5, H6. rewrite Hin in H2, H3, H4, H5, H6.
      simpl in H2, H3, H4, H5, H6. auto 10.
Qed.

Lemma await_loop_retries_after_abort_witness :
  let t := mkTerminal
             (connected_session [inl ConnectionAbortedError; inl ConnectionAbortedError;
                                 inr (b "Start,,5005,,42")]) [u "7"] [] in
  exists s' : Session,
    await_loop (2 + 1) t
    = await_loop 1
        (mkTerminal s' (stdin t)
           (stdout t ++ replicate 2 (print_packet (PList [PBool false]))))
    /\ tcp_inbox (net s') = [inr (b "Start,,5005,,42")]
    /\ self s' = self (pl t)
    /\ tcp_connected (net s') = tcp_connected (net (pl t))
    /\ connect_script (net s') = connect_script (net (pl t))
    /\ tcp_sent (net s') = tcp_sent (net (pl t))
    /\ udp_sent (net s') = udp_sent (net (pl t)).
Proof.
  exact (await_loop_retries_after_abort 2 1
           (mkTerminal
              (connected_session [inl ConnectionAbortedError; inl ConnectionAbortedError;
                                  inr (b "Start,,5005,,42")]) [u "7"] [])
           [inr (b "Start,,5005,,42")] eq_refl).
Defined.

(** X28. Once the script is in its sending loop it never comes back to the
    handshake: however long the loop runs and however it ends, the stream
    socket is not read, nothing is sent on it, and the secret and the
    datagram port of the [Pipe] are those of the first "Start" message. *)
Theorem transport_loop_keeps_handshake `{python : Interpreter} (turns : nat) (t : Terminal) :
  let t' := (transport_loop turns t).2 in
  self (pl t') = self (pl t)
  /\ tcp_inbox (net (pl t')) = tcp_inbox (net (pl t))
  /\ tcp_sent (net (pl t')) = tcp_sent (net (pl t))
  /\ tcp_connected (net (pl t')) = tcp_connected (net (pl t)).
Proof.
  cbv zeta.
  assert (H : same_stream (pl t) (pl (transport_loop turns t).2)).
  { revert t. induction turns as [|turns IH]; intros t; [apply same_stream_refl|].
    cbn [transport_loop]. st_unfold. unfold input, on_pl, print.
    destruct (stdin t) as [|text lines]; [apply same_stream_refl|].
    destruct (py_int text) as [n|e|]; try apply same_stream_refl.
    cbn [pl stdin stdout].
    pose proof (transport_same_stream [PStr (u "press"); PInt n] (pl t)) as Hs.
    destruct (transport [PStr (u "press"); PInt n] (pl t)) as [[r|e|] s1];
      simpl in Hs; try exact Hs.
    eapply same_stream_trans; [exact Hs|].
    apply (IH (mkTerminal s1 lines (stdout t ++ [print_transport r]))). }
  unfold same_stream in H. tauto.
Qed.

(** *** The render loop and the bridge together *)

(** X29. From the view to the wire: when [forward] is empty and the bridge
    runs its next turn before [stream] is called again, the position that
    [stream] has enqueued is the update that this turn hands to [transport],
    and the turn leaves [forward] empty. *)
Theorem stream_then_cycle `{python : Interpreter} (k : Env) (g : Game) (who : player) (me : Sprite.t) :
  getattr_player (assigned_player (view g)) = Return who ->
  sprite_of who (view g) = Some me ->
  forward (queues g) = [] ->
  let q := queues (GameView_stream k g).2 in
  networking_cycle q
  = (let '(r, s') := transport (Sprite.position me) (session (queues g)) in
     match r with
     | Return answer => (Return tt, mkBridge [] (feedback q ++ [answer]) s')
     | Raise e => (Raise e, mkBridge [] (feedback q) s')
     | Blocks => (Blocks, mkBridge [] (feedback q) s')
     end).
Proof.
  intros Hwho Hme Hempty. cbv zeta.
  rewrite networking_cycle_unfold.
  rewrite (GameView_stream_run k g who me Hwho Hme), Hempty.
  destruct (feedback (queues g)) as [|data rest]; simpl; [reflexivity|].
  destruct (apply_feedback k data (view g)) as [r v']. reflexivity.
Qed.

Lemma stream_then_cycle_witness :
  let g := mkGame demo_view
             (mkBridge [] [] (active_session [inr (datagram_of [PInt 0; PInt 10])])) in
  let q := queues (GameView_stream demo_env g).2 in
  networking_cycle q
  = (let '(r, s') := transport [PInt 500; PInt 100] (session (queues g)) in
     match r with
     | Return answer => (Return tt, mkBridge [] (feedback q ++ [answer]) s')
     | Raise e => (Raise e, mkBridge [] (feedback q) s')
     | Blocks => (Blocks, mkBridge [] (feedback q) s')
     end).
Proof.
  exact (stream_then_cycle demo_env
           (mkGame demo_view
              (mkBridge [] [] (active_session [inr (datagram_of [PInt 0; PInt 10])])))
           Player2
           (Sprite.mk (u "/game/data/player2.png") (PFloat 0x3FE0000000000000)
              (PInt 500) (PInt 100) (PFloat 0) (PFloat 0))
           eq_refl eq_refl eq_refl).
Defined.

(** X30. The script does not look at what [login] returns.  Whatever the
    server replies to the join request, a refusal ("Missing", "Full")
    included, the reply is printed and the script waits for the next
    message; when that one is a well-formed "Start", it is printed too and
    the script enters its sending loop with the port and the secret of the
    message. *)
Theorem script_ignores_login_result `{python : Interpreter} (hostname : str)
    (network : Net) (lines : list str)
    (turns : nat) (reply chunk : bytes) (inbox : list (exn + bytes))
    (script' : list (option exn)) (text field1 field2 : str) (p q : Z) :
  tcp_connected network = false -> connect_script network = None :: script' ->
  (forall e, head (tcp_send_script network) <> Some (Some e)) ->
  tcp_inbox network = inr reply :: inr chunk :: inbox ->
  (length reply <= 100)%nat ->
  decode (take 1000 chunk) = Return text ->
  split (u ",,") text !! 0%nat = Some (u "Start") ->
  split (u ",,") text !! 1%nat = Some field1 -> py_int field1 = Return p ->
  split (u ",,") text !! 2%nat = Some field2 -> py_int field2 = Return q ->
  exists (r : bool * str) (s' : Session),
    script (S turns) (Terminal_init hostname network lines)
    = transport_loop turns
        (mkTerminal s' lines
           [print_login r; print_packet (PList (PStr <$> split (u ",,") text))])
    /\ self s' = mkPipe hostname 9000 true (Some (u "Pancho")) (Some q) (Some p)
    /\ tcp_sent (net s') = tcp_sent network ++ [b "join,,game3,,Pancho"].
Proof.
  intros Htcp Hscript Hsend Hin Hlen Hdec H0 H1 Hp H2 Hq.
  destruct network as [tc cs ss ti us ui ts uss]. simpl in Htcp, Hscript, Hsend, Hin.
  subst tc cs ti.
  assert (Henc : encode (u "join" ++ u ",," ++ u "game3" ++ u ",," ++ u "Pancho")
                 = Return (b "join,,game3,,Pancho")) by reflexivity.
  assert (Hhead : index (PStr <$> split (u ",,") text) 0 = Return (PStr (u "Start"))).
  { apply index_Some. rewrite list_lookup_fmap, H0. reflexivity. }
  assert (Hlogin : exists r,
            login (u "join") (u "game3") (u "Pancho")
              (mkSession (Pipe_init hostname 9000)
                 (mkNet false (None :: script') ss (inr reply :: inr chunk :: inbox)
                    us ui ts uss))
            = (Return r,
               mkSession (mkPipe hostname 9000 true (Some (u "Pancho")) None None)
                 (mkNet true script' (tail ss) (inr chunk :: inbox) us ui
                    (ts ++ [b "join,,game3,,Pancho"]) uss))).
  { unfold login. rewrite Henc. unfold connect. st_unfold. unfold tcp_connect. simpl.
    unfold tcp_send, tcp_recv. simpl.
    destruct ss as [|[e|] ss']; simpl;
      try (exfalso; apply (Hsend e); reflexivity);
      rewrite drop_ge by lia;
      repeat (destruct (str_eqb _ _) || destruct (bytes_eqb _ _)); eauto. }
  destruct Hlogin as [r Hlogin].
  exists r. eexists. split; [|split].
  - unfold script, Terminal_init. st_unfold. unfold on_pl at 1. cbn [pl stdin stdout].
    rewrite Hlogin. unfold print at 1. cbn [pl stdin stdout app].
    cbn [await_loop]. st_unfold. unfold on_pl at 1. cbn [pl stdin stdout].
    unfold await_response. st_unfold. unfold tcp_recv. cbn [net tcp_inbox].
    rewrite Hdec, (index_Some _ _ _ H0). simpl.
    rewrite (index_Some _ _ _ H1), Hp. simpl.
    rewrite (index_Some _ _ _ H2), Hq. simpl.
    rewrite Hhead. unfold eq_str, str_eqb.
    rewrite bool_decide_eq_true_2 by reflexivity. reflexivity.
  - reflexivity.
  - reflexivity.
Qed.

Lemma script_ignores_login_result_witness :
  exists (r : bool * str) (s' : Session),
    script 2
      (Terminal_init (u "localhost")
         (mkNet false [None] [] [inr (b "Full"); inr (b "Start,,5005,,42")] [] [] [] [])
         [u "7"])
    = transport_loop 1
        (mkTerminal s' [u "7"]
           [print_login r;
            print_packet (PList (PStr <$> split (u ",,") (u "Start,,5005,,42")))])
    /\ self s' = mkPipe (u "localhost") 9000 true (Some (u "Pancho")) (Some 42) (Some 5005)
    /\ tcp_sent (net s') = [] ++ [b "join,,game3,,Pancho"].
Proof.
  exact (script_ignores_login_result (u "localhost")
           (mkNet false [None] [] [inr (b "Full"); inr (b "Start,,5005,,42")] [] [] [] [])
           [u "7"] 1 (b "Full") (b "Start,,5005,,42") [] [] (u "Start,,5005,,42")
           (u "5005") (u "42") 5005 42 eq_refl eq_refl
           (fun e H => ltac:(discriminate H)) eq_refl
           ltac:(simpl; lia) eq_refl eq_refl eq_refl eq_refl eq_refl eq_refl).
Defined.
